(** * voiceapi: the streaming session engine (TTS stream, speaker stream,
      engine caches)

    A shallow embedding of [voiceapi/tts.py] and [voiceapi/speaker_id.py],
    and of the WebSocket handlers of [app.py] that drive the two streams.

    Conventions of the embedding.
    - Python [float] and numpy [float32] values are idealised as rationals
      ([Q]); [int(x)] truncates toward zero.  For the integer operands the
      code feeds it (lengths times sample rates, far below 2^53) the
      truncated IEEE quotient and the truncated exact quotient coincide.
      The progress percentage of the registration handler, where the
      rounding of the doubles decides the integer, is computed on binary64
      (module [float64]).
    - A Python [str] is a list of Unicode code points, a [bytes] object a
      list of bytes.
    - A raised exception is the [Raise] outcome of the [res] monad; the
      receiver's state is the one reached by the statements executed before
      the [raise].
    - An [asyncio.Queue] is the list of the items put into it, oldest first;
      [None] inside the queue is the end-of-stream sentinel.
    - The external engines (sherpa-onnx, scipy) are records of functions:
      what they compute is opaque, the protocol in which the code calls
      them is modelled.
    - A handler's pump is run on the frames its client sends, in order; a
      pump that has read them all is suspended in its next [await].  The
      client stays connected ([WebSocketDisconnect] is not raised).
    - A JSON file is the value [json.load] gives for it; writing a file is
      taken to succeed. *)

From Stdlib Require Import ZArith QArith Qround Lia List Bool.
From Stdlib.Strings Require Import Byte.
From Stdlib Require Floats Uint63.
From stdpp Require Import base option list strings gmap.
Import ListNotations.

Local Open Scope Z_scope.

(** ** Exceptions and the error monad *)

Inductive exn : Type :=
| ValueError
| ZeroDivisionError
| KeyError
| AttributeError.

Inductive res (A : Type) : Type :=
| Ok (a : A)
| Raise (e : exn).

Arguments Ok {A} a.
Arguments Raise {A} e.

Definition rbind {A B : Type} (k : A -> res B) (m : res A) : res B :=
  match m with
  | Ok a => k a
  | Raise e => Raise e
  end.

#[global] Instance res_ret : MRet res := fun _ a => Ok a.
#[global] Instance res_bind : MBind res := fun _ _ k m => rbind k m.


(** ** Python and numpy primitives used by both modules *)

Module py.

(** A [str]: its code points. *)
Definition str : Type := list N.

(** The code points of an ASCII literal. *)
Fixpoint of_string (s : string) : str :=
  match s with
  | EmptyString => []
  | String a rest => Ascii.N_of_ascii a :: of_string rest
  end.

(** [int(x)] on a float: truncation toward zero. *)
Definition int (q : Q) : Z := Z.quot (Qnum q) (Zpos (Qden q)).

(** [a / b] on two integers: true division, [ZeroDivisionError] on [b = 0]. *)
Definition truediv (a b : Z) : res Q :=
  if b =? 0 then Raise ZeroDivisionError
  else Ok (inject_Z a / inject_Z b)%Q.

(** [len(x)] as a Python integer. *)
Definition len {A : Type} (l : list A) : Z := Z.of_nat (length l).

(** [c and a or b] on integers [a], [b]: the value of the expression. *)
Definition and_or (c : bool) (a b : Z) : Z :=
  if c then (if a =? 0 then b else a) else b.

(** [str.isspace] on one code point (the characters [str.strip] removes). *)
Definition isspace (c : N) : bool :=
  (((9 <=? c) && (c <=? 13)) || ((28 <=? c) && (c <=? 32))
   || (c =? 133) || (c =? 160) || (c =? 5760)
   || ((8192 <=? c) && (c <=? 8202)) || (c =? 8232) || (c =? 8233)
   || (c =? 8239) || (c =? 8287) || (c =? 12288))%N.

Fixpoint lstrip (s : str) : str :=
  match s with
  | [] => []
  | c :: rest => if isspace c then lstrip rest else s
  end.

Definition rstrip (s : str) : str := rev (lstrip (rev s)).

(** [s.strip()] *)
Definition strip (s : str) : str := rstrip (lstrip s).

End py.

Module np.

(** [np.zeros(n)]: [ValueError] on a negative dimension. *)
Definition zeros (n : Z) : res (list Q) :=
  if n <? 0 then Raise ValueError else Ok (repeat 0%Q (Z.to_nat n)).

(** [np.clip(x, lo, hi)] on one element. *)
Definition clip (lo hi x : Q) : Q :=
  if Qle_bool x lo then lo else if Qle_bool hi x then hi else x.

(** [astype(np.int16)] on one element: truncation, then the 16-bit wrap. *)
Definition astype_int16 (x : Q) : Z :=
  (py.int x + 32768) mod 65536 - 32768.

Definition byte_of_Z (z : Z) : byte :=
  match Byte.of_N (Z.to_N (z mod 256)) with
  | Some b => b
  | None => x00
  end.

(** [tobytes()] of an int16 array: two bytes per element, low byte first. *)
Fixpoint tobytes (l : list Z) : list byte :=
  match l with
  | [] => []
  | z :: rest =>
      byte_of_Z (z mod 65536) :: byte_of_Z ((z mod 65536) / 256) :: tobytes rest
  end.

(** One little-endian int16 from its two bytes. *)
Definition int16_of_bytes (lo hi : byte) : Z :=
  let u := Z.of_N (Byte.to_N lo) + 256 * Z.of_N (Byte.to_N hi) in
  if u <? 32768 then u else u - 65536.

Fixpoint int16_pairs (b : list byte) : list Z :=
  match b with
  | lo :: hi :: rest => int16_of_bytes lo hi :: int16_pairs rest
  | _ => []
  end.

(** [np.frombuffer(b, dtype=np.int16)]: [ValueError] when the buffer size is
    not a multiple of the element size. *)
Definition frombuffer_int16 (b : list byte) : res (list Z) :=
  if Z.odd (py.len b) then Raise ValueError else Ok (int16_pairs b).

End np.

(** Python floats as IEEE binary64, through the kernel's primitive floats. *)
Module float64.

(** [float(z)] for an integer below 2^63 in magnitude (exact below 2^53). *)
Definition of_int (z : Z) : PrimFloat.float :=
  if z <? 0 then PrimFloat.opp (PrimFloat.of_uint63 (Uint63.of_Z (- z)))
  else PrimFloat.of_uint63 (Uint63.of_Z z).

(** [a / b] on two integers below 2^53 in magnitude, [b] not zero. *)
Definition truediv (a b : Z) : PrimFloat.float :=
  PrimFloat.div (of_int a) (of_int b).

(** [int(x)] on a finite float: truncation toward zero. *)
Definition to_int (x : PrimFloat.float) : Z :=
  match FloatOps.Prim2SF x with
  | SpecFloat.S754_finite sign m e =>
      let magnitude :=
        if 0 <=? e then Z.pos m * 2 ^ e else Z.pos m / 2 ^ (- e) in
      if sign then - magnitude else magnitude
  | _ => 0
  end.

End float64.

(** ** The external engines *)

Module sherpa_onnx.

(** What [OfflineTts.generate] returns. *)
Record GeneratedAudio : Type := mkAudio {
  sample_rate : Z;
  samples : list Q
}.

(** An [OfflineTts] engine, seen through [generate(text, sid, speed,
    callback)]: the engine hands [chunks text sid speed] to the callback
    one after the other, as (samples, progress) pairs, and stops early when
    the callback returns 0; [result text sid speed k] is what [generate]
    returns after [k] calls of the callback ([None]: a null result). *)
Record OfflineTts : Type := mkTts {
  chunks : py.str -> Z -> Q -> list (list Q * Q);
  result : py.str -> Z -> Q -> nat -> option GeneratedAudio
}.

(** A [SpeakerEmbeddingExtractor], seen through [create_stream],
    [accept_waveform], [is_ready] and [compute]: both answers depend on the
    waveform the fresh stream accepted and on its sample rate. *)
Record SpeakerEmbeddingExtractor : Type := mkExtractor {
  is_ready : Z -> list Q -> bool;
  compute : Z -> list Q -> list Q
}.

(** A [SpeakerEmbeddingManager], seen through [search(embedding,
    threshold)]: the name of the best match, or the empty string. *)
Record SpeakerEmbeddingManager : Type := mkManager {
  search : list Q -> Q -> string
}.

End sherpa_onnx.

(** ** voiceapi/tts.py *)

Module tts.
Import sherpa_onnx.

(** [splitter = re.compile(r'[,，。.!?！？;；、\n]')]: the code points of the
    character class, in the order of the source. *)
Definition splitter_chars : list N :=
  [44; 65292; 12290; 46; 33; 63; 65281; 65311; 59; 65307; 12289; 10]%N.

Definition splitter (c : N) : bool := existsb (N.eqb c) splitter_chars.

(** [re.split(splitter, text)]: the pieces between the matches, empty ones
    included. *)
Fixpoint re_split (text : py.str) : list py.str :=
  match text with
  | [] => [[]]
  | c :: rest =>
      if splitter c then [] :: re_split rest
      else match re_split rest with
           | piece :: more => (c :: piece) :: more
           | [] => [[c]]
           end
  end.

(** [tts_configs]: the ['sample_rate'] entry of each model. *)
Definition tts_configs : gmap string Z :=
  <["vits-zh-hf-theresa" := 22050]>
    (<["vits-melo-tts-zh_en" := 44100]>
       (<["kokoro-multi-lang-v1_0" := 24000]> ∅)).

Record TTSResult : Type := mkResult {
  pcm_bytes : option (list byte);
  finished : bool;
  progress : Q;
  elapsed : Q;
  audio_duration : Q;
  audio_size : Z
}.

(** [TTSResult.__init__] *)
Definition TTSResult_init (pcm : option (list byte)) (fin : bool) : TTSResult :=
  {| pcm_bytes := pcm; finished := fin; progress := 0; elapsed := 0;
     audio_duration := 0; audio_size := 0 |}.

Definition set_elapsed (v : Q) (r : TTSResult) : TTSResult :=
  {| pcm_bytes := pcm_bytes r; finished := finished r; progress := progress r;
     elapsed := v; audio_duration := audio_duration r;
     audio_size := audio_size r |}.

Definition set_audio_duration (v : Q) (r : TTSResult) : TTSResult :=
  {| pcm_bytes := pcm_bytes r; finished := finished r; progress := progress r;
     elapsed := elapsed r; audio_duration := v; audio_size := audio_size r |}.

Definition set_progress (v : Q) (r : TTSResult) : TTSResult :=
  {| pcm_bytes := pcm_bytes r; finished := finished r; progress := v;
     elapsed := elapsed r; audio_duration := audio_duration r;
     audio_size := audio_size r |}.

Definition set_finished (v : bool) (r : TTSResult) : TTSResult :=
  {| pcm_bytes := pcm_bytes r; finished := v; progress := progress r;
     elapsed := elapsed r; audio_duration := audio_duration r;
     audio_size := audio_size r |}.

Record TTSStream : Type := mkStream {
  engine : OfflineTts;
  sid : Z;
  speed : Q;
  outbuf : list (option TTSResult);
  is_closed : bool;
  target_sample_rate : Z;
  original_sample_rate : Z
}.

(** [TTSStream.__init__] with an integer [sid]. *)
Definition TTSStream_init (e : OfflineTts) (sid0 : Z) (speed0 : Q)
    (sample_rate0 original_sample_rate0 : Z) : TTSStream :=
  {| engine := e; sid := sid0; speed := speed0; outbuf := [];
     is_closed := false; target_sample_rate := sample_rate0;
     original_sample_rate := original_sample_rate0 |}.

(** [self.outbuf.put_nowait(x)] *)
Definition put_nowait (x : option TTSResult) (s : TTSStream) : TTSStream :=
  {| engine := engine s; sid := sid s; speed := speed s;
     outbuf := outbuf s ++ [x]; is_closed := is_closed s;
     target_sample_rate := target_sample_rate s;
     original_sample_rate := original_sample_rate s |}.

(** [self.is_closed = v] *)
Definition set_is_closed (v : bool) (s : TTSStream) : TTSStream :=
  {| engine := engine s; sid := sid s; speed := speed s;
     outbuf := outbuf s; is_closed := v;
     target_sample_rate := target_sample_rate s;
     original_sample_rate := original_sample_rate s |}.

(** [TTSStream.close] *)
Definition close (s : TTSStream) : TTSStream :=
  put_nowait None (set_is_closed true s).

(** [TTSStream.read]: the oldest item of the queue and the stream without
    it; [None] when the queue is empty and the reader stays suspended. *)
Definition read (s : TTSStream) : option (option TTSResult * TTSStream) :=
  match outbuf s with
  | [] => None
  | x :: rest =>
      Some (x, {| engine := engine s; sid := sid s; speed := speed s;
                  outbuf := rest; is_closed := is_closed s;
                  target_sample_rate := target_sample_rate s;
                  original_sample_rate := original_sample_rate s |})
  end.

(** A reader that calls [read] up to [n] times, or until the queue is
    empty: the items it receives. *)
Fixpoint drain (n : nat) (s : TTSStream) : list (option TTSResult) :=
  match n with
  | O => []
  | S n' =>
      match read s with
      | None => []
      | Some (x, s') => x :: drain n' s'
      end
  end.

(** The locals [audio_duration] and [audio_size] of [write].  [history] is a
    ghost record of the loop: one entry for each iteration that reaches the
    two accumulations, with the engine's sample rate, the number of samples
    the engine synthesized and, when the pause was appended, the number of
    silent samples. *)
Record Segment : Type := mkSegment {
  seg_rate : Z;
  seg_speech : Z;
  seg_gap : option Z
}.

Record Locals : Type := mkLocals {
  l_audio_duration : Q;
  l_audio_size : Z;
  history : list Segment
}.

(** The default of [pause] in [write]: 0.2 seconds. *)
Definition default_pause : Q := 2 # 10.

Section stream.

(** [scipy.signal.resample(x, num)], an external function. *)
Variable resample : list Q -> Z -> res (list Q).

(** Lines 223-227 of [on_process]: the chunk at the target rate. *)
Definition resample_chunk (s : TTSStream) (chunk : list Q) : res (list Q) :=
  if negb (target_sample_rate s =? original_sample_rate s) then
    q ← py.truediv (py.len chunk * target_sample_rate s) (original_sample_rate s);
    let num_samples := py.int q in
    resample chunk num_samples
  else Ok chunk.

(** Lines 229-232 of [on_process]: scale, clip, convert, serialise. *)
Definition to_pcm16 (chunk : list Q) : list byte :=
  let scaled_chunk := map (fun x => x * 32768)%Q chunk in
  let clipped_chunk := map (np.clip (-32768) 32767) scaled_chunk in
  let int16_chunk := map np.astype_int16 clipped_chunk in
  np.tobytes int16_chunk.

(** [TTSStream.on_process]: the stream afterwards and the returned integer. *)
Definition on_process (s : TTSStream) (chunk : list Q) (progress0 : Q)
    : res (TTSStream * Z) :=
  if is_closed s then Ok (s, 0)
  else
    chunk' ← resample_chunk s chunk;
    let samples0 := to_pcm16 chunk' in
    let s' := put_nowait (Some (TTSResult_init (Some samples0) false)) s in
    Ok (s', py.and_or (is_closed s') 0 1).

(** Several [put_nowait] in a row. *)
Definition put_all (new : list (option TTSResult)) (s : TTSStream) : TTSStream :=
  {| engine := engine s; sid := sid s; speed := speed s;
     outbuf := outbuf s ++ new; is_closed := is_closed s;
     target_sample_rate := target_sample_rate s;
     original_sample_rate := original_sample_rate s |}.

(** The queue items [on_process] makes of the chunks [cs] while the stream
    stays open: one non-final result per chunk. *)
Fixpoint chunk_results (s : TTSStream) (cs : list (list Q * Q))
    : res (list (option TTSResult)) :=
  match cs with
  | [] => Ok []
  | (chunk, _) :: rest =>
      chunk' ← resample_chunk s chunk;
      rs ← chunk_results s rest;
      Ok (Some (TTSResult_init (Some (to_pcm16 chunk')) false) :: rs)
  end.

(** [engine.generate(text, sid, speed, self.on_process)] running on a worker
    thread while the event loop is free to run other coroutines: [ev k]
    tells whether the event loop runs [close()] on this stream just before
    the callback number [k] (for [k] past the last chunk: before [generate]
    returns); a call of the callback itself is not interrupted.  The result
    is the stream and the number of callbacks made. *)
Fixpoint callbacks (ev : nat -> bool) (s : TTSStream)
    (todo : list (list Q * Q)) (k : nat) : res (TTSStream * nat) :=
  let s0 := if ev k then close s else s in
  match todo with
  | [] => Ok (s0, k)
  | (chunk, prog) :: rest =>
      '(s1, go_on) ← on_process s0 chunk prog;
      if go_on =? 0 then Ok (s1, S k) else callbacks ev s1 rest (S k)
  end.

(** [await asyncio.to_thread(self.engine.generate, text, sid_int, self.speed,
    self.on_process)] *)
Definition to_thread_generate (ev : nat -> bool) (s : TTSStream)
    (text : py.str) : res (TTSStream * option GeneratedAudio) :=
  let sid_int := sid s in
  '(s1, k) ← callbacks ev s (chunks (engine s) text sid_int (speed s)) 0;
  Ok (s1, result (engine s) text sid_int (speed s) k).

(** The body of the [for] loop of [write], for one [(idx, text)]. *)
Definition write_segment (ev : nat -> nat -> bool) (split : bool) (pause : Q)
    (ntexts : Z) (st : TTSStream * Locals) (it : nat * py.str)
    : res (TTSStream * Locals) :=
  let '(s, acc) := st in
  let '(idx, text0) := it in
  let text := py.strip text0 in
  match text with
  | [] => Ok st
  | _ :: _ =>
      '(s1, audio) ← to_thread_generate (ev idx) s text;
      match audio with
      | None => Ok (s1, acc)
      | Some audio =>
          if (sample_rate audio =? 0) || (py.len (samples audio) =? 0)
          then Ok (s1, acc)
          else
            '(s2, samples', gap) ←
              (if split && (Z.of_nat idx <? ntexts - 1) then
                 noise ← np.zeros
                   (py.int (inject_Z (sample_rate audio) * pause)%Q);
                 '(s2, _) ← on_process s1 noise 1;
                 Ok (s2, samples audio ++ noise, Some (py.len noise))
               else Ok (s1, samples audio, None));
            d ← py.truediv (py.len samples') (sample_rate audio);
            Ok (s2,
                {| l_audio_duration := (l_audio_duration acc + d)%Q;
                   l_audio_size := l_audio_size acc + py.len samples';
                   history := history acc ++
                     [mkSegment (sample_rate audio)
                                (py.len (samples audio)) gap] |})
      end
  end.

Fixpoint write_loop (ev : nat -> nat -> bool) (split : bool) (pause : Q)
    (ntexts : Z) (its : list (nat * py.str)) (st : TTSStream * Locals)
    : res (TTSStream * Locals) :=
  match its with
  | [] => Ok st
  | it :: rest =>
      st' ← write_segment ev split pause ntexts st it;
      write_loop ev split pause ntexts rest st'
  end.

(** [enumerate(texts)] *)
Definition enumerate {A : Type} (l : list A) : list (nat * A) :=
  combine (seq 0 (length l)) l.

(** [texts] of [write] *)
Definition split_text (text : py.str) (split : bool) : list py.str :=
  if split then re_split text else [text].

(** The loop of [write] from fresh locals. *)
Definition write_segments (ev : nat -> nat -> bool) (s : TTSStream)
    (text : py.str) (split : bool) (pause : Q) : res (TTSStream * Locals) :=
  let texts := split_text text split in
  write_loop ev split pause (py.len texts) (enumerate texts)
    (s, {| l_audio_duration := 0; l_audio_size := 0; history := [] |}).

(** Lines 281-285 of [write]: the terminal result. *)
Definition final_result (elapsed_seconds : Q) (acc : Locals) : TTSResult :=
  let r := TTSResult_init None true in
  let r := set_elapsed elapsed_seconds r in
  let r := set_audio_duration (l_audio_duration acc) r in
  let r := set_progress 1 r in
  set_finished true r.

(** [TTSStream.write]; [t_start] and [t_end] are the two readings of
    [time.time()] that give [elapsed_seconds]. *)
Definition write (ev : nat -> nat -> bool) (t_start t_end : Q)
    (s : TTSStream) (text : py.str) (split : bool) (pause : Q)
    : res TTSStream :=
  '(s', acc) ← write_segments ev s text split pause;
  let elapsed_seconds := (t_end - t_start)%Q in
  Ok (put_nowait (Some (final_result elapsed_seconds acc)) s').

(** [TTSStream.generate], up to the audio handed to [soundfile.write]; the
    engine runs without a callback and a null result has no [samples]
    attribute. *)
Definition generate (s : TTSStream) (text : py.str) : res GeneratedAudio :=
  let n := length (chunks (engine s) text (sid s) (speed s)) in
  match result (engine s) text (sid s) (speed s) n with
  | None => Raise AttributeError
  | Some audio =>
      audio_duration0 ← py.truediv (py.len (samples audio)) (sample_rate audio);
      if negb (target_sample_rate s =? sample_rate audio) then
        q ← py.truediv (py.len (samples audio) * target_sample_rate s)
                       (sample_rate audio);
        resampled ← resample (samples audio) (py.int q);
        Ok {| sample_rate := target_sample_rate s; samples := resampled |}
      else Ok audio
  end.

End stream.

(** The module global [_tts_engines] and, as a ghost record, the models
    whose construction ([load_tts_model] followed by [sherpa_onnx.OfflineTts])
    has been invoked so far, oldest first.  An engine object is identified by
    the position of the invocation that built it. *)
Record Globals : Type := mkGlobals {
  _tts_engines : gmap string nat;
  constructions : list string
}.

Definition no_engines : Globals :=
  {| _tts_engines := ∅; constructions := [] |}.

Section cache.

(** The outcome of the construction of model [name] when it is invocation
    number [n] of the process: it returns, or it raises (missing files, an
    invalid configuration). *)
Variable construct : string -> nat -> res unit.

(** [get_tts_engine(args)], as a function of [args.tts_model]: the globals
    afterwards and the returned pair of engine and sample rate.  The function
    has no suspension point: on the event loop it runs from entry to exit
    without another coroutine in between. *)
Definition get_tts_engine (g : Globals) (tts_model : string)
    : Globals * res (nat * Z) :=
  match tts_configs !! tts_model with
  | None => (g, Raise KeyError)
  | Some sample_rate0 =>
      match _tts_engines g !! tts_model with
      | Some cache_engine => (g, Ok (cache_engine, sample_rate0))
      | None =>
          let n := length (constructions g) in
          let log := constructions g ++ [tts_model] in
          match construct tts_model n with
          | Raise e => ({| _tts_engines := _tts_engines g;
                           constructions := log |}, Raise e)
          | Ok _ =>
              let cache_engine := n in
              ({| _tts_engines := <[tts_model := cache_engine]> (_tts_engines g);
                  constructions := log |},
               Ok (cache_engine, sample_rate0))
          end
      end
  end.

(** Calls of [get_tts_engine] in the order in which the event loop runs
    them. *)
Fixpoint serve (g : Globals) (requests : list string)
    : Globals * list (res (nat * Z)) :=
  match requests with
  | [] => (g, [])
  | r :: rest =>
      let '(g1, out) := get_tts_engine g r in
      let '(g2, outs) := serve g1 rest in
      (g2, out :: outs)
  end.

End cache.

(** No coroutine runs [close()] while the worker thread synthesizes. *)
Definition quiet : nat -> nat -> bool := fun _ _ => false.

(** [TTSStream.__init__] for a [sid] of either type: an integer is kept, a
    string goes through [int(sid)], here the function [int_of_str], and a
    string that [int] refuses gives the default 0. *)
Definition TTSStream_new (int_of_str : py.str -> option Z) (e : OfflineTts)
    (sid0 : Z + py.str) (speed0 : Q) (sample_rate0 original_sample_rate0 : Z)
    : TTSStream :=
  let sid1 := match sid0 with
              | inl z => z
              | inr t => match int_of_str t with Some z => z | None => 0 end
              end in
  TTSStream_init e sid1 speed0 sample_rate0 original_sample_rate0.

Section start.

Variable construct : string -> nat -> res unit.

(** The engine object behind a cache entry. *)
Variable engine_at : nat -> OfflineTts.

(** Python's [int] on a string. *)
Variable int_of_str : py.str -> option Z.

(** [start_tts_stream(sid, sample_rate, speed, args)], as a function of
    [args.tts_model]. *)
Definition start_tts_stream (g : Globals) (sid0 : Z + py.str)
    (sample_rate0 : Z) (speed0 : Q) (tts_model : string)
    : Globals * res TTSStream :=
  match get_tts_engine construct g tts_model with
  | (g1, Raise e) => (g1, Raise e)
  | (g1, Ok (engine0, original_sample_rate0)) =>
      (g1, Ok (TTSStream_new int_of_str (engine_at engine0) sid0 speed0
                 sample_rate0 original_sample_rate0))
  end.

End start.

End tts.

(** ** voiceapi/speaker_id.py *)

Module speaker_id.
Import sherpa_onnx.

Record SpeakerResult : Type := mkResult {
  speaker_id : string;
  confidence : Q;
  embeddings : option (list Q)
}.

(** Where the coroutine [run] stands: not started, suspended in
    [self.inbuf.get()], returned, or ended by an exception. *)
Inductive task : Type :=
| Idle
| Waiting
| Returned
| Failed (e : exn).

Record SpeakerStream : Type := mkStream {
  extractor : SpeakerEmbeddingExtractor;
  manager : SpeakerEmbeddingManager;
  sample_rate : Z;
  inbuf : list (list Q);
  outbuf : list (option SpeakerResult);
  is_closed : bool;
  audio_buffer : list Q;
  min_duration : Q;
  identification_threshold : Q;
  run_task : task
}.

(** [SpeakerStream.__init__] *)
Definition SpeakerStream_init (ex : SpeakerEmbeddingExtractor)
    (mg : SpeakerEmbeddingManager) (sample_rate0 : Z)
    (identification_threshold0 : Q) : SpeakerStream :=
  {| extractor := ex; manager := mg; sample_rate := sample_rate0;
     inbuf := []; outbuf := []; is_closed := false; audio_buffer := [];
     min_duration := 3; identification_threshold := identification_threshold0;
     run_task := Idle |}.

Definition set_inbuf (v : list (list Q)) (s : SpeakerStream) : SpeakerStream :=
  {| extractor := extractor s; manager := manager s;
     sample_rate := sample_rate s; inbuf := v; outbuf := outbuf s;
     is_closed := is_closed s; audio_buffer := audio_buffer s;
     min_duration := min_duration s;
     identification_threshold := identification_threshold s;
     run_task := run_task s |}.

Definition set_audio_buffer (v : list Q) (s : SpeakerStream) : SpeakerStream :=
  {| extractor := extractor s; manager := manager s;
     sample_rate := sample_rate s; inbuf := inbuf s; outbuf := outbuf s;
     is_closed := is_closed s; audio_buffer := v;
     min_duration := min_duration s;
     identification_threshold := identification_threshold s;
     run_task := run_task s |}.

Definition set_is_closed (v : bool) (s : SpeakerStream) : SpeakerStream :=
  {| extractor := extractor s; manager := manager s;
     sample_rate := sample_rate s; inbuf := inbuf s; outbuf := outbuf s;
     is_closed := v; audio_buffer := audio_buffer s;
     min_duration := min_duration s;
     identification_threshold := identification_threshold s;
     run_task := run_task s |}.

Definition set_run_task (v : task) (s : SpeakerStream) : SpeakerStream :=
  {| extractor := extractor s; manager := manager s;
     sample_rate := sample_rate s; inbuf := inbuf s; outbuf := outbuf s;
     is_closed := is_closed s; audio_buffer := audio_buffer s;
     min_duration := min_duration s;
     identification_threshold := identification_threshold s;
     run_task := v |}.

(** [self.outbuf.put_nowait(x)] *)
Definition put_nowait (x : option SpeakerResult) (s : SpeakerStream)
    : SpeakerStream :=
  {| extractor := extractor s; manager := manager s;
     sample_rate := sample_rate s; inbuf := inbuf s;
     outbuf := outbuf s ++ [x];
     is_closed := is_closed s; audio_buffer := audio_buffer s;
     min_duration := min_duration s;
     identification_threshold := identification_threshold s;
     run_task := run_task s |}.

(** The test [while not self.is_closed] followed by [await
    self.inbuf.get()]: the coroutine leaves the loop or suspends. *)
Definition loop_test (s : SpeakerStream) : SpeakerStream :=
  set_run_task (if is_closed s then Returned else Waiting) s.

(** [SpeakerStream.start]: the task is created and runs to its first
    suspension. *)
Definition start (s : SpeakerStream) : SpeakerStream := loop_test s.

(** Lines 63-88 of [run]: the identification on the buffered audio. *)
Definition identify (s : SpeakerStream) : SpeakerStream :=
  let audio_array := audio_buffer s in
  if is_ready (extractor s) (sample_rate s) audio_array then
    let embeddings0 := compute (extractor s) (sample_rate s) audio_array in
    let embeddings_list := embeddings0 in
    let result := search (manager s) embeddings0 (identification_threshold s) in
    let s1 :=
      if negb (String.eqb result "") then
        let speaker_name := result in
        let confidence0 := (identification_threshold s + (5 # 100))%Q in
        put_nowait (Some (mkResult speaker_name confidence0
                                   (Some embeddings_list))) s
      else
        put_nowait (Some (mkResult "unknown" 0 (Some embeddings_list))) s in
    set_audio_buffer [] s1
  else s.

(** One turn of the loop of [run]: the suspended coroutine receives the
    oldest chunk of [inbuf], runs the body and comes back to the loop test.
    Nothing happens while the queue is empty or the coroutine is not
    suspended in [get]. *)
Definition run_iteration (s : SpeakerStream) : SpeakerStream :=
  match run_task s, inbuf s with
  | Waiting, samples0 :: rest =>
      let s1 := set_audio_buffer (audio_buffer s ++ samples0) (set_inbuf rest s) in
      match py.truediv (py.len (audio_buffer s1)) (sample_rate s1) with
      | Raise e => set_run_task (Failed e) s1
      | Ok duration =>
          let s2 := if Qle_bool (min_duration s1) duration
                    then identify s1 else s1 in
          loop_test s2
      end
  | _, _ => s
  end.

Fixpoint run_turns (n : nat) (s : SpeakerStream) : SpeakerStream :=
  match n with
  | O => s
  | S n' => run_turns n' (run_iteration s)
  end.

(** [SpeakerStream.run] from the current suspension until the coroutine
    suspends on an empty queue or ends: every turn takes one chunk, so as
    many turns as there are queued chunks suffice. *)
Definition run (s : SpeakerStream) : SpeakerStream :=
  run_turns (length (inbuf s)) s.

(** [SpeakerStream.close] *)
Definition close (s : SpeakerStream) : SpeakerStream :=
  put_nowait None (set_is_closed true s).

(** [SpeakerStream.write]: the stream afterwards and how the call ended. *)
Definition write (s : SpeakerStream) (pcm_bytes : list byte)
    : SpeakerStream * res unit :=
  match np.frombuffer_int16 pcm_bytes with
  | Raise e => (s, Raise e)
  | Ok pcm_data =>
      let samples0 := map (fun z => inject_Z z / 32768)%Q pcm_data in
      (set_inbuf (inbuf s ++ [samples0]) s, Ok tt)
  end.

(** [SpeakerStream.read] *)
Definition read (s : SpeakerStream)
    : option (option SpeakerResult * SpeakerStream) :=
  match outbuf s with
  | [] => None
  | x :: rest =>
      Some (x, {| extractor := extractor s; manager := manager s;
                  sample_rate := sample_rate s; inbuf := inbuf s;
                  outbuf := rest; is_closed := is_closed s;
                  audio_buffer := audio_buffer s;
                  min_duration := min_duration s;
                  identification_threshold := identification_threshold s;
                  run_task := run_task s |})
  end.

(** A reader that calls [read] up to [n] times, or until the queue is
    empty: the items it receives. *)
Fixpoint drain (n : nat) (s : SpeakerStream) : list (option SpeakerResult) :=
  match n with
  | O => []
  | S n' =>
      match read s with
      | None => []
      | Some (x, s') => x :: drain n' s'
      end
  end.

(** The module global [_speaker_engines] and, as a ghost record, the models
    whose [create_...] function has been invoked so far.  A cached
    [(extractor, manager)] tuple is identified by the position of the
    invocation that built it. *)
Record Globals : Type := mkGlobals {
  _speaker_engines : gmap string nat;
  creations : list string
}.

Definition no_engines : Globals :=
  {| _speaker_engines := ∅; creations := [] |}.

Section cache.

(** The outcome of [create_wespeaker_voxceleb], [create_3dspeaker] or
    [create_nemo_speakernet] when it is invocation number [n] of the
    process. *)
Variable create : string -> nat -> res unit.

(** [load_speaker_engine(samplerate, args)], as a function of
    [args.speaker_model]; like [get_tts_engine] it has no suspension point. *)
Definition load_speaker_engine (g : Globals) (model_name : string)
    : Globals * res nat :=
  let cache_key := model_name in
  match _speaker_engines g !! cache_key with
  | Some cache_engine => (g, Ok cache_engine)
  | None =>
      if String.eqb model_name "wespeaker-voxceleb"
         || String.eqb model_name "3dspeaker"
         || String.eqb model_name "nemo-speakernet"
      then
        let n := length (creations g) in
        let log := creations g ++ [model_name] in
        match create model_name n with
        | Raise e => ({| _speaker_engines := _speaker_engines g;
                         creations := log |}, Raise e)
        | Ok _ =>
            let cache_engine := n in
            ({| _speaker_engines := <[cache_key := cache_engine]> (_speaker_engines g);
                creations := log |}, Ok cache_engine)
        end
      else (g, Raise ValueError)
  end.

Fixpoint serve (g : Globals) (requests : list string)
    : Globals * list (res nat) :=
  match requests with
  | [] => (g, [])
  | r :: rest =>
      let '(g1, out) := load_speaker_engine g r in
      let '(g2, outs) := serve g1 rest in
      (g2, out :: outs)
  end.

End cache.

Section start.

Variable create : string -> nat -> res unit.

(** The [(extractor, manager)] tuple behind a cache entry. *)
Variable engine_at : nat -> SpeakerEmbeddingExtractor * SpeakerEmbeddingManager.

(** [start_speaker_stream(samplerate, args)], as a function of
    [args.speaker_model] and [args.speaker_threshold]. *)
Definition start_speaker_stream (g : Globals) (samplerate : Z)
    (speaker_model : string) (speaker_threshold : Q)
    : Globals * res SpeakerStream :=
  match load_speaker_engine create g speaker_model with
  | (g1, Raise e) => (g1, Raise e)
  | (g1, Ok h) =>
      let '(extractor0, manager0) := engine_at h in
      let threshold := speaker_threshold in
      let model_name := speaker_model in
      let threshold :=
        if String.eqb model_name "nemo-speakernet"
           && Qeq_bool threshold (7 # 10)
        then 6 # 10 else threshold in
      (g1, Ok (start (SpeakerStream_init extractor0 manager0 samplerate
                        threshold)))
  end.

End start.

(** A JSON file of registered speakers as [json.load] sees it: a dictionary
    from names to embeddings, or content on which loading or updating
    fails. *)
Inductive file : Type :=
| Json (d : gmap string (list Q))
| Unreadable.

(** What [register_speaker] touches beside the fields of the identification
    loop: the dictionary [self.registered_speakers], the calls of
    [self.manager.add] made so far (the manager is opaque) and the files
    under [models_root]. *)
Record Enrollment : Type := mkEnrollment {
  registered_speakers : gmap string (list Q);
  added : list (string * list Q);
  files : gmap string file
}.

Definition ends_with_slash (a : string) : bool :=
  match String.get (String.length a - 1) a with
  | Some c => String.eqb (String c "") "/"
  | None => false
  end.

(** [os.path.join(a, b)] on POSIX. *)
Definition path_join (a b : string) : string :=
  if String.prefix "/" b then b
  else if String.eqb a "" || ends_with_slash a then String.append a b
  else String.append a (String.append "/" b).

(** [SpeakerStream.register_speaker]: the state afterwards and the returned
    boolean.  Writing the file is taken to succeed. *)
Definition register_speaker (s : SpeakerStream) (models_root : string)
    (en : Enrollment) (name : string) (audio_samples : list Q)
    : Enrollment * bool :=
  if is_ready (extractor s) (sample_rate s) audio_samples then
    let embeddings0 := compute (extractor s) (sample_rate s) audio_samples in
    let embeddings_list := embeddings0 in
    let speaker_file :=
      if py.len embeddings0 =? 256
      then path_join models_root "registered_speakers_nemo.json"
      else path_join models_root "registered_speakers.json" in
    let files1 :=
      match files en !! speaker_file with
      | None =>
          <[speaker_file := Json (<[name := embeddings_list]> ∅)]> (files en)
      | Some (Json existing_speakers) =>
          <[speaker_file := Json (<[name := embeddings_list]> existing_speakers)]>
            (files en)
      | Some Unreadable => files en
      end in
    ({| registered_speakers :=
          <[name := embeddings_list]> (registered_speakers en);
        added := added en ++ [(name, embeddings0)];
        files := files1 |}, true)
  else (en, false).

End speaker_id.

(** ** Test doubles for the external engines, used by the concrete runs *)

Module stub.
Import sherpa_onnx.

(** A resampler that repeats or drops samples (nearest neighbour on the
    left); like scipy's it returns [num] samples and refuses an empty input
    or a non-positive [num]. *)
Definition nearest (x : list Q) (num : Z) : res (list Q) :=
  if (py.len x =? 0) || (num <=? 0) then Raise ValueError
  else Ok (map (fun i => nth (Z.to_nat (Z.of_nat i * py.len x / num)) x 0%Q)
               (seq 0 (Z.to_nat num))).

(** A TTS engine at 24000 Hz: every text is synthesized as the same three
    samples, handed to the callback in two chunks; the returned audio holds
    the chunks handed over so far. *)
Definition toy_chunks : list (list Q * Q) :=
  [([1 # 2; -1 # 2]%Q, 1 # 2); ([1 # 4]%Q, 1%Q)].

Definition toy_tts : OfflineTts :=
  {| chunks := fun _ _ _ => toy_chunks;
     result := fun _ _ _ k =>
       Some (mkAudio 24000 (concat (map fst (firstn k toy_chunks)))) |}.

(** An extractor whose stream is never ready. *)
Definition never_ready : SpeakerEmbeddingExtractor :=
  {| is_ready := fun _ _ => false; compute := fun _ _ => [] |}.

(** An extractor that is always ready; the embedding is the first two
    samples. *)
Definition toy_extractor : SpeakerEmbeddingExtractor :=
  {| is_ready := fun _ _ => true; compute := fun _ w => firstn 2 w |}.

(** A registry with one speaker, matched by embeddings whose first
    component exceeds the threshold. *)
Definition toy_manager : SpeakerEmbeddingManager :=
  {| search := fun e threshold =>
       match e with
       | x :: _ => if Qle_bool threshold x then "alice" else ""
       | [] => ""
       end |}.

(** A factory that always succeeds, and one whose first invocation fails. *)
Definition always_builds : string -> nat -> res unit := fun _ _ => Ok tt.


Definition kokoro : string := "kokoro-multi-lang-v1_0".

Definition nemo : string := "nemo-speakernet".

(** The event loop runs [close()] once, just before callback number [k] of
    segment number [idx]. *)
Definition close_at (idx k : nat) : nat -> nat -> bool :=
  fun i j => Nat.eqb i idx && Nat.eqb j k.

(** A stream on [toy_tts] whose client asked for the engine's own rate, and
    one whose client asked for 16000 Hz. *)
Definition native_stream : tts.TTSStream :=
  tts.TTSStream_init toy_tts 0 1 24000 24000.

Definition stream_16k : tts.TTSStream :=
  tts.TTSStream_init toy_tts 0 1 16000 24000.

(** Speaker streams at 16000 Hz with the default threshold, their [run]
    coroutine started. *)
Definition deaf_stream : speaker_id.SpeakerStream :=
  speaker_id.start
    (speaker_id.SpeakerStream_init never_ready toy_manager 16000 (7 # 10)).

Definition speaker_stream : speaker_id.SpeakerStream :=
  speaker_id.start
    (speaker_id.SpeakerStream_init toy_extractor toy_manager 16000 (7 # 10)).

(** A speaker stream for audio sampled at 4 Hz. *)
Definition speaker_stream_4hz : speaker_id.SpeakerStream :=
  speaker_id.start
    (speaker_id.SpeakerStream_init toy_extractor toy_manager 4 (7 # 10)).

(** Silence: [n] zero bytes. *)
Definition silence (n : nat) : list byte := repeat x00 n.

Definition hello : py.str := py.of_string "Hello".

(** What [toy_tts] returns for any text, the queue items of its two chunks
    on a stream at the native rate, and the queue item of the 0.2 s gap. *)
Definition toy_audio : GeneratedAudio :=
  mkAudio 24000 [1 # 2; -1 # 2; 1 # 4]%Q.

Definition toy_speech : list (option tts.TTSResult) :=
  [Some (tts.TTSResult_init (Some (tts.to_pcm16 [1 # 2; -1 # 2]%Q)) false);
   Some (tts.TTSResult_init (Some (tts.to_pcm16 [1 # 4]%Q)) false)].

Definition toy_gap : option tts.TTSResult :=
  Some (tts.TTSResult_init
          (Some (tts.to_pcm16 (repeat 0%Q (Z.to_nat 4800)))) false).

Definition hello_world : py.str := py.of_string "Hello. World.".

End stub.

(** ** app.py: the pumps of the WebSocket handlers *)

Module app.

(** [range(0, stop, step)] *)
Definition range (stop step : Z) : res (list Z) :=
  if step =? 0 then Raise ValueError
  else
    let count :=
      if 0 <? step then (if 0 <? stop then (stop - 1) / step + 1 else 0)
      else (if stop <? 0 then (- stop - 1) / (- step) + 1 else 0) in
    Ok (map (fun i => Z.of_nat i * step) (seq 0 (Z.to_nat count))).

(** [b[i:j]] *)
Definition slice {A : Type} (b : list A) (i j : Z) : list A :=
  let n := py.len b in
  let norm x := if x <? 0 then Z.max 0 (x + n) else Z.min x n in
  firstn (Z.to_nat (norm j - norm i)) (skipn (Z.to_nat (norm i)) b).

(** Lines 1008-1009: the binary frames sent for one non-final result. *)
Definition send_pcm (pcm_bytes : list byte) (chunk_size : Z)
    : res (list (list byte)) :=
  starts ← range (py.len pcm_bytes) chunk_size;
  Ok (map (fun i => slice pcm_bytes i (i + chunk_size)) starts).

(** What a pump sends to the client. *)
Inductive message : Type :=
| send_json (r : tts.TTSResult)
| send_bytes (b : list byte).

(** How a pump stands: suspended in an [await], returned, or ended by an
    exception ([len(None)] raises [TypeError]). *)
Inductive ending : Type :=
| Suspended
| Returned
| Raised (e : exn)
| RaisedTypeError.

(** [task_send_pcm] of [websocket_tts], [n] turns of its loop while the
    variable [tts_stream] refers to the stream [s]: the messages sent, the
    stream afterwards and how the pump stands. *)
Fixpoint send_turns (n : nat) (chunk_size : Z) (s : tts.TTSStream)
    : list message * tts.TTSStream * ending :=
  match n with
  | O => ([], s, Suspended)
  | S n' =>
      match tts.read s with
      | None => ([], s, Suspended)
      | Some (None, s1) => ([], s1, Returned)
      | Some (Some result, s1) =>
          if tts.finished result then
            let '(sent, s2, e) := send_turns n' chunk_size s1 in
            (send_json result :: sent, s2, e)
          else
            match tts.pcm_bytes result with
            | None => ([], s1, RaisedTypeError)
            | Some pcm_bytes =>
                match send_pcm pcm_bytes chunk_size with
                | Raise e => ([], s1, Raised e)
                | Ok frames =>
                    let '(sent, s2, e) := send_turns n' chunk_size s1 in
                    (map send_bytes frames ++ sent, s2, e)
                end
            end
      end
  end.

(** The pump until it suspends on an empty queue or ends: every turn takes
    one item. *)
Definition task_send_pcm (chunk_size : Z) (s : tts.TTSStream)
    : list message * tts.TTSStream * ending :=
  send_turns (length (tts.outbuf s)) chunk_size s.

(** [task_recv_pcm] of [websocket_speaker_id] on the binary frames the
    client sends, in order; while the pump is suspended in [receive_bytes]
    the coroutine [run] of the stream gets its turn. *)
Fixpoint task_recv_pcm (s : speaker_id.SpeakerStream)
    (frames : list (list byte)) : speaker_id.SpeakerStream * ending :=
  match frames with
  | [] => (s, Suspended)
  | pcm_bytes :: rest =>
      match pcm_bytes with
      | [] => (s, Returned)
      | _ :: _ =>
          match speaker_id.write s pcm_bytes with
          | (s1, Raise e) => (s1, Raised e)
          | (s1, Ok _) => task_recv_pcm (speaker_id.run s1) rest
          end
      end
  end.

(** Lines 862-867 of [websocket_speaker_id], as far as the receive pump
    decides them.  [gather] re-raises an exception of the pump; it is not a
    [WebSocketDisconnect], so only the [finally] clause runs: the stream is
    closed and the exception leaves the handler.  While the pump is
    suspended, or after it has returned, the handler waits for the send
    pump and the stream stays as it is. *)
Definition websocket_speaker_id (s : speaker_id.SpeakerStream)
    (frames : list (list byte)) : speaker_id.SpeakerStream * ending :=
  match task_recv_pcm s frames with
  | (s1, Raised e) => (speaker_id.close s1, Raised e)
  | (s1, RaisedTypeError) => (speaker_id.close s1, RaisedTypeError)
  | (s1, Suspended) => (s1, Suspended)
  | (s1, Returned) => (s1, Returned)
  end.

(** The state of [websocket_tts] that [task_recv_text] works on: the module
    globals, the variable [tts_stream] and, as a ghost record, the streams
    the variable referred to before, oldest first. *)
Record Session : Type := mkSession {
  globals : tts.Globals;
  tts_stream : option tts.TTSStream;
  replaced : list tts.TTSStream
}.

Section websocket_tts.

Variable resample : list Q -> Z -> res (list Q).
Variable construct : string -> nat -> res unit.
Variable engine_at : nat -> sherpa_onnx.OfflineTts.
Variable int_of_str : py.str -> option Z.

(** The query parameters of the connection and [args.tts_model]. *)
Variable interrupt : bool.
Variable sid : Z + py.str.
Variable samplerate : Z.
Variable speed : Q.
Variable split : bool.
Variable tts_model : string.

(** The readings of [time.time()] at the start and at the end of the
    [write] for text number [k]. *)
Variable times : nat -> Q * Q.

(** Lines 980-990: the stream the next [write] goes to. *)
Definition next_stream (st : Session) : Session * res tts.TTSStream :=
  match tts_stream st with
  | Some current =>
      if interrupt then
        let closed := tts.close current in
        match tts.start_tts_stream construct engine_at int_of_str
                (globals st) sid samplerate speed tts_model with
        | (g1, Raise e) =>
            ({| globals := g1; tts_stream := Some closed;
                replaced := replaced st |}, Raise e)
        | (g1, Ok fresh) =>
            ({| globals := g1; tts_stream := Some fresh;
                replaced := replaced st ++ [closed] |}, Ok fresh)
        end
      else (st, Ok current)
  | None =>
      match tts.start_tts_stream construct engine_at int_of_str
              (globals st) sid samplerate speed tts_model with
      | (g1, Raise e) =>
          ({| globals := g1; tts_stream := None; replaced := replaced st |},
           Raise e)
      | (g1, Ok fresh) =>
          ({| globals := g1; tts_stream := Some fresh;
              replaced := replaced st |}, Ok fresh)
      end
  end.

(** [task_recv_text] of [websocket_tts] on the text frames the client sends,
    the first one being number [k]; no other coroutine closes the stream
    while a [write] is awaited.  When a [write] raises, the session is given
    as it stood before that call. *)
Fixpoint task_recv_text (k : nat) (st : Session) (texts : list py.str)
    : Session * ending :=
  match texts with
  | [] => (st, Suspended)
  | text :: rest =>
      match text with
      | [] => (st, Returned)
      | _ :: _ =>
          match next_stream st with
          | (st1, Raise e) => (st1, Raised e)
          | (st1, Ok stream) =>
              let '(t_start, t_end) := times k in
              match tts.write resample tts.quiet t_start t_end stream text
                      split tts.default_pause with
              | Raise e => (st1, Raised e)
              | Ok stream' =>
                  task_recv_text (S k)
                    {| globals := globals st1; tts_stream := Some stream';
                       replaced := replaced st1 |} rest
              end
          end
      end
  end.

End websocket_tts.

(** *** Registration: [websocket_speaker_register] and
    [update_known_speakers_json] *)

(** The time stamp of an entry of known_speakers.json. *)
Inductive stamp : Type :=
| created_at (t : string)
| updated_at (t : string).

(** An entry of the list ["speakers"] of known_speakers.json, as far as
    [update_known_speakers_json] reads and writes it: the value of ["name"],
    if the entry has one, the embedding, its dimension and the time
    stamp. *)
Record KnownSpeaker : Type := mkKnownSpeaker {
  name : option string;
  embeddings : list Q;
  embedding_dim : Z;
  stamped : option stamp
}.

(** known_speakers.json as [update_known_speakers_json] finds it: missing, a
    JSON object with its list ["speakers"] (or without that key), or content
    on which loading or the loop over the entries fails. *)
Inductive known_speakers : Type :=
| Missing
| Object (speakers : option (list KnownSpeaker))
| Unusable.

(** [speaker.get("name") == name] *)
Definition named (name0 : string) (speaker : KnownSpeaker) : bool :=
  match name speaker with
  | Some n => String.eqb n name0
  | None => false
  end.

(** Lines 221-231: the first entry with the name is replaced by [entry];
    [None] when the loop ends with [speaker_exists] still false. *)
Fixpoint update_existing (name0 : string) (entry : KnownSpeaker)
    (speakers : list KnownSpeaker) : option (list KnownSpeaker) :=
  match speakers with
  | [] => None
  | speaker :: rest =>
      if named name0 speaker then Some (entry :: rest)
      else match update_existing name0 entry rest with
           | Some rest' => Some (speaker :: rest')
           | None => None
           end
  end.

(** [update_known_speakers_json(name, embeddings)]: the file afterwards;
    [now] is the reading of [time.strftime].  Writing the file is taken to
    succeed; every exception before it is caught and leaves the file as it
    was. *)
Definition update_known_speakers_json (now : string) (file : known_speakers)
    (name0 : string) (embeddings0 : list Q) : known_speakers :=
  match file with
  | Unusable => Unusable
  | Missing =>
      Object (Some [mkKnownSpeaker (Some name0) embeddings0
                      (py.len embeddings0) (Some (created_at now))])
  | Object None => Object None
  | Object (Some speakers) =>
      match update_existing name0
              (mkKnownSpeaker (Some name0) embeddings0 (py.len embeddings0)
                 (Some (updated_at now))) speakers with
      | Some speakers' => Object (Some speakers')
      | None =>
          Object (Some (speakers
                        ++ [mkKnownSpeaker (Some name0) embeddings0
                              (py.len embeddings0) (Some (created_at now))]))
      end
  end.


(** [int((duration / min_duration) * 100)] for [duration = n / samplerate]
    and [min_duration = 5.0], on doubles. *)
Definition percent (n samplerate : Z) : Z :=
  let duration := float64.truediv n samplerate in
  let min_duration := float64.of_int 5 in
  float64.to_int
    (PrimFloat.mul (PrimFloat.div duration min_duration) (float64.of_int 100)).


Section websocket_speaker_register.

(** [args.models_root], the query parameters [name] and [samplerate], and
    the reading of [time.strftime]. *)
Variable models_root : string.
Variable name0 : string.
Variable samplerate : Z.
Variable now : string.


End websocket_speaker_register.

End app.

(** ** Definitions taken from the specification's words *)

Module spec.

(** Python's [round] on a float: to the nearest integer, halves to the even
    neighbour. *)
Definition round (q : Q) : Z :=
  let f := Qfloor q in
  match (2 * (q - inject_Z f) ?= 1)%Q with
  | Lt => f
  | Gt => f + 1
  | Eq => if Z.even f then f else f + 1
  end.

(** The specification's output length of [resample(samples, from_rate,
    to_rate)]: [round(len(samples) * to_rate / from_rate)]. *)
Definition resample_length {A : Type} (x : list A) (from_rate to_rate : Z) : Z :=
  round (inject_Z (py.len x * to_rate) / inject_Z from_rate)%Q.

End spec.

(** What the code relies on from [scipy.signal.resample]: on a non-empty
    input and a positive [num] it returns [num] samples. *)
Definition resample_contract (resample : list Q -> Z -> res (list Q)) : Prop :=
  forall (x : list Q) (num : Z),
    x <> [] -> 0 < num ->
    exists y, resample x num = Ok y /\ py.len y = num.

(** The verdicts [identify] can put on the queue of stream [s]: for some
    waveform [w] with embedding [e], the name found in the registry with
    confidence threshold + 0.05, or "unknown" with confidence 0 when the
    search returns the empty string; the embedding is attached in both
    cases. *)
Definition verdict_of (s : speaker_id.SpeakerStream)
    (x : option speaker_id.SpeakerResult) : Prop :=
  exists w : list Q,
    let e := sherpa_onnx.compute (speaker_id.extractor s)
               (speaker_id.sample_rate s) w in
    let name := sherpa_onnx.search (speaker_id.manager s) e
                  (speaker_id.identification_threshold s) in
    (name <> "" /\
     x = Some (speaker_id.mkResult name
                 (speaker_id.identification_threshold s + (5 # 100))%Q (Some e)))
    \/
    (name = "" /\ x = Some (speaker_id.mkResult "unknown" 0 (Some e))).

(** The verdict for the waveform [w] on stream [s]: with [e] the embedding
    the extractor computes from [w], the name the registry search returns
    for [e] with confidence threshold + 0.05, or "unknown" with confidence
    0 when the search returns the empty string; [e] is attached in both
    cases. *)
Definition identified (s : speaker_id.SpeakerStream) (w : list Q)
    (x : option speaker_id.SpeakerResult) : Prop :=
  let e := sherpa_onnx.compute (speaker_id.extractor s)
             (speaker_id.sample_rate s) w in
  let name := sherpa_onnx.search (speaker_id.manager s) e
                (speaker_id.identification_threshold s) in
  (name <> "" /\
   x = Some (speaker_id.mkResult name
               (speaker_id.identification_threshold s + (5 # 100))%Q (Some e)))
  \/
  (name = "" /\ x = Some (speaker_id.mkResult "unknown" 0 (Some e))).

(** A verdict for a waveform on which the extractor reported ready. *)
Definition verdict_on (s : speaker_id.SpeakerStream)
    (x : option speaker_id.SpeakerResult) : Prop :=
  exists w : list Q,
    sherpa_onnx.is_ready (speaker_id.extractor s) (speaker_id.sample_rate s) w
      = true /\
    identified s w x.

(** The engine objects, the sample rate and the threshold of a stream never
    change while [run] works. *)
Definition same_engine (s s' : speaker_id.SpeakerStream) : Prop :=
  speaker_id.extractor s' = speaker_id.extractor s /\
  speaker_id.manager s' = speaker_id.manager s /\
  speaker_id.sample_rate s' = speaker_id.sample_rate s /\
  speaker_id.identification_threshold s' = speaker_id.identification_threshold s.


(** A non-final result as [on_process] builds it, or the sentinel. *)
Definition chunk_or_sentinel (x : option tts.TTSResult) : Prop :=
  x = None \/ exists b, x = Some (tts.TTSResult_init (Some b) false).

(** How a TTS stream changes while [write] synthesizes: the configuration
    stays, the queue grows by non-final results and sentinels, a closed
    stream stays closed and receives sentinels only, and a stream found
    closed afterwards was closed before or received a sentinel. *)
Definition evolves (s s' : tts.TTSStream) : Prop :=
  tts.engine s' = tts.engine s /\ tts.sid s' = tts.sid s /\
  tts.speed s' = tts.speed s /\
  tts.target_sample_rate s' = tts.target_sample_rate s /\
  tts.original_sample_rate s' = tts.original_sample_rate s /\
  exists new,
    tts.outbuf s' = tts.outbuf s ++ new /\
    Forall chunk_or_sentinel new /\
    (tts.is_closed s = true ->
     tts.is_closed s' = true /\ Forall (eq None) new) /\
    (tts.is_closed s' = true -> tts.is_closed s = true \/ In None new).

(** Sums over the history of a [write]: samples and seconds. *)
Definition seg_gap_len (h : tts.Segment) : Z :=
  match tts.seg_gap h with Some g => g | None => 0 end.

Fixpoint total_size (f : tts.Segment -> Z) (hs : list tts.Segment) : Z :=
  match hs with
  | [] => 0
  | h :: rest => f h + total_size f rest
  end.

Fixpoint total_duration (f : tts.Segment -> Z) (hs : list tts.Segment) : Q :=
  match hs with
  | [] => 0
  | h :: rest =>
      (inject_Z (f h) / inject_Z (tts.seg_rate h) + total_duration f rest)%Q
  end.

(** An entry of the history as the loop of [write] makes it for the given
    [split] and [pause]: the rate is not zero, samples were synthesized, and
    a gap, when there is one, was asked for by [split] and has
    [int(sample_rate * pause)] samples. *)
Definition segment_of (split : bool) (pause : Q) (h : tts.Segment) : Prop :=
  tts.seg_rate h <> 0 /\ 0 < tts.seg_speech h /\
  forall g, tts.seg_gap h = Some g ->
    split = true /\ 0 <= g /\
    g = py.int (inject_Z (tts.seg_rate h) * pause)%Q.

(** The invariant of the loop of [write] on its locals: the two totals are
    the sums over the history, gaps included. *)
Definition locals_inv (split : bool) (pause : Q) (acc : tts.Locals) : Prop :=
  tts.l_audio_size acc
    = total_size tts.seg_speech (tts.history acc)
      + total_size seg_gap_len (tts.history acc) /\
  (tts.l_audio_duration acc
    == total_duration tts.seg_speech (tts.history acc)
       + total_duration seg_gap_len (tts.history acc))%Q /\
  Forall (segment_of split pause) (tts.history acc).



(** ** Vocabulary of the properties of the handlers and of the codecs *)

(** The 16-bit sample [on_process] stores for the float sample [x]:
    [x * 32768] clipped to the int16 range, then truncated. *)
Definition pcm16_sample (x : Q) : Z :=
  py.int (np.clip (-32768) 32767 (x * 32768)).

(** [pcm_data.astype(np.float32) / 32768.0] in [SpeakerStream.write], for a
    buffer of even length. *)
Definition decoded (b : list byte) : list Q :=
  map (fun z => inject_Z z / 32768)%Q (np.int16_pairs b).

(** [self.inbuf.put_nowait(samples)] *)
Definition queued (samples0 : list Q) (s : speaker_id.SpeakerStream)
    : speaker_id.SpeakerStream :=
  speaker_id.set_inbuf (speaker_id.inbuf s ++ [samples0]) s.

(** What [task_send_pcm] sends for one result: the JSON summary of a final
    result, or the payload of a non-final one cut into binary frames of at
    most [chunk_size] bytes, none of them empty. *)
Definition sent_for (chunk_size : Z) (r : tts.TTSResult)
    (group : list app.message) : Prop :=
  if tts.finished r then group = [app.send_json r]
  else exists pcm frames,
         tts.pcm_bytes r = Some pcm /\
         group = map app.send_bytes frames /\
         concat frames = pcm /\
         Forall (fun f => 0 < py.len f <= chunk_size) frames.

(** The model names [load_speaker_engine] has a branch for. *)
Definition known_speaker_model (m : string) : Prop :=
  m = "wespeaker-voxceleb" \/ m = "3dspeaker" \/ m = "nemo-speakernet".

(** Every cache entry is an invocation of the factory that was made for that
    model and returned an engine, and the factory was only invoked for
    models the module knows. *)
Definition tts_cache_sound (construct : string -> nat -> res unit)
    (g : tts.Globals) : Prop :=
  (forall (m : string) (h : nat),
     tts._tts_engines g !! m = Some h ->
     tts.constructions g !! h = Some m /\ construct m h = Ok tt) /\
  Forall (fun m => is_Some (tts.tts_configs !! m)) (tts.constructions g).

Definition speaker_cache_sound (create : string -> nat -> res unit)
    (g : speaker_id.Globals) : Prop :=
  (forall (m : string) (h : nat),
     speaker_id._speaker_engines g !! m = Some h ->
     speaker_id.creations g !! h = Some m /\ create m h = Ok tt) /\
  Forall known_speaker_model (speaker_id.creations g).

(** A non-final result as [on_process] builds it. *)
Definition is_chunk (r : tts.TTSResult) : Prop :=
  exists b, r = tts.TTSResult_init (Some b) false.

(** A stream that stays as open or closed as it was and whose queue grows by
    non-final results only. *)
Definition grows_quietly (s s' : tts.TTSStream) : Prop :=
  tts.is_closed s' = tts.is_closed s /\
  exists new, tts.outbuf s' = tts.outbuf s ++ map Some new /\
              Forall is_chunk new.

(** The queue a complete [write] leaves on a fresh stream: the non-final
    results of the utterance, then its terminal result. *)
Definition utterance (q : list (option tts.TTSResult)) : Prop :=
  exists chunks r,
    q = map Some (chunks ++ [r]) /\ Forall is_chunk chunks /\
    tts.finished r = true.

(** A stream after its one [write]: still open, or closed afterwards, the
    sentinel standing behind the utterance. *)
Definition open_after_write (t : tts.TTSStream) : Prop :=
  tts.is_closed t = false /\ utterance (tts.outbuf t).

Definition closed_after_write (t : tts.TTSStream) : Prop :=
  tts.is_closed t = true /\
  exists q, tts.outbuf t = q ++ [None] /\ utterance q.

(** The session of [websocket_tts] between two text frames when [interrupt]
    is set: every replaced stream was closed after its [write] had
    completed, and the current one, if any, is open and holds one complete
    utterance. *)
Definition session_ok (st : app.Session) : Prop :=
  Forall closed_after_write (app.replaced st) /\
  match app.tts_stream st with
  | None => True
  | Some t => open_after_write t
  end.

(** The number of terminal results on a queue. *)
Definition finals (q : list (option tts.TTSResult)) : nat :=
  length (List.filter (fun x => match x with
                                | Some r => tts.finished r
                                | None => false
                                end) q).

(** The entry [update_known_speakers_json] would find for a name. *)
Definition find_speaker (name0 : string) (speakers : list app.KnownSpeaker)
    : option app.KnownSpeaker :=
  List.find (app.named name0) speakers.


(** Inputs of the concrete runs of the handlers. *)
Module fixture.

(** The engine objects behind every cache entry, and an [int] that refuses
    every string. *)
Definition tts_engine_at : nat -> sherpa_onnx.OfflineTts :=
  fun _ => stub.toy_tts.

Definition speaker_engine_at
    : nat -> sherpa_onnx.SpeakerEmbeddingExtractor
             * sherpa_onnx.SpeakerEmbeddingManager :=
  fun _ => (stub.toy_extractor, stub.toy_manager).

Definition no_int : py.str -> option Z := fun _ => None.

(** Every [write] starts at time 0 and ends at time 1. *)
Definition one_second : nat -> Q * Q := fun _ => (0%Q, 1%Q).

(** A speaker stream whose client gave the sample rate 0. *)
Definition speaker_stream_0hz : speaker_id.SpeakerStream :=
  speaker_id.start
    (speaker_id.SpeakerStream_init stub.toy_extractor stub.toy_manager 0
       (7 # 10)).

(** A closed TTS stream whose queue holds one non-final result of three
    bytes, then the sentinel. *)
Definition three_bytes : tts.TTSResult :=
  tts.TTSResult_init (Some [x01; x02; x03]) false.

Definition closed_stream : tts.TTSStream :=
  tts.close (tts.put_nowait (Some three_bytes) stub.native_stream).

(** The stream after [write(text, split=False)] on [s], from time 0 to
    time 1, when that write returns. *)
Definition spoken (s : tts.TTSStream) (text : py.str) : tts.TTSStream :=
  match tts.write stub.nearest tts.quiet 0 1 s text false tts.default_pause with
  | Ok s' => s'
  | Raise _ => s
  end.

(** [n] samples of value 0.75. *)
Definition loud (n : nat) : list byte := concat (repeat [x00; x60] n).

(** A text of blanks and one delimiter. *)
Definition blank : py.str := py.of_string " . ".

(** The session of a connection that has received no text yet. *)
Definition new_session : app.Session := app.mkSession tts.no_engines None [].


End fixture.

(** * Properties *)

(** Reduction of the error monad's bind on a known outcome. *)
Ltac res_simpl := cbn [mbind mret res_bind res_ret rbind].

(** ** Arithmetic of the primitives *)

Lemma int_truediv (a b : Z) :
  b <> 0 -> py.int (inject_Z a / inject_Z b)%Q = Z.quot a b.
Proof.
  intros Hb. unfold py.int, Qdiv, Qmult, Qinv, inject_Z. simpl.
  destruct b as [|p|p]; [congruence| |]; simpl.
  - now rewrite Z.mul_1_r.
  - change (Z.neg p) with (- Z.pos p).
    rewrite Z.quot_opp_r by discriminate.
    rewrite <- Z.quot_opp_l by discriminate.
    f_equal. lia.
Qed.

Lemma truediv_ok (a b : Z) :
  b <> 0 -> py.truediv a b = Ok (inject_Z a / inject_Z b)%Q.
Proof.
  intros Hb. unfold py.truediv.
  destruct (b =? 0) eqn:E; [apply Z.eqb_eq in E; congruence | reflexivity].
Qed.

Lemma and_or_0_1 (c : bool) : py.and_or c 0 1 = 1.
Proof. now destruct c. Qed.

Lemma len_app {A : Type} (l1 l2 : list A) :
  py.len (l1 ++ l2) = py.len l1 + py.len l2.
Proof. unfold py.len. rewrite length_app. lia. Qed.

Lemma len_nonneg {A : Type} (l : list A) : 0 <= py.len l.
Proof. unfold py.len. lia. Qed.

Lemma len_zero_nil {A : Type} (l : list A) : py.len l = 0 -> l = [].
Proof. destruct l; [reflexivity | unfold py.len; simpl; lia]. Qed.

Lemma zeros_ok (n : Z) :
  0 <= n -> np.zeros n = Ok (repeat 0%Q (Z.to_nat n)).
Proof.
  intros Hn. unfold np.zeros.
  destruct (n <? 0) eqn:E; [apply Z.ltb_lt in E; lia | reflexivity].
Qed.

Lemma len_repeat {A : Type} (x : A) (n : Z) :
  0 <= n -> py.len (repeat x (Z.to_nat n)) = n.
Proof. intros Hn. unfold py.len. rewrite repeat_length. lia. Qed.

Lemma nearest_contract : resample_contract stub.nearest.
Proof.
  intros x num Hx Hnum. unfold stub.nearest.
  destruct (py.len x =? 0) eqn:E.
  - apply Z.eqb_eq, len_zero_nil in E. contradiction.
  - destruct (num <=? 0) eqn:E2; [apply Z.leb_le in E2; lia|]. simpl.
    eexists. split; [reflexivity|].
    unfold py.len. rewrite length_map, length_seq. lia.
Qed.

(** ** C2: the length of the resampled audio *)

Section resampling.

Variable resample : list Q -> Z -> res (list Q).
Hypothesis resample_num : resample_contract resample.

Lemma resample_chunk_same_rate (s : tts.TTSStream) (x : list Q) :
  tts.target_sample_rate s = tts.original_sample_rate s ->
  tts.resample_chunk resample s x = Ok x.
Proof.
  intros E. unfold tts.resample_chunk. rewrite E, Z.eqb_refl. reflexivity.
Qed.

Lemma resample_chunk_length (s : tts.TTSStream) (x : list Q) :
  let num := Z.quot (py.len x * tts.target_sample_rate s)
                    (tts.original_sample_rate s) in
  tts.target_sample_rate s <> tts.original_sample_rate s ->
  tts.original_sample_rate s <> 0 ->
  x <> [] -> 0 < num ->
  exists y, tts.resample_chunk resample s x = Ok y /\ py.len y = num.
Proof.
  intros num Hne H0 Hx Hnum. unfold tts.resample_chunk.
  apply Z.eqb_neq in Hne. rewrite Hne. cbn [negb].
  rewrite truediv_ok by assumption. res_simpl.
  rewrite int_truediv by assumption.
  apply resample_num; assumption.
Qed.

End resampling.

Section resampling_both_paths.

Variable resample : list Q -> Z -> res (list Q).
Hypothesis resample_num : resample_contract resample.

(** C2 (as amended): the resampling step of [on_process] and of [generate]
    returns [int(len(x) * r2 / r1)] samples, the quotient truncated and not
    rounded, where [r1] is the rate of the input and [r2] the target rate;
    when the two rates are equal the samples are passed on untouched. *)
Theorem resample_length_truncates (s : tts.TTSStream) (x : list Q)
    (text : py.str) (a : sherpa_onnx.GeneratedAudio) :
  let r2 := tts.target_sample_rate s in
  let r1 := tts.original_sample_rate s in
  let ra := sherpa_onnx.sample_rate a in
  let xa := sherpa_onnx.samples a in
  let returned :=
    sherpa_onnx.result (tts.engine s) text (tts.sid s) (tts.speed s)
      (length (sherpa_onnx.chunks (tts.engine s) text (tts.sid s) (tts.speed s))) in
  (r2 = r1 -> tts.resample_chunk resample s x = Ok x) /\
  (r2 <> r1 -> r1 <> 0 -> x <> [] -> 0 < Z.quot (py.len x * r2) r1 ->
   exists y, tts.resample_chunk resample s x = Ok y /\
             py.len y = Z.quot (py.len x * r2) r1) /\
  (returned = Some a -> ra <> 0 -> r2 = ra ->
   tts.generate resample s text = Ok a) /\
  (returned = Some a -> ra <> 0 -> r2 <> ra -> xa <> [] ->
   0 < Z.quot (py.len xa * r2) ra ->
   exists y, tts.generate resample s text = Ok (sherpa_onnx.mkAudio r2 y) /\
             py.len y = Z.quot (py.len xa * r2) ra).
Proof.
  intros r2 r1 ra xa returned. repeat split.
  - apply resample_chunk_same_rate.
  - intros. now apply resample_chunk_length.
  - intros Hret Hra E. unfold tts.generate. fold returned. rewrite Hret.
    rewrite !truediv_ok by assumption. res_simpl.
    fold r2 ra. rewrite E, Z.eqb_refl. reflexivity.
  - intros Hret Hra Hne Hxa Hnum. unfold tts.generate. fold returned.
    rewrite Hret. rewrite !truediv_ok by assumption. res_simpl.
    fold r2 ra xa. apply Z.eqb_neq in Hne. rewrite Hne. cbn [negb].
    rewrite int_truediv by assumption.
    destruct (resample_num xa (Z.quot (py.len xa * r2) ra) Hxa Hnum)
      as (y & Hy & Hlen).
    exists y. rewrite Hy. res_simpl. split; [reflexivity | assumption].
Qed.

End resampling_both_paths.

(** The theorem at work on the toy engine: 24000 Hz audio for a 16000 Hz
    client, and for a client at the native rate. *)
Lemma resample_length_truncates_witness :
  (exists y, tts.resample_chunk stub.nearest stub.stream_16k [0; 0; 0; 0]%Q = Ok y
             /\ py.len y = 2) /\
  (exists y, tts.generate stub.nearest stub.stream_16k stub.hello
             = Ok (sherpa_onnx.mkAudio 16000 y) /\ py.len y = 2) /\
  tts.resample_chunk stub.nearest stub.native_stream [0; 0; 0; 0]%Q
    = Ok [0; 0; 0; 0]%Q.
Proof.
  destruct (resample_length_truncates stub.nearest nearest_contract
              stub.stream_16k [0; 0; 0; 0]%Q stub.hello
              (sherpa_onnx.mkAudio 24000 [1 # 2; -1 # 2; 1 # 4]%Q))
    as (_ & Hchunk & _ & Hgen).
  destruct (resample_length_truncates stub.nearest nearest_contract
              stub.native_stream [0; 0; 0; 0]%Q stub.hello
              (sherpa_onnx.mkAudio 24000 [1 # 2; -1 # 2; 1 # 4]%Q))
    as (Hsame & _).
  split; [|split].
  - apply Hchunk; simpl; try discriminate; vm_compute; reflexivity.
  - apply Hgen; simpl; try discriminate; vm_compute; reflexivity.
  - apply Hsame. reflexivity.
Defined.

(** C2 as it is stated fails: four samples at 24000 Hz become two samples at
    16000 Hz, while [round(4 * 16000 / 24000)] is 3. *)
Lemma resample_length_not_rounded :
  tts.resample_chunk stub.nearest stub.stream_16k [0; 0; 0; 0]%Q = Ok [0; 0]%Q
  /\ py.len [0; 0]%Q <> spec.resample_length [0; 0; 0; 0]%Q 24000 16000.
Proof. split; [reflexivity | vm_compute; discriminate]. Qed.

(** ** C3: an odd-length buffer written to a speaker stream *)

Lemma frombuffer_odd (b : list byte) :
  Z.odd (py.len b) = true -> np.frombuffer_int16 b = Raise ValueError.
Proof. intros H. unfold np.frombuffer_int16. now rewrite H. Qed.

Lemma frombuffer_even (b : list byte) :
  Z.odd (py.len b) = false -> np.frombuffer_int16 b = Ok (np.int16_pairs b).
Proof. intros H. unfold np.frombuffer_int16. now rewrite H. Qed.

(** C3 (as amended): for every odd-length buffer the decoding in
    [SpeakerStream.write] fails with numpy's [ValueError] (the code has no
    invalid-frame error of its own) before anything is queued, and no field
    of the stream changes.  [write] does not catch the exception and
    neither does its caller: the receive pump of [websocket_speaker_id]
    ends with it without reading another frame, and the handler closes the
    stream on its way out.  The stream object itself is left intact: a
    well-formed buffer written to it afterwards is queued for [run] as if
    the bad one had never been written. *)
Theorem write_odd_buffer_raises (s : speaker_id.SpeakerStream)
    (b : list byte) :
  Z.odd (py.len b) = true ->
  speaker_id.write s b = (s, Raise ValueError) /\
  (forall rest : list (list byte),
     app.task_recv_pcm s (b :: rest) = (s, app.Raised ValueError) /\
     app.websocket_speaker_id s (b :: rest)
       = (speaker_id.close s, app.Raised ValueError)) /\
  forall b' : list byte,
    Z.odd (py.len b') = false ->
    let s' := fst (speaker_id.write (fst (speaker_id.write s b)) b') in
    snd (speaker_id.write (fst (speaker_id.write s b)) b') = Ok tt /\
    speaker_id.inbuf s' =
      speaker_id.inbuf s ++
        [map (fun z => inject_Z z / 32768)%Q (np.int16_pairs b')] /\
    speaker_id.is_closed s' = speaker_id.is_closed s /\
    speaker_id.run_task s' = speaker_id.run_task s /\
    speaker_id.outbuf s' = speaker_id.outbuf s.
Proof.
  intros Hodd.
  assert (E : speaker_id.write s b = (s, Raise ValueError)).
  { unfold speaker_id.write. now rewrite frombuffer_odd. }
  split; [exact E|]. split.
  - intros rest.
    assert (Epump : app.task_recv_pcm s (b :: rest)
                    = (s, app.Raised ValueError)).
    { cbn [app.task_recv_pcm]. rewrite E.
      destruct b; [discriminate Hodd | reflexivity]. }
    split; [exact Epump|]. unfold app.websocket_speaker_id. now rewrite Epump.
  - intros b' Heven. rewrite E. cbn [fst].
    unfold speaker_id.write. rewrite frombuffer_even by assumption.
    cbn. repeat split.
Qed.

Lemma write_odd_buffer_raises_witness :
  speaker_id.write stub.speaker_stream [x01; x02; x03]
    = (stub.speaker_stream, Raise ValueError) /\
  app.task_recv_pcm stub.speaker_stream [[x01; x02; x03]; [x00; x40]]
    = (stub.speaker_stream, app.Raised ValueError) /\
  speaker_id.inbuf
    (fst (speaker_id.write
            (fst (speaker_id.write stub.speaker_stream [x01; x02; x03]))
            [x00; x40]))
    = [[inject_Z 16384 / 32768]%Q].
Proof.
  destruct (write_odd_buffer_raises stub.speaker_stream [x01; x02; x03])
    as (Hraise & Hpump & Hnext); [reflexivity|].
  split; [exact Hraise|]. split; [apply (Hpump [[x00; x40]])|].
  destruct (Hnext [x00; x40]) as (_ & Hin & _); [reflexivity|].
  exact Hin.
Defined.

(** C3 as it is stated fails: a frame of three bytes followed by a
    well-formed frame reaches a fresh stream through the handler.  The
    first frame ends the receive pump with [ValueError], the well-formed
    frame is never read, and the handler leaves with the stream closed,
    the end-of-stream sentinel on its output queue. *)
Lemma odd_frame_closes_stream :
  let '(s', e) :=
    app.websocket_speaker_id stub.speaker_stream
      [[x01; x02; x03]; [x00; x40]] in
  e = app.Raised ValueError /\
  speaker_id.is_closed s' = true /\
  speaker_id.inbuf s' = [] /\
  speaker_id.outbuf s' = [None].
Proof. vm_compute. repeat split. Qed.

(** ** C4 and C5: the identification loop of [SpeakerStream.run] *)

Lemma duration_reached (n r : Z) :
  0 < r -> Qle_bool 3 (inject_Z n / inject_Z r) = (3 * r <=? n).
Proof.
  intros Hr. destruct r as [|p|p]; try lia.
  unfold Qle_bool, Qdiv, Qmult, Qinv, inject_Z. simpl.
  rewrite Z.mul_1_r.
  destruct (3 * Z.pos p <=? n) eqn:E.
  - apply Z.leb_le. apply Z.leb_le in E. lia.
  - apply Z.leb_gt. apply Z.leb_gt in E. lia.
Qed.

Lemma identify_ready (s : speaker_id.SpeakerStream) :
  sherpa_onnx.is_ready (speaker_id.extractor s) (speaker_id.sample_rate s)
    (speaker_id.audio_buffer s) = true ->
  exists v, speaker_id.outbuf (speaker_id.identify s)
            = speaker_id.outbuf s ++ [Some v] /\
            verdict_of s (Some v) /\
            speaker_id.audio_buffer (speaker_id.identify s) = [].
Proof.
  intros Hready. unfold speaker_id.identify. rewrite Hready.
  destruct (String.eqb
              (sherpa_onnx.search (speaker_id.manager s)
                 (sherpa_onnx.compute (speaker_id.extractor s)
                    (speaker_id.sample_rate s) (speaker_id.audio_buffer s))
                 (speaker_id.identification_threshold s)) "") eqn:E;
    cbn [negb]; eexists; (split; [reflexivity|]); (split; [|reflexivity]);
    exists (speaker_id.audio_buffer s); cbn zeta.
  - right. apply String.eqb_eq in E. split; [exact E | reflexivity].
  - left. apply String.eqb_neq in E. split; [exact E | reflexivity].
Qed.

Lemma identify_not_ready (s : speaker_id.SpeakerStream) :
  sherpa_onnx.is_ready (speaker_id.extractor s) (speaker_id.sample_rate s)
    (speaker_id.audio_buffer s) = false ->
  speaker_id.identify s = s.
Proof. intros H. unfold speaker_id.identify. now rewrite H. Qed.

Lemma identify_keeps (s : speaker_id.SpeakerStream) :
  speaker_id.inbuf (speaker_id.identify s) = speaker_id.inbuf s /\
  speaker_id.min_duration (speaker_id.identify s) = speaker_id.min_duration s /\
  speaker_id.sample_rate (speaker_id.identify s) = speaker_id.sample_rate s /\
  speaker_id.is_closed (speaker_id.identify s) = speaker_id.is_closed s.
Proof.
  unfold speaker_id.identify.
  destruct (sherpa_onnx.is_ready _ _ _); [|repeat split].
  destruct (negb _); repeat split.
Qed.

Lemma run_iteration_waiting (s : speaker_id.SpeakerStream)
    (samples0 : list Q) (rest : list (list Q)) :
  speaker_id.run_task s = speaker_id.Waiting ->
  speaker_id.inbuf s = samples0 :: rest ->
  0 < speaker_id.sample_rate s ->
  speaker_id.min_duration s = 3%Q ->
  let s1 := speaker_id.set_audio_buffer (speaker_id.audio_buffer s ++ samples0)
              (speaker_id.set_inbuf rest s) in
  speaker_id.run_iteration s =
    speaker_id.loop_test
      (if 3 * speaker_id.sample_rate s
            <=? py.len (speaker_id.audio_buffer s ++ samples0)
       then speaker_id.identify s1 else s1).
Proof.
  intros Htask Hin Hrate Hmin s1. unfold speaker_id.run_iteration.
  rewrite Htask, Hin. fold s1.
  change (speaker_id.sample_rate s1) with (speaker_id.sample_rate s).
  change (speaker_id.audio_buffer s1)
    with (speaker_id.audio_buffer s ++ samples0).
  change (speaker_id.min_duration s1) with (speaker_id.min_duration s).
  rewrite truediv_ok by lia. rewrite Hmin.
  rewrite duration_reached by assumption. reflexivity.
Qed.

(** C4 (as amended): one turn of [run] on an open stream.  While the
    buffered audio, the new chunk included, is shorter than 3.0 seconds no
    verdict is queued and the audio stays buffered.  Once it reaches 3.0
    seconds and the extractor reports the stream ready, exactly one verdict
    is queued and the buffer is empty afterwards; when the extractor is not
    ready, no verdict is queued and the audio stays buffered.  The turn
    leaves the stream open with [run] suspended in [get] again, so the
    statement applies to the next chunk as well, whatever the sequence of
    writes. *)
Theorem identification_window (s : speaker_id.SpeakerStream)
    (samples0 : list Q) (rest : list (list Q)) :
  speaker_id.run_task s = speaker_id.Waiting ->
  speaker_id.inbuf s = samples0 :: rest ->
  0 < speaker_id.sample_rate s ->
  speaker_id.min_duration s = 3%Q ->
  let buffered := speaker_id.audio_buffer s ++ samples0 in
  let rate := speaker_id.sample_rate s in
  let ready := sherpa_onnx.is_ready (speaker_id.extractor s) rate buffered in
  let s' := speaker_id.run_iteration s in
  (speaker_id.inbuf s' = rest /\
   speaker_id.min_duration s' = 3%Q /\
   speaker_id.sample_rate s' = rate /\
   speaker_id.is_closed s' = speaker_id.is_closed s /\
   (speaker_id.is_closed s = false ->
    speaker_id.run_task s' = speaker_id.Waiting)) /\
  (py.len buffered < 3 * rate ->
   speaker_id.outbuf s' = speaker_id.outbuf s /\
   speaker_id.audio_buffer s' = buffered) /\
  (3 * rate <= py.len buffered -> ready = true ->
   exists v, speaker_id.outbuf s' = speaker_id.outbuf s ++ [Some v] /\
             speaker_id.audio_buffer s' = []) /\
  (3 * rate <= py.len buffered -> ready = false ->
   speaker_id.outbuf s' = speaker_id.outbuf s /\
   speaker_id.audio_buffer s' = buffered).
Proof.
  intros Htask Hin Hrate Hmin buffered rate ready s'.
  pose proof (run_iteration_waiting s samples0 rest Htask Hin Hrate Hmin) as E.
  cbn zeta in E. fold buffered rate in E. subst s'. rewrite E. clear E.
  set (s1 := speaker_id.set_audio_buffer buffered (speaker_id.set_inbuf rest s)).
  split; [|split; [|split]].
  - assert (Hkeep :
      let s2 := if 3 * rate <=? py.len buffered
                then speaker_id.identify s1 else s1 in
      speaker_id.inbuf s2 = rest /\
      speaker_id.min_duration s2 = speaker_id.min_duration s /\
      speaker_id.sample_rate s2 = rate /\
      speaker_id.is_closed s2 = speaker_id.is_closed s).
    { destruct (3 * rate <=? py.len buffered); [|repeat split].
      apply (identify_keeps s1). }
    cbn zeta in Hkeep. destruct Hkeep as (Hi & Hm & Hr & Hc).
    unfold speaker_id.loop_test.
    cbn [speaker_id.set_run_task speaker_id.inbuf speaker_id.min_duration
         speaker_id.sample_rate speaker_id.is_closed speaker_id.run_task].
    rewrite Hi, Hm, Hr, Hc, Hmin. repeat split.
    intros Hopen. now rewrite Hopen.
  - intros Hshort. apply Z.leb_gt in Hshort. rewrite Hshort. split; reflexivity.
  - intros Hlong Hready. apply Z.leb_le in Hlong. rewrite Hlong.
    destruct (identify_ready s1 Hready) as (v & Hout & _ & Hbuf).
    exists v. split; [exact Hout | exact Hbuf].
  - intros Hlong Hready. apply Z.leb_le in Hlong. rewrite Hlong.
    rewrite (identify_not_ready s1 Hready). split; reflexivity.
Qed.

(** The theorem on the toy extractor: three seconds at 4 Hz arrive in one
    buffer of 24 bytes. *)
Lemma identification_window_witness :
  let s := fst (speaker_id.write stub.speaker_stream_4hz (stub.silence 24)) in
  exists v, speaker_id.outbuf (speaker_id.run_iteration s) = [Some v] /\
            speaker_id.audio_buffer (speaker_id.run_iteration s) = [].
Proof.
  intros s.
  destruct (identification_window s
              (map (fun z => inject_Z z / 32768)%Q
                   (np.int16_pairs (stub.silence 24)))
              [])
    as (_ & _ & Hverdict & _);
    [reflexivity | reflexivity | reflexivity | reflexivity |].
  apply Hverdict; [vm_compute; discriminate | reflexivity].
Defined.

(** C4 as it is stated fails: three seconds of audio are buffered on a
    stream whose extractor does not report ready; no verdict is queued and
    the buffer is not emptied. *)
Lemma no_verdict_when_not_ready :
  let s := speaker_id.run
             (fst (speaker_id.write stub.deaf_stream
                     (stub.silence (Z.to_nat 96000)))) in
  speaker_id.sample_rate s = 16000 /\
  py.len (speaker_id.audio_buffer s) = 48000 /\
  speaker_id.run_task s = speaker_id.Waiting /\
  speaker_id.outbuf s = [].
Proof.
  vm_compute. repeat split.
Qed.

Lemma identified_same_engine (s s' : speaker_id.SpeakerStream) (w : list Q)
    (x : option speaker_id.SpeakerResult) :
  same_engine s s' -> identified s' w x -> identified s w x.
Proof.
  intros (He & Hm & Hr & Ht) H. unfold identified in *.
  rewrite He, Hm, Hr, Ht in H. exact H.
Qed.

Lemma verdict_on_same_engine (s s' : speaker_id.SpeakerStream)
    (x : option speaker_id.SpeakerResult) :
  same_engine s s' -> verdict_on s' x -> verdict_on s x.
Proof.
  intros Hsame (w & Hready & H). exists w. split.
  - destruct Hsame as (He & _ & Hr & _). now rewrite <- He, <- Hr.
  - now apply (identified_same_engine s s').
Qed.

Lemma identify_emits (s : speaker_id.SpeakerStream) :
  sherpa_onnx.is_ready (speaker_id.extractor s) (speaker_id.sample_rate s)
    (speaker_id.audio_buffer s) = true ->
  exists x, speaker_id.outbuf (speaker_id.identify s)
            = speaker_id.outbuf s ++ [x] /\
            identified s (speaker_id.audio_buffer s) x.
Proof.
  intros Hready. unfold speaker_id.identify, identified. rewrite Hready.
  destruct (String.eqb
              (sherpa_onnx.search (speaker_id.manager s)
                 (sherpa_onnx.compute (speaker_id.extractor s)
                    (speaker_id.sample_rate s) (speaker_id.audio_buffer s))
                 (speaker_id.identification_threshold s)) "") eqn:E;
    cbn [negb]; eexists; (split; [reflexivity|]); cbn zeta.
  - right. apply String.eqb_eq in E. split; [exact E | reflexivity].
  - left. apply String.eqb_neq in E. split; [exact E | reflexivity].
Qed.

Lemma identify_same_engine (s : speaker_id.SpeakerStream) :
  same_engine s (speaker_id.identify s).
Proof.
  unfold speaker_id.identify.
  destruct (sherpa_onnx.is_ready _ _ _); [|repeat split].
  destruct (negb _); repeat split.
Qed.

Lemma identify_queue (s : speaker_id.SpeakerStream) :
  exists new, speaker_id.outbuf (speaker_id.identify s)
              = speaker_id.outbuf s ++ new /\ Forall (verdict_on s) new.
Proof.
  destruct (sherpa_onnx.is_ready (speaker_id.extractor s)
              (speaker_id.sample_rate s) (speaker_id.audio_buffer s)) eqn:Hready.
  - destruct (identify_emits s Hready) as (x & Hout & Hx).
    exists [x]. split; [exact Hout|].
    constructor; [|constructor]. now exists (speaker_id.audio_buffer s).
  - rewrite (identify_not_ready s Hready).
    exists []. rewrite app_nil_r. split; [reflexivity | constructor].
Qed.

Lemma run_iteration_queue (s : speaker_id.SpeakerStream) :
  same_engine s (speaker_id.run_iteration s) /\
  exists new, speaker_id.outbuf (speaker_id.run_iteration s)
              = speaker_id.outbuf s ++ new /\ Forall (verdict_on s) new.
Proof.
  assert (Hnone : same_engine s s /\
            exists new, speaker_id.outbuf s = speaker_id.outbuf s ++ new /\
                        Forall (verdict_on s) new).
  { split; [repeat split|]. exists []. rewrite app_nil_r.
    split; [reflexivity | constructor]. }
  unfold speaker_id.run_iteration.
  destruct (speaker_id.run_task s); try exact Hnone.
  destruct (speaker_id.inbuf s) as [|samples0 rest]; try exact Hnone.
  set (s1 := speaker_id.set_audio_buffer _ _).
  destruct (py.truediv _ _) as [duration|e]; [|exact Hnone].
  destruct (Qle_bool _ _); [|exact Hnone].
  destruct (identify_same_engine s1) as (He & Hm & Hr & Ht).
  destruct (identify_queue s1) as (new & Hout & Hall).
  split.
  - repeat split; cbn; assumption.
  - exists new. split; [exact Hout|].
    eapply Forall_impl; [exact Hall|].
    intros x. apply (verdict_on_same_engine s s1). repeat split.
Qed.

(** C5: the verdicts of the identification loop.  A turn of [run] that
    identifies (three seconds or more are buffered, the new block included,
    and the extractor reports ready) puts exactly one verdict on the output
    queue, made from the embedding [e] of the buffered audio: when the
    registry search returns a name for [e] at the threshold of the stream,
    that name with confidence threshold + 0.05 and [e]; when it returns no
    match, the label "unknown" with confidence 0 and [e].  And over any
    number of turns from any state [run] puts nothing else on the queue:
    every item it adds is such a verdict, for a waveform on which the
    extractor reported ready, and it carries the embedding of that
    waveform. *)
Theorem verdicts_carry_embedding :
  (forall (s : speaker_id.SpeakerStream) (samples0 : list Q)
          (rest : list (list Q)),
     speaker_id.run_task s = speaker_id.Waiting ->
     speaker_id.inbuf s = samples0 :: rest ->
     0 < speaker_id.sample_rate s ->
     speaker_id.min_duration s = 3%Q ->
     let w := speaker_id.audio_buffer s ++ samples0 in
     let e := sherpa_onnx.compute (speaker_id.extractor s)
                (speaker_id.sample_rate s) w in
     let name := sherpa_onnx.search (speaker_id.manager s) e
                   (speaker_id.identification_threshold s) in
     3 * speaker_id.sample_rate s <= py.len w ->
     sherpa_onnx.is_ready (speaker_id.extractor s) (speaker_id.sample_rate s)
       w = true ->
     (name <> "" ->
      speaker_id.outbuf (speaker_id.run_iteration s)
      = speaker_id.outbuf s
        ++ [Some (speaker_id.mkResult name
                    (speaker_id.identification_threshold s + (5 # 100))%Q
                    (Some e))]) /\
     (name = "" ->
      speaker_id.outbuf (speaker_id.run_iteration s)
      = speaker_id.outbuf s
        ++ [Some (speaker_id.mkResult "unknown" 0 (Some e))])) /\
  (forall (n : nat) (s : speaker_id.SpeakerStream),
     same_engine s (speaker_id.run_turns n s) /\
     exists new,
       speaker_id.outbuf (speaker_id.run_turns n s)
       = speaker_id.outbuf s ++ new /\
       Forall (verdict_on s) new).
Proof.
  split.
  - intros s samples0 rest Htask Hin Hrate Hmin w e name Hlong Hready.
    pose proof (run_iteration_waiting s samples0 rest Htask Hin Hrate Hmin)
      as E.
    cbn zeta in E. fold w in E. apply Z.leb_le in Hlong.
    rewrite Hlong in E. rewrite E. clear E.
    set (s1 := speaker_id.set_audio_buffer w (speaker_id.set_inbuf rest s)).
    destruct (identify_emits s1 Hready) as (x & Hout & Hx).
    unfold identified in Hx.
    cbn [s1 speaker_id.set_audio_buffer speaker_id.set_inbuf
         speaker_id.extractor speaker_id.sample_rate speaker_id.manager
         speaker_id.identification_threshold speaker_id.audio_buffer] in Hx.
    fold e name in Hx.
    unfold speaker_id.loop_test.
    cbn [speaker_id.set_run_task speaker_id.outbuf]. rewrite Hout.
    cbn [s1 speaker_id.set_audio_buffer speaker_id.set_inbuf
         speaker_id.outbuf].
    split; intros Hname; destruct Hx as [[Hn ->]|[Hn ->]];
      try reflexivity; congruence.
  - intros n. induction n as [|n IH]; intros s; cbn [speaker_id.run_turns].
    + split; [repeat split|]. exists []. rewrite app_nil_r.
      split; [reflexivity | constructor].
    + destruct (run_iteration_queue s) as (Hsame & new1 & Hout1 & Hall1).
      destruct (IH (speaker_id.run_iteration s))
        as ((He & Hm & Hr & Ht) & new2 & Hout2 & Hall2).
      destruct Hsame as (He1 & Hm1 & Hr1 & Ht1).
      split.
      * repeat split; congruence.
      * exists (new1 ++ new2). split.
        -- rewrite Hout2, Hout1. now rewrite <- app_assoc.
        -- apply Forall_app. split; [exact Hall1|].
           eapply Forall_impl; [exact Hall2|].
           intros x. apply verdict_on_same_engine. repeat split; assumption.
Qed.

(** The theorem on the toy engine at 4 Hz: three seconds of samples of
    value 0.75 are matched with "alice" (the toy registry matches a first
    component at or above the threshold 0.7), three seconds of silence are
    not matched; both verdicts carry the embedding. *)
Lemma verdicts_carry_embedding_witness :
  speaker_id.outbuf
    (speaker_id.run_iteration
       (queued (decoded (fixture.loud 12)) stub.speaker_stream_4hz))
  = [Some (speaker_id.mkResult "alice" ((7 # 10) + (5 # 100))
             (Some (sherpa_onnx.compute stub.toy_extractor 4
                      (decoded (fixture.loud 12)))))] /\
  speaker_id.outbuf
    (speaker_id.run_iteration
       (queued (decoded (stub.silence 24)) stub.speaker_stream_4hz))
  = [Some (speaker_id.mkResult "unknown" 0
             (Some (sherpa_onnx.compute stub.toy_extractor 4
                      (decoded (stub.silence 24)))))].
Proof.
  destruct verdicts_carry_embedding as [Hturn _]. split.
  - destruct (Hturn (queued (decoded (fixture.loud 12))
                       stub.speaker_stream_4hz)
                (decoded (fixture.loud 12)) [])
      as [Hmatch _];
      [reflexivity | reflexivity | reflexivity | reflexivity
      | vm_compute; discriminate | reflexivity |].
    apply Hmatch. vm_compute. discriminate.
  - destruct (Hturn (queued (decoded (stub.silence 24))
                       stub.speaker_stream_4hz)
                (decoded (stub.silence 24)) [])
      as [_ Hunknown];
      [reflexivity | reflexivity | reflexivity | reflexivity
      | vm_compute; discriminate | reflexivity |].
    apply Hunknown. vm_compute. reflexivity.
Defined.

(** ** C7: closing a stream twice *)

Lemma tts_drain_all (n : nat) (s : tts.TTSStream) :
  (length (tts.outbuf s) <= n)%nat -> tts.drain n s = tts.outbuf s.
Proof.
  revert s. induction n as [|n IH]; intros s Hn.
  - destruct (tts.outbuf s); [reflexivity | simpl in Hn; lia].
  - cbn [tts.drain]. unfold tts.read.
    destruct (tts.outbuf s) as [|x rest] eqn:E; [reflexivity|].
    rewrite IH; [reflexivity | simpl in *; lia].
Qed.

Lemma speaker_drain_all (n : nat) (s : speaker_id.SpeakerStream) :
  (length (speaker_id.outbuf s) <= n)%nat ->
  speaker_id.drain n s = speaker_id.outbuf s.
Proof.
  revert s. induction n as [|n IH]; intros s Hn.
  - destruct (speaker_id.outbuf s); [reflexivity | simpl in Hn; lia].
  - cbn [speaker_id.drain]. unfold speaker_id.read.
    destruct (speaker_id.outbuf s) as [|x rest] eqn:E; [reflexivity|].
    rewrite IH; [reflexivity | simpl in *; lia].
Qed.

(** C7 (as amended): [close()] never fails and a second call leaves the
    stream closed, but every call puts one end-of-stream sentinel on the
    output queue: after two calls the queue ends with two sentinels, and a
    reader that drains it receives both.  This holds for the TTS stream and
    for the speaker stream. *)
Theorem close_twice_enqueues_two_sentinels (t : tts.TTSStream)
    (p : speaker_id.SpeakerStream) :
  (tts.is_closed (tts.close (tts.close t)) = true /\
   tts.outbuf (tts.close (tts.close t)) = tts.outbuf t ++ [None; None] /\
   tts.drain (length (tts.outbuf t) + 2) (tts.close (tts.close t))
     = tts.outbuf t ++ [None; None]) /\
  (speaker_id.is_closed (speaker_id.close (speaker_id.close p)) = true /\
   speaker_id.outbuf (speaker_id.close (speaker_id.close p))
     = speaker_id.outbuf p ++ [None; None] /\
   speaker_id.drain (length (speaker_id.outbuf p) + 2)
     (speaker_id.close (speaker_id.close p))
     = speaker_id.outbuf p ++ [None; None]).
Proof.
  assert (Ht : tts.outbuf (tts.close (tts.close t))
               = tts.outbuf t ++ [None; None]).
  { cbn. now rewrite <- app_assoc. }
  assert (Hp : speaker_id.outbuf (speaker_id.close (speaker_id.close p))
               = speaker_id.outbuf p ++ [None; None]).
  { cbn. now rewrite <- app_assoc. }
  split; (split; [reflexivity | split; [assumption|]]).
  - rewrite tts_drain_all; [exact Ht|]. rewrite Ht, length_app. simpl. lia.
  - rewrite speaker_drain_all; [exact Hp|]. rewrite Hp, length_app. simpl. lia.
Qed.

(** C7 as it is stated fails: on a fresh stream closed twice, a reader that
    drains the output queue receives two end-of-stream sentinels. *)
Lemma close_twice_duplicate_sentinel :
  tts.drain 2 (tts.close (tts.close stub.native_stream)) = [None; None] /\
  speaker_id.drain 2 (speaker_id.close (speaker_id.close stub.speaker_stream))
    = [None; None].
Proof. split; reflexivity. Qed.

(** ** C8: the engine caches *)




Section tts_cache.

Variable construct : string -> nat -> res unit.




Lemma get_tts_engine_returns_cached (g : tts.Globals) (r : string)
    (h : nat) (sr : Z) :
  snd (tts.get_tts_engine construct g r) = Ok (h, sr) ->
  tts._tts_engines (fst (tts.get_tts_engine construct g r)) !! r = Some h.
Proof.
  unfold tts.get_tts_engine.
  destruct (tts.tts_configs !! r) as [sr0|]; [|discriminate].
  destruct (tts._tts_engines g !! r) as [h0|] eqn:Hc.
  - cbn. intros [= -> _]. exact Hc.
  - destruct (construct r (length (tts.constructions g))) as [[]|e];
      [|discriminate].
    cbn. intros [= <- _]. apply lookup_insert_eq.
Qed.





End tts_cache.

Section speaker_cache.

Variable create : string -> nat -> res unit.









End speaker_cache.



(** ** The loop of [TTSStream.write] *)

Lemma total_size_snoc (f : tts.Segment -> Z) (hs : list tts.Segment)
    (h : tts.Segment) :
  total_size f (hs ++ [h]) = total_size f hs + f h.
Proof. induction hs as [|a hs IH]; cbn [total_size app]; lia. Qed.

Lemma total_duration_snoc (f : tts.Segment -> Z) (hs : list tts.Segment)
    (h : tts.Segment) :
  (total_duration f (hs ++ [h])
   == total_duration f hs + inject_Z (f h) / inject_Z (tts.seg_rate h))%Q.
Proof.
  induction hs as [|a hs IH]; cbn [total_duration app].
  - ring.
  - rewrite IH. ring.
Qed.

Lemma zeros_inv (n : Z) (noise : list Q) :
  np.zeros n = Ok noise -> 0 <= n /\ py.len noise = n.
Proof.
  unfold np.zeros. destruct (n <? 0) eqn:E; [discriminate|].
  apply Z.ltb_ge in E. intros [= <-]. split; [exact E|].
  now apply len_repeat.
Qed.

Lemma truediv_inv (a b : Z) (q : Q) :
  py.truediv a b = Ok q -> b <> 0 /\ q = (inject_Z a / inject_Z b)%Q.
Proof.
  unfold py.truediv. destruct (b =? 0) eqn:E; [discriminate|].
  apply Z.eqb_neq in E. now intros [= <-].
Qed.

Lemma bind_ok {A B : Type} (m : res A) (k : A -> res B) (b : B) :
  (m ≫= k) = Ok b -> exists a, m = Ok a /\ k a = Ok b.
Proof. destruct m as [a|e]; [|discriminate]. intros H. now exists a. Qed.

Section tts_write.

Variable resample : list Q -> Z -> res (list Q).

Lemma write_segment_totals (ev : nat -> nat -> bool) (split : bool) (pause : Q)
    (ntexts : Z) (s s' : tts.TTSStream) (acc acc' : tts.Locals)
    (it : nat * py.str) :
  tts.write_segment resample ev split pause ntexts (s, acc) it = Ok (s', acc') ->
  locals_inv split pause acc -> locals_inv split pause acc'.
Proof.
  destruct it as [idx text0]. unfold tts.write_segment.
  destruct (py.strip text0) as [|c text]; [now intros [= _ <-]|].
  intros H. apply bind_ok in H as ([s1 audio] & _ & H).
  destruct audio as [audio|]; [|now injection H as _ <-].
  destruct (_ || _) eqn:Hvalid; [now injection H as _ <-|].
  apply orb_false_elim in Hvalid as [Hrate Hlen].
  apply Z.eqb_neq in Hrate, Hlen.
  apply bind_ok in H as ([[s2 samples'] gap] & Hgap & H).
  apply bind_ok in H as (d & Hd & H).
  apply truediv_inv in Hd as [_ ->].
  injection H as _ <-.
  intros (Hsize & Hdur & Hall).
  assert (Hpos : 0 < py.len (sherpa_onnx.samples audio)).
  { pose proof (len_nonneg (sherpa_onnx.samples audio)). lia. }
  assert (HrateQ : ~ (inject_Z (sherpa_onnx.sample_rate audio) == 0)%Q).
  { unfold Qeq. simpl. lia. }
  unfold locals_inv. cbn [tts.l_audio_size tts.l_audio_duration tts.history].
  rewrite !total_size_snoc, !total_duration_snoc, Hdur, Hsize.
  change (seg_gap_len (tts.mkSegment (sherpa_onnx.sample_rate audio)
            (py.len (sherpa_onnx.samples audio)) gap))
    with (match gap with Some g => g | None => 0 end).
  cbn [tts.seg_speech tts.seg_rate].
  destruct (split && _) eqn:Hbranch.
  - apply andb_prop in Hbranch as [-> _].
    apply bind_ok in Hgap as (noise & Hnoise & Hgap).
    apply zeros_inv in Hnoise as [Hn Hlen_noise].
    apply bind_ok in Hgap as ([s3 r] & _ & Hgap).
    injection Hgap as _ <- <-.
    rewrite len_app. split; [lia|]. split.
    + rewrite inject_Z_plus. now field.
    + apply Forall_app. split; [exact Hall|]. constructor; [|constructor].
      split; [exact Hrate|]. split; [exact Hpos|].
      intros g [= <-]. rewrite Hlen_noise. repeat split. exact Hn.
  - injection Hgap as _ <- <-. split; [lia|]. split.
    + now field.
    + apply Forall_app. split; [exact Hall|]. constructor; [|constructor].
      split; [exact Hrate|]. split; [exact Hpos|]. discriminate.
Qed.

Lemma write_loop_totals (ev : nat -> nat -> bool) (split : bool) (pause : Q)
    (ntexts : Z) (its : list (nat * py.str)) (s s' : tts.TTSStream)
    (acc acc' : tts.Locals) :
  tts.write_loop resample ev split pause ntexts its (s, acc) = Ok (s', acc') ->
  locals_inv split pause acc -> locals_inv split pause acc'.
Proof.
  revert s acc. induction its as [|it rest IH]; intros s acc; cbn [tts.write_loop].
  - now intros [= _ <-].
  - intros H. apply bind_ok in H as ([s1 acc1] & Hseg & Hrest).
    intros Hinv. eapply IH; [exact Hrest|].
    eapply write_segment_totals; eauto.
Qed.


Lemma evolves_refl (s : tts.TTSStream) : evolves s s.
Proof.
  repeat split. exists []. rewrite app_nil_r.
  repeat split; auto; constructor.
Qed.

Lemma evolves_trans (s1 s2 s3 : tts.TTSStream) :
  evolves s1 s2 -> evolves s2 s3 -> evolves s1 s3.
Proof.
  intros (He1 & Hi1 & Hp1 & Ht1 & Ho1 & new1 & Hout1 & Hall1 & Hc1 & Hm1)
         (He2 & Hi2 & Hp2 & Ht2 & Ho2 & new2 & Hout2 & Hall2 & Hc2 & Hm2).
  repeat split; try congruence.
  exists (new1 ++ new2). repeat split.
  - rewrite Hout2, Hout1. now rewrite <- app_assoc.
  - apply Forall_app. now split.
  - apply Hc2. now apply Hc1.
  - apply Forall_app. destruct (Hc1 H) as [H1 Hn1].
    split; [exact Hn1 | now apply Hc2].
  - intros H3. destruct (Hm2 H3) as [H2|Hin].
    + destruct (Hm1 H2) as [H1|Hin]; [now left|].
      right. apply in_or_app. now left.
    + right. apply in_or_app. now right.
Qed.

Lemma evolves_close (s : tts.TTSStream) : evolves s (tts.close s).
Proof.
  repeat split. exists [None]. repeat split.
  - constructor; [now left | constructor].
  - constructor; [reflexivity | constructor].
  - intros _. right. now left.
Qed.

Lemma on_process_closed (s : tts.TTSStream) (chunk : list Q) (p : Q) :
  tts.is_closed s = true -> tts.on_process resample s chunk p = Ok (s, 0).
Proof. intros H. unfold tts.on_process. now rewrite H. Qed.

Lemma on_process_open (s : tts.TTSStream) (chunk chunk' : list Q) (p : Q) :
  tts.is_closed s = false ->
  tts.resample_chunk resample s chunk = Ok chunk' ->
  tts.on_process resample s chunk p
  = Ok (tts.put_nowait
          (Some (tts.TTSResult_init (Some (tts.to_pcm16 chunk')) false)) s, 1).
Proof.
  intros Hopen Hre. unfold tts.on_process. rewrite Hopen, Hre. res_simpl.
  now rewrite and_or_0_1.
Qed.

Lemma evolves_on_process (s s' : tts.TTSStream) (chunk : list Q) (p : Q)
    (r : Z) :
  tts.on_process resample s chunk p = Ok (s', r) -> evolves s s'.
Proof.
  destruct (tts.is_closed s) eqn:Hc.
  - rewrite on_process_closed by exact Hc. intros [= <- _]. apply evolves_refl.
  - unfold tts.on_process. rewrite Hc. intros H.
    apply bind_ok in H as (chunk' & _ & H). injection H as <- _.
    repeat split. eexists [_]. repeat split.
    + constructor; [|constructor]. right. now eexists.
    + congruence.
    + congruence.
    + cbn. congruence.
Qed.

Lemma evolves_callbacks (ev : nat -> bool) (todo : list (list Q * Q))
    (s s' : tts.TTSStream) (k k' : nat) :
  tts.callbacks resample ev s todo k = Ok (s', k') -> evolves s s'.
Proof.
  revert s k. induction todo as [|[chunk p] rest IH]; intros s k;
    cbn [tts.callbacks].
  - intros [= <- _]. destruct (ev k); [apply evolves_close | apply evolves_refl].
  - intros H. apply bind_ok in H as ([s1 r] & Hcb & H).
    assert (E0 : evolves s (if ev k then tts.close s else s)).
    { destruct (ev k); [apply evolves_close | apply evolves_refl]. }
    apply evolves_on_process in Hcb.
    eapply evolves_trans; [exact E0|].
    eapply evolves_trans; [exact Hcb|].
    destruct (r =? 0).
    + injection H as <- _. apply evolves_refl.
    + eapply IH. exact H.
Qed.

Lemma evolves_segment (ev : nat -> nat -> bool) (split : bool) (pause : Q)
    (ntexts : Z) (s s' : tts.TTSStream) (acc acc' : tts.Locals)
    (it : nat * py.str) :
  tts.write_segment resample ev split pause ntexts (s, acc) it = Ok (s', acc') ->
  evolves s s'.
Proof.
  destruct it as [idx text0]. unfold tts.write_segment.
  destruct (py.strip text0) as [|c text];
    [intros [= <- _]; apply evolves_refl|].
  intros H. apply bind_ok in H as ([s1 audio] & Hgen & H).
  unfold tts.to_thread_generate in Hgen.
  apply bind_ok in Hgen as ([s0 k] & Hcb & Hgen). injection Hgen as <- _.
  apply evolves_callbacks in Hcb.
  destruct audio as [audio|]; [|now injection H as <- _].
  destruct (_ || _); [now injection H as <- _|].
  apply bind_ok in H as ([[s2 samples'] gap] & Hgap & H).
  apply bind_ok in H as (d & _ & H). injection H as <- _.
  eapply evolves_trans; [exact Hcb|].
  destruct (split && _).
  - apply bind_ok in Hgap as (noise & _ & Hgap).
    apply bind_ok in Hgap as ([s3 r] & Hnoise & Hgap).
    injection Hgap as <- _ _. eapply evolves_on_process. exact Hnoise.
  - injection Hgap as <- _ _. apply evolves_refl.
Qed.

Lemma evolves_loop (ev : nat -> nat -> bool) (split : bool) (pause : Q)
    (ntexts : Z) (its : list (nat * py.str)) (s s' : tts.TTSStream)
    (acc acc' : tts.Locals) :
  tts.write_loop resample ev split pause ntexts its (s, acc) = Ok (s', acc') ->
  evolves s s'.
Proof.
  revert s acc. induction its as [|it rest IH]; intros s acc; cbn [tts.write_loop].
  - intros [= <- _]. apply evolves_refl.
  - intros H. apply bind_ok in H as ([s1 acc1] & Hseg & Hrest).
    eapply evolves_trans; [eapply evolves_segment; exact Hseg|].
    eapply IH. exact Hrest.
Qed.


Lemma locals_inv_init (split : bool) (pause : Q) :
  locals_inv split pause
    {| tts.l_audio_duration := 0; tts.l_audio_size := 0; tts.history := [] |}.
Proof. repeat split; constructor. Qed.

Lemma write_segments_totals (ev : nat -> nat -> bool) (s s' : tts.TTSStream)
    (text : py.str) (split : bool) (pause : Q) (acc : tts.Locals) :
  tts.write_segments resample ev s text split pause = Ok (s', acc) ->
  locals_inv split pause acc.
Proof.
  unfold tts.write_segments. intros H.
  eapply write_loop_totals; [exact H | apply locals_inv_init].
Qed.

Lemma write_unfold (ev : nat -> nat -> bool) (t_start t_end : Q)
    (s s' : tts.TTSStream) (text : py.str) (split : bool) (pause : Q) :
  tts.write resample ev t_start t_end s text split pause = Ok s' ->
  exists s'' acc,
    tts.write_segments resample ev s text split pause = Ok (s'', acc) /\
    s' = tts.put_nowait
           (Some (tts.final_result (t_end - t_start)%Q acc)) s'' /\
    evolves s s''.
Proof.
  unfold tts.write. intros H. apply bind_ok in H as ([s'' acc] & Hseg & H).
  injection H as <-. exists s'', acc.
  split; [exact Hseg|]. split; [reflexivity|].
  unfold tts.write_segments in Hseg. eapply evolves_loop. exact Hseg.
Qed.

Lemma totals_nonneg (split : bool) (pause : Q) (hs : list tts.Segment) :
  Forall (segment_of split pause) hs ->
  0 <= total_size tts.seg_speech hs /\ 0 <= total_size seg_gap_len hs /\
  (hs <> [] -> 0 < total_size tts.seg_speech hs).
Proof.
  induction 1 as [|h hs (Hrate & Hspeech & Hgap) _ (IH1 & IH2 & _)];
    cbn [total_size].
  - repeat split; try lia. congruence.
  - assert (0 <= seg_gap_len h).
    { unfold seg_gap_len. destruct (tts.seg_gap h) as [g|]; [|lia].
      now destruct (Hgap g eq_refl) as (_ & Hg & _). }
    repeat split; lia.
Qed.




(** C9, what the code does: whenever the stream is closed by the time a
    [write] returns, whether [close()] ran before the [write] or while one
    of its inference calls was in flight, the terminal summary has been put
    on the queue behind the end-of-stream sentinel.  Only the non-final
    results are held back: a [write] on a closed stream queues sentinels and
    its summary, nothing else. *)
Theorem summary_enqueued_after_close (ev : nat -> nat -> bool)
    (t_start t_end : Q) (s s' : tts.TTSStream) (text : py.str) (split : bool)
    (pause : Q) :
  (tts.is_closed s = true -> In None (tts.outbuf s)) ->
  tts.write resample ev t_start t_end s text split pause = Ok s' ->
  tts.is_closed s' = true ->
  (exists before r,
     tts.outbuf s' = before ++ [Some r] /\ In None before /\
     tts.finished r = true /\ tts.pcm_bytes r = None) /\
  (tts.is_closed s = true ->
   exists new r,
     tts.outbuf s' = tts.outbuf s ++ new ++ [Some r] /\
     Forall (eq None) new /\ tts.finished r = true).
Proof.
  intros Hmark Hwrite Hclosed.
  destruct (write_unfold ev t_start t_end s s' text split pause Hwrite)
    as (s'' & acc & _ & -> & Hev).
  destruct Hev as (_ & _ & _ & _ & _ & new & Hout & _ & Hstay & Hwas).
  cbn [tts.put_nowait tts.outbuf tts.is_closed] in *. split.
  - exists (tts.outbuf s''), (tts.final_result (t_end - t_start) acc).
    repeat split. rewrite Hout. apply in_or_app.
    destruct (Hwas Hclosed) as [Hs|Hin]; [left; now apply Hmark | now right].
  - intros Hs. destruct (Hstay Hs) as (_ & Hnone).
    exists new, (tts.final_result (t_end - t_start) acc).
    rewrite Hout, <- app_assoc. repeat split. exact Hnone.
Qed.

(** C6, what the code does: the terminal result of a [write] has
    [finished = true], no PCM payload, the elapsed wall-time and the
    accumulated audio duration, but its [audio_size] is the 0 of the
    constructor although the loop has accumulated the sample count of the
    call; every other item the [write] queues is a sentinel or a non-final
    result with a PCM payload and the summary fields at their defaults. *)
Theorem final_result_omits_sample_count (ev : nat -> nat -> bool)
    (t_start t_end : Q) (s s' : tts.TTSStream) (text : py.str) (split : bool)
    (pause : Q) :
  tts.write resample ev t_start t_end s text split pause = Ok s' ->
  exists s'' acc new r,
    tts.write_segments resample ev s text split pause = Ok (s'', acc) /\
    tts.outbuf s' = tts.outbuf s ++ new ++ [Some r] /\
    Forall chunk_or_sentinel new /\
    tts.finished r = true /\ tts.pcm_bytes r = None /\
    tts.elapsed r = (t_end - t_start)%Q /\
    tts.audio_duration r = tts.l_audio_duration acc /\
    tts.audio_size r = 0 /\
    tts.l_audio_size acc
      = total_size tts.seg_speech (tts.history acc)
        + total_size seg_gap_len (tts.history acc) /\
    (tts.history acc <> [] -> 0 < tts.l_audio_size acc).
Proof.
  intros Hwrite.
  destruct (write_unfold ev t_start t_end s s' text split pause Hwrite)
    as (s'' & acc & Hseg & -> & Hev).
  destruct Hev as (_ & _ & _ & _ & _ & new & Hout & Hall & _ & _).
  destruct (write_segments_totals ev s s'' text split pause acc Hseg)
    as (Hsize & _ & Hsegs).
  destruct (totals_nonneg split pause _ Hsegs) as (H1 & H2 & H3).
  exists s'', acc, new, (tts.final_result (t_end - t_start) acc).
  repeat split; try assumption.
  - cbn [tts.put_nowait tts.outbuf]. rewrite Hout. now rewrite <- app_assoc.
  - intros Hne. specialize (H3 Hne). lia.
Qed.

End tts_write.


(** ** C1: [write("Hello. World.", split=true)] *)

Section tts_hello_world.

Variable resample : list Q -> Z -> res (list Q).

Lemma put_all_nil (s : tts.TTSStream) : tts.put_all [] s = s.
Proof. destruct s. unfold tts.put_all. cbn. now rewrite app_nil_r. Qed.

Lemma put_all_app (a b : list (option tts.TTSResult)) (s : tts.TTSStream) :
  tts.put_all b (tts.put_all a s) = tts.put_all (a ++ b) s.
Proof. unfold tts.put_all. cbn. now rewrite <- app_assoc. Qed.

Lemma chunk_results_same_rates (s s' : tts.TTSStream)
    (cs : list (list Q * Q)) :
  tts.target_sample_rate s' = tts.target_sample_rate s ->
  tts.original_sample_rate s' = tts.original_sample_rate s ->
  tts.chunk_results resample s' cs = tts.chunk_results resample s cs.
Proof.
  intros Ht Ho. induction cs as [|[chunk p] rest IH]; cbn [tts.chunk_results];
    [reflexivity|].
  unfold tts.resample_chunk. now rewrite Ht, Ho, IH.
Qed.

Lemma callbacks_quiet (cs : list (list Q * Q)) (s : tts.TTSStream)
    (rs : list (option tts.TTSResult)) (k : nat) :
  tts.is_closed s = false ->
  tts.chunk_results resample s cs = Ok rs ->
  tts.callbacks resample (fun _ => false) s cs k
  = Ok (tts.put_all rs s, (k + length cs)%nat).
Proof.
  revert s rs k. induction cs as [|[chunk p] rest IH]; intros s rs k Hopen;
    cbn [tts.chunk_results tts.callbacks length].
  - intros [= <-]. now rewrite put_all_nil, Nat.add_0_r.
  - intros H. apply bind_ok in H as (chunk' & Hre & H).
    apply bind_ok in H as (rs' & Hrest & H). injection H as <-.
    rewrite (on_process_open resample s chunk chunk' p Hopen Hre). res_simpl.
    cbn [Z.eqb].
    rewrite (IH _ rs'); [| exact Hopen |].
    + change (tts.put_nowait ?x s) with (tts.put_all [x] s).
      rewrite put_all_app. do 2 f_equal. lia.
    + rewrite <- Hrest. now apply chunk_results_same_rates.
Qed.

Lemma write_segment_quiet_gap (split : bool) (pause : Q) (ntexts : Z)
    (s : tts.TTSStream) (acc : tts.Locals) (idx : nat) (text0 text : py.str)
    (a : sherpa_onnx.GeneratedAudio) (rs : list (option tts.TTSResult))
    (gi : option tts.TTSResult) :
  let e := tts.engine s in
  let cs := sherpa_onnx.chunks e text (tts.sid s) (tts.speed s) in
  let rate := sherpa_onnx.sample_rate a in
  let n := py.len (sherpa_onnx.samples a) in
  let g := py.int (inject_Z rate * pause)%Q in
  tts.is_closed s = false ->
  py.strip text0 = text -> text <> [] ->
  tts.chunk_results resample s cs = Ok rs ->
  sherpa_onnx.result e text (tts.sid s) (tts.speed s) (length cs) = Some a ->
  rate <> 0 -> n <> 0 ->
  split && (Z.of_nat idx <? ntexts - 1) = true ->
  0 <= g ->
  tts.chunk_results resample s [(repeat 0%Q (Z.to_nat g), 1%Q)] = Ok [gi] ->
  tts.write_segment resample tts.quiet split pause ntexts (s, acc) (idx, text0)
  = Ok (tts.put_all (rs ++ [gi]) s,
        {| tts.l_audio_duration :=
             (tts.l_audio_duration acc + inject_Z (n + g) / inject_Z rate)%Q;
           tts.l_audio_size := tts.l_audio_size acc + (n + g);
           tts.history := tts.history acc ++ [tts.mkSegment rate n (Some g)] |}).
Proof.
  intros e cs rate n g Hopen Hstrip Hne Hrs Hres Hrate Hn Hbranch Hg Hgap.
  unfold tts.write_segment. rewrite Hstrip.
  destruct text as [|c text']; [congruence|].
  unfold tts.to_thread_generate. fold e. fold cs.
  change (tts.quiet idx) with (fun _ : nat => false).
  rewrite (callbacks_quiet cs s rs 0 Hopen Hrs). res_simpl.
  cbn [Nat.add]. rewrite Hres. fold rate. fold n.
  apply Z.eqb_neq in Hrate, Hn. rewrite Hrate, Hn. cbn [orb].
  rewrite Hbranch. fold g. rewrite (zeros_ok g Hg). res_simpl.
  cbn [tts.chunk_results] in Hgap.
  apply bind_ok in Hgap as (chunk' & Hre & Hgap). injection Hgap as <-.
  erewrite on_process_open; [| exact Hopen |].
  2:{ rewrite <- Hre. reflexivity. }
  res_simpl. rewrite len_app, len_repeat by exact Hg. fold n.
  apply Z.eqb_neq in Hrate. rewrite truediv_ok by exact Hrate. res_simpl.
  change (tts.put_nowait ?x ?t) with (tts.put_all [x] t).
  now rewrite put_all_app.
Qed.

Lemma write_segment_blank (ev : nat -> nat -> bool) (split : bool) (pause : Q)
    (ntexts : Z) (s : tts.TTSStream) (acc : tts.Locals) (idx : nat)
    (text0 : py.str) :
  py.strip text0 = [] ->
  tts.write_segment resample ev split pause ntexts (s, acc) (idx, text0)
  = Ok (s, acc).
Proof. intros H. unfold tts.write_segment. now rewrite H. Qed.

Lemma int_nonneg (q : Q) : (0 <= q)%Q -> 0 <= py.int q.
Proof.
  intros H. unfold py.int. apply Z.quot_pos; [|lia].
  unfold Qle in H. simpl in H. lia.
Qed.

Lemma gap_nonneg (rate : Z) (pause : Q) :
  0 < rate -> (0 <= pause)%Q -> 0 <= py.int (inject_Z rate * pause)%Q.
Proof.
  intros Hr Hp. apply int_nonneg. apply Qmult_le_0_compat; [|exact Hp].
  unfold Qle. simpl. lia.
Qed.

Lemma duration_pos (n rate : Z) :
  0 < n -> 0 < rate -> (0 < inject_Z n / inject_Z rate)%Q.
Proof.
  intros Hn Hr. apply Qlt_shift_div_l.
  - unfold Qlt. simpl. lia.
  - rewrite Qmult_0_l. unfold Qlt. simpl. lia.
Qed.

(** C1, what the code does: on an open stream whose engine synthesizes
    "Hello" and "World", [write("Hello. World.", split=true)] queues the
    non-final results of "Hello", a silence chunk, the non-final results of
    "World", a second silence chunk, and then one terminal result with
    [finished = true] and a positive audio duration.  The text ends with a
    delimiter, so [re.split] returns a third, empty piece and the test
    [idx < len(texts) - 1] holds for "World" too: the gap that the claim
    excludes after the last segment is queued. *)
Theorem hello_world_gap_after_last_segment (t_start t_end : Q)
    (s : tts.TTSStream) (pause : Q) (a1 a2 : sherpa_onnx.GeneratedAudio)
    (r1 r2 : list (option tts.TTSResult)) (g1 g2 : option tts.TTSResult) :
  let e := tts.engine s in
  let hello := py.of_string "Hello" in
  let world := py.of_string "World" in
  let chunks_of text := sherpa_onnx.chunks e text (tts.sid s) (tts.speed s) in
  let gap a := repeat 0%Q
      (Z.to_nat (py.int (inject_Z (sherpa_onnx.sample_rate a) * pause)%Q)) in
  tts.is_closed s = false ->
  (0 <= pause)%Q ->
  sherpa_onnx.result e hello (tts.sid s) (tts.speed s)
    (length (chunks_of hello)) = Some a1 ->
  sherpa_onnx.result e world (tts.sid s) (tts.speed s)
    (length (chunks_of world)) = Some a2 ->
  0 < sherpa_onnx.sample_rate a1 -> sherpa_onnx.samples a1 <> [] ->
  0 < sherpa_onnx.sample_rate a2 -> sherpa_onnx.samples a2 <> [] ->
  tts.chunk_results resample s (chunks_of hello) = Ok r1 ->
  tts.chunk_results resample s (chunks_of world) = Ok r2 ->
  tts.chunk_results resample s [(gap a1, 1%Q)] = Ok [g1] ->
  tts.chunk_results resample s [(gap a2, 1%Q)] = Ok [g2] ->
  exists r,
    tts.write resample tts.quiet t_start t_end s stub.hello_world true pause
    = Ok (tts.put_all (r1 ++ [g1] ++ r2 ++ [g2] ++ [Some r]) s) /\
    tts.finished r = true /\ (0 < tts.audio_duration r)%Q.
Proof.
  intros e hello world chunks_of gap Hopen Hpause Ha1 Ha2 Hr1 Hs1 Hr2 Hs2
         Hc1 Hc2 Hg1 Hg2.
  assert (Hn1 : 0 < py.len (sherpa_onnx.samples a1)).
  { destruct (sherpa_onnx.samples a1); [congruence | unfold py.len; simpl; lia]. }
  assert (Hn2 : 0 < py.len (sherpa_onnx.samples a2)).
  { destruct (sherpa_onnx.samples a2); [congruence | unfold py.len; simpl; lia]. }
  pose proof (gap_nonneg _ pause Hr1 Hpause) as Hgap1.
  pose proof (gap_nonneg _ pause Hr2 Hpause) as Hgap2.
  eexists. unfold tts.write, tts.write_segments.
  change (tts.split_text stub.hello_world true)
    with [hello; py.of_string " World"; []].
  change (tts.enumerate [hello; py.of_string " World"; []])
    with [(0%nat, hello); (1%nat, py.of_string " World"); (2%nat, [])].
  change (py.len [hello; py.of_string " World"; []]) with 3.
  cbn [tts.write_loop].
  rewrite (write_segment_quiet_gap true pause 3 s _ 0 hello hello a1 r1 g1);
    try assumption; try reflexivity; try discriminate; try lia.
  res_simpl.
  rewrite (write_segment_quiet_gap true pause 3 _ _ 1 (py.of_string " World")
             world a2 r2 g2);
    try assumption; try reflexivity; try discriminate; try lia;
    try (erewrite chunk_results_same_rates;
         [eassumption | reflexivity | reflexivity]).
  res_simpl.
  rewrite write_segment_blank by reflexivity. res_simpl.
  split; [|split].
  - change (tts.put_nowait ?x ?t) with (tts.put_all [x] t).
    rewrite !put_all_app, <- !app_assoc. reflexivity.
  - reflexivity.
  - cbn [tts.final_result tts.set_finished tts.set_progress
         tts.set_audio_duration tts.set_elapsed tts.TTSResult_init
         tts.audio_duration tts.l_audio_duration].
    rewrite Qplus_0_l.
    pose proof (duration_pos (py.len (sherpa_onnx.samples a1)
                  + py.int (inject_Z (sherpa_onnx.sample_rate a1) * pause))
                  (sherpa_onnx.sample_rate a1)) as H1.
    pose proof (duration_pos (py.len (sherpa_onnx.samples a2)
                  + py.int (inject_Z (sherpa_onnx.sample_rate a2) * pause))
                  (sherpa_onnx.sample_rate a2)) as H2.
    eapply Qlt_trans; [apply H1; lia|].
    rewrite <- Qplus_0_r at 1. apply Qplus_lt_r. apply H2; lia.
Qed.

End tts_hello_world.

(** ** The theorems on [write] at work on the toy engine *)

Lemma hello_world_gap_after_last_segment_witness :
  exists r,
    tts.write stub.nearest tts.quiet 0 1 stub.native_stream stub.hello_world
      true tts.default_pause
    = Ok (tts.put_all
            (stub.toy_speech ++ [stub.toy_gap] ++ stub.toy_speech
               ++ [stub.toy_gap] ++ [Some r])
            stub.native_stream) /\
    tts.finished r = true /\ (0 < tts.audio_duration r)%Q.
Proof.
  apply (hello_world_gap_after_last_segment stub.nearest 0 1
           stub.native_stream tts.default_pause stub.toy_audio stub.toy_audio
           stub.toy_speech stub.toy_speech stub.toy_gap stub.toy_gap);
    try reflexivity; try discriminate; try (vm_compute; reflexivity).
Defined.



Lemma summary_enqueued_after_close_witness :
  exists s',
    tts.write stub.nearest (stub.close_at 0 1) 0 1 stub.stream_16k stub.hello
      false tts.default_pause = Ok s' /\
    tts.is_closed s' = true /\
    exists before r,
      tts.outbuf s' = before ++ [Some r] /\ In None before /\
      tts.finished r = true /\ tts.pcm_bytes r = None.
Proof.
  destruct (tts.write stub.nearest (stub.close_at 0 1) 0 1 stub.stream_16k
              stub.hello false tts.default_pause) as [s'|e] eqn:E;
    [|vm_compute in E; discriminate E].
  exists s'. split; [reflexivity|].
  assert (Hclosed : tts.is_closed s' = true).
  { pose proof E as E'. vm_compute in E'. injection E' as <-. reflexivity. }
  split; [exact Hclosed|].
  destruct (summary_enqueued_after_close stub.nearest (stub.close_at 0 1) 0 1
              stub.stream_16k s' stub.hello false tts.default_pause)
    as [Hafter _]; [discriminate | exact E | exact Hclosed | exact Hafter].
Defined.

Lemma final_result_omits_sample_count_witness :
  exists s' s'' acc new r,
    tts.write stub.nearest tts.quiet 0 1 stub.native_stream stub.hello false
      tts.default_pause = Ok s' /\
    tts.write_segments stub.nearest tts.quiet stub.native_stream stub.hello
      false tts.default_pause = Ok (s'', acc) /\
    tts.outbuf s' = new ++ [Some r] /\
    tts.finished r = true /\ tts.audio_size r = 0 /\
    tts.l_audio_size acc = 3.
Proof.
  destruct (tts.write stub.nearest tts.quiet 0 1 stub.native_stream stub.hello
              false tts.default_pause) as [s'|e] eqn:E;
    [|vm_compute in E; discriminate E].
  destruct (final_result_omits_sample_count stub.nearest tts.quiet 0 1
              stub.native_stream s' stub.hello false tts.default_pause E)
    as (s'' & acc & new & r & Hseg & Hout & _ & Hfin & _ & _ & _ & Hsize0
        & _ & _).
  exists s', s'', acc, new, r.
  split; [reflexivity|]. split; [exact Hseg|]. split; [exact Hout|].
  split; [exact Hfin|]. split; [exact Hsize0|].
  vm_compute in Hseg. injection Hseg as _ <-. reflexivity.
Defined.

(** ** The PCM codec of the two streams *)

Lemma byte_to_N_lt (b : byte) : (Byte.to_N b < 256)%N.
Proof.
  destruct (N.ltb_spec (Byte.to_N b) 256) as [H|H]; [exact H|].
  assert (Hnone : Byte.of_N (Byte.to_N b) = None).
  { apply Byte.of_N_None_iff. lia. }
  rewrite Byte.of_to_N in Hnone. discriminate.
Qed.

Lemma to_N_byte_of_Z (z : Z) :
  Z.of_N (Byte.to_N (np.byte_of_Z z)) = z mod 256.
Proof.
  unfold np.byte_of_Z.
  pose proof (Z.mod_pos_bound z 256 ltac:(lia)) as Hb.
  destruct (Byte.of_N (Z.to_N (z mod 256))) as [b|] eqn:E.
  - apply Byte.to_of_N in E. rewrite E. lia.
  - apply Byte.of_N_None_iff in E. lia.
Qed.

Lemma byte_of_Z_to_N (b : byte) : np.byte_of_Z (Z.of_N (Byte.to_N b)) = b.
Proof.
  unfold np.byte_of_Z. pose proof (byte_to_N_lt b) as Hb.
  rewrite Z.mod_small by lia. rewrite N2Z.id, Byte.of_to_N. reflexivity.
Qed.

Lemma int16_of_tobytes (z : Z) :
  -32768 <= z <= 32767 ->
  np.int16_of_bytes (np.byte_of_Z (z mod 65536))
    (np.byte_of_Z (z mod 65536 / 256)) = z.
Proof.
  intros Hz. unfold np.int16_of_bytes. rewrite !to_N_byte_of_Z.
  pose proof (Z.mod_pos_bound z 65536 ltac:(lia)) as Hu.
  set (u := z mod 65536) in *.
  assert (E : u mod 256 + 256 * (u / 256 mod 256) = u).
  { rewrite (Z.mod_small (u / 256)).
    - pose proof (Z.div_mod u 256 ltac:(lia)). lia.
    - split; [apply Z.div_pos; lia | apply Z.div_lt_upper_bound; lia]. }
  rewrite E. subst u.
  destruct (Z.ltb_spec (z mod 65536) 32768) as [H|H].
  - destruct (Z.le_gt_cases 0 z) as [Hz0|Hz0].
    + rewrite Z.mod_small by lia. reflexivity.
    + rewrite <- (Z.mod_add z 1 65536) in H by lia.
      rewrite Z.mod_small in H by lia. lia.
  - destruct (Z.le_gt_cases 0 z) as [Hz0|Hz0].
    + rewrite Z.mod_small in H by lia. lia.
    + rewrite <- (Z.mod_add z 1 65536) by lia.
      rewrite Z.mod_small by lia. lia.
Qed.

Lemma int16_pairs_tobytes (l : list Z) :
  Forall (fun z => -32768 <= z <= 32767) l ->
  np.int16_pairs (np.tobytes l) = l.
Proof.
  induction 1 as [|z l Hz _ IH]; cbn [np.tobytes np.int16_pairs]; [reflexivity|].
  now rewrite int16_of_tobytes, IH.
Qed.

Lemma int16_of_bytes_range (lo hi : byte) :
  -32768 <= np.int16_of_bytes lo hi <= 32767.
Proof.
  unfold np.int16_of_bytes.
  pose proof (byte_to_N_lt lo). pose proof (byte_to_N_lt hi).
  destruct (_ <? 32768) eqn:E; [apply Z.ltb_lt in E | apply Z.ltb_ge in E]; lia.
Qed.

Lemma tobytes_int16_of_bytes (lo hi : byte) :
  let z := np.int16_of_bytes lo hi in
  np.byte_of_Z (z mod 65536) = lo /\ np.byte_of_Z (z mod 65536 / 256) = hi.
Proof.
  intros z. subst z. unfold np.int16_of_bytes.
  pose proof (byte_to_N_lt lo) as Hlo. pose proof (byte_to_N_lt hi) as Hhi.
  set (l := Z.of_N (Byte.to_N lo)) in *. set (h := Z.of_N (Byte.to_N hi)) in *.
  assert (Hl : 0 <= l < 256) by (subst l; lia).
  assert (Hh : 0 <= h < 256) by (subst h; lia).
  assert (Hu : (if l + 256 * h <? 32768 then l + 256 * h
                else l + 256 * h - 65536) mod 65536 = l + 256 * h).
  { destruct (_ <? 32768).
    - apply Z.mod_small. lia.
    - rewrite <- (Z.mod_add (l + 256 * h - 65536) 1 65536) by lia.
      replace (l + 256 * h - 65536 + 1 * 65536) with (l + 256 * h) by lia.
      apply Z.mod_small. lia. }
  rewrite Hu.
  assert (Hdiv : (l + 256 * h) / 256 = h).
  { rewrite Z.mul_comm, Z.div_add by lia. rewrite Z.div_small by lia. lia. }
  rewrite Hdiv. split.
  - replace (l + 256 * h) with (l + h * 256) by lia.
    unfold np.byte_of_Z. rewrite Z.mod_add by lia.
    fold (np.byte_of_Z l). subst l. apply byte_of_Z_to_N.
  - subst h. apply byte_of_Z_to_N.
Qed.

Lemma int_bounds (a b : Z) (q : Q) :
  a <= 0 <= b -> (inject_Z a <= q)%Q -> (q <= inject_Z b)%Q ->
  a <= py.int q <= b.
Proof.
  intros Hab Hlo Hhi. unfold py.int. destruct q as [n d].
  unfold Qle in *. simpl in *.
  destruct (Z.le_gt_cases 0 n) as [Hn|Hn].
  - rewrite Z.quot_div_nonneg by lia. split.
    + pose proof (Z.div_pos n (Z.pos d) Hn ltac:(lia)). lia.
    + apply Z.lt_succ_r. apply Z.div_lt_upper_bound; nia.
  - assert (E : Z.quot n (Z.pos d) = - (Z.quot (- n) (Z.pos d))).
    { rewrite Z.quot_opp_l by lia. lia. }
    rewrite E. rewrite Z.quot_div_nonneg by lia. split.
    + assert (- n / Z.pos d <= - a); [|lia].
      apply Z.lt_succ_r. apply Z.div_lt_upper_bound; nia.
    + pose proof (Z.div_pos (- n) (Z.pos d) ltac:(lia) ltac:(lia)). lia.
Qed.

Lemma clip_bounds (x : Q) :
  (inject_Z (-32768) <= np.clip (-32768) 32767 x)%Q /\
  (np.clip (-32768) 32767 x <= inject_Z 32767)%Q.
Proof.
  unfold np.clip.
  destruct (Qle_bool x (-32768)) eqn:E1.
  - split; [apply Qle_refl | discriminate].
  - destruct (Qle_bool 32767 x) eqn:E2.
    + split; [discriminate | apply Qle_refl].
    + split.
      * apply Qlt_le_weak. apply Qnot_le_lt. intros H.
        apply Qle_bool_iff in H. change (Qle_bool x (-32768) = true) in H.
        congruence.
      * apply Qlt_le_weak. apply Qnot_le_lt. intros H.
        apply Qle_bool_iff in H. change (Qle_bool 32767 x = true) in H.
        congruence.
Qed.

Lemma pcm16_sample_range (x : Q) : -32768 <= pcm16_sample x <= 32767.
Proof.
  unfold pcm16_sample. destruct (clip_bounds (x * 32768)) as [H1 H2].
  apply int_bounds; [lia | exact H1 | exact H2].
Qed.

Lemma astype_int16_clip (x : Q) :
  np.astype_int16 (np.clip (-32768) 32767 (x * 32768)) = pcm16_sample x.
Proof.
  unfold np.astype_int16. fold (pcm16_sample x).
  pose proof (pcm16_sample_range x).
  rewrite Z.mod_small by lia. lia.
Qed.

Lemma to_pcm16_tobytes (chunk : list Q) :
  tts.to_pcm16 chunk = np.tobytes (map pcm16_sample chunk).
Proof.
  unfold tts.to_pcm16. rewrite !map_map. f_equal.
  apply map_ext. intros x. apply astype_int16_clip.
Qed.

Lemma len_tobytes (l : list Z) : py.len (np.tobytes l) = 2 * py.len l.
Proof.
  unfold py.len. induction l as [|z l IH]; cbn [np.tobytes length]; lia.
Qed.

Lemma scaled_sample (z : Z) :
  (inject_Z z / 32768 * 32768)%Q = (z * 1 * 32768 # 1 * 32768 * 1).
Proof. reflexivity. Qed.

Lemma pcm16_sample_decoded (z : Z) :
  -32768 <= z <= 32767 -> pcm16_sample (inject_Z z / 32768) = z.
Proof.
  intros Hz. unfold pcm16_sample. rewrite scaled_sample. unfold np.clip.
  destruct (Qle_bool (z * 1 * 32768 # 1 * 32768 * 1) (-32768)) eqn:E1.
  - apply Qle_bool_iff in E1. unfold Qle in E1. simpl in E1.
    unfold py.int. simpl. rewrite Z.quot_1_r. lia.
  - destruct (Qle_bool 32767 (z * 1 * 32768 # 1 * 32768 * 1)) eqn:E2.
    + apply Qle_bool_iff in E2. unfold Qle in E2. simpl in E2.
      unfold py.int. simpl. rewrite Z.quot_1_r. lia.
    + unfold py.int. cbn [Qnum Qden].
      change (Z.pos (1 * 32768 * 1)) with 32768.
      replace (z * 1 * 32768) with (z * 32768) by lia.
      apply Z.quot_mul. lia.
Qed.

Lemma tobytes_int16_pairs (n : nat) (b : list byte) :
  length b = (2 * n)%nat -> np.tobytes (np.int16_pairs b) = b.
Proof.
  revert b. induction n as [|n IH]; intros b Hlen.
  - destruct b; [reflexivity | discriminate].
  - destruct b as [|lo [|hi rest]]; try (simpl in Hlen; lia).
    cbn [np.int16_pairs np.tobytes].
    destruct (tobytes_int16_of_bytes lo hi) as [-> ->].
    rewrite IH; [reflexivity | simpl in Hlen; lia].
Qed.

Lemma int16_pairs_range_upto (n : nat) (b : list byte) :
  (length b <= n)%nat ->
  Forall (fun z => -32768 <= z <= 32767) (np.int16_pairs b).
Proof.
  revert b. induction n as [|n IH]; intros b Hlen;
    destruct b as [|lo [|hi rest]]; cbn [np.int16_pairs]; try constructor;
    try (simpl in Hlen; lia).
  - apply int16_of_bytes_range.
  - apply IH. simpl in Hlen. lia.
Qed.

Lemma int16_pairs_range (b : list byte) :
  Forall (fun z => -32768 <= z <= 32767) (np.int16_pairs b).
Proof. apply (int16_pairs_range_upto (length b)). lia. Qed.

Lemma even_length (b : list byte) :
  Z.odd (py.len b) = false -> exists n, length b = (2 * n)%nat.
Proof.
  intros H. unfold py.len in H.
  assert (He : Z.even (Z.of_nat (length b)) = true).
  { rewrite <- Z.negb_odd, H. reflexivity. }
  apply Z.even_spec in He as [k Hk].
  exists (Z.to_nat k). lia.
Qed.

Lemma write_even (s : speaker_id.SpeakerStream) (b : list byte) :
  Z.odd (py.len b) = false ->
  speaker_id.write s b = (queued (decoded b) s, Ok tt).
Proof. intros H. unfold speaker_id.write. now rewrite frombuffer_even. Qed.

Lemma len_decoded (b : list byte) :
  Z.odd (py.len b) = false -> 2 * py.len (decoded b) = py.len b.
Proof.
  intros H. unfold py.len in H.
  assert (He : Z.even (Z.of_nat (length b)) = true).
  { rewrite <- Z.negb_odd, H. reflexivity. }
  apply Z.even_spec in He as [k Hk].
  assert (Hn : length b = (2 * Z.to_nat k)%nat) by lia.
  unfold decoded, py.len. rewrite length_map.
  clear H Hk. revert b Hn. generalize (Z.to_nat k) as n.
  induction n as [|n IH]; intros b Hn.
  - destruct b; [reflexivity | discriminate].
  - destruct b as [|lo [|hi rest]]; try (simpl in Hn; lia).
    cbn [np.int16_pairs length].
    specialize (IH rest ltac:(simpl in Hn; lia)). simpl length. lia.
Qed.

(** X1: the bytes [on_process] queues for a chunk are two per sample, and
    they decode (little-endian int16) to the samples scaled by 32768,
    clipped and truncated: every stored value is in the int16 range and
    keeps the sign of its sample, and a sample at or beyond full scale
    saturates at 32767 or -32768, so the conversion to int16 never wraps
    around. *)
Theorem pcm16_clips_never_wraps (chunk : list Q) :
  py.len (tts.to_pcm16 chunk) = 2 * py.len chunk /\
  np.int16_pairs (tts.to_pcm16 chunk) = map pcm16_sample chunk /\
  Forall (fun x =>
            -32768 <= pcm16_sample x <= 32767 /\
            ((0 <= x)%Q -> 0 <= pcm16_sample x) /\
            ((x <= 0)%Q -> pcm16_sample x <= 0) /\
            ((1 <= x)%Q -> pcm16_sample x = 32767) /\
            ((x <= -1)%Q -> pcm16_sample x = -32768)) chunk.
Proof.
  rewrite to_pcm16_tobytes. split; [|split].
  - rewrite len_tobytes. unfold py.len. now rewrite length_map.
  - apply int16_pairs_tobytes. apply Forall_map.
    apply Forall_forall. intros x _. apply pcm16_sample_range.
  - apply Forall_forall. intros x _.
    split; [apply pcm16_sample_range|].
    unfold pcm16_sample, np.clip.
    assert (Hscale : forall a : Z, (inject_Z a <= x -> inject_Z (a * 32768) <= x * 32768)%Q).
    { intros a H. rewrite inject_Z_mult. apply Qmult_le_compat_r; [exact H | discriminate]. }
    assert (Hscale' : forall a : Z, (x <= inject_Z a -> x * 32768 <= inject_Z (a * 32768))%Q).
    { intros a H. rewrite inject_Z_mult. apply Qmult_le_compat_r; [exact H | discriminate]. }
    destruct (Qle_bool (x * 32768) (-32768)) eqn:E1;
      [apply Qle_bool_iff in E1 |
       destruct (Qle_bool 32767 (x * 32768)) eqn:E2;
       [apply Qle_bool_iff in E2|]].
    + repeat split; try (intros; vm_compute; congruence).
      * intros H. apply (Hscale 0) in H. simpl in H.
        pose proof (Qle_trans _ _ _ H E1) as Hc. now vm_compute in Hc.
      * intros H. apply (Hscale 1) in H. simpl in H.
        pose proof (Qle_trans _ _ _ H E1) as Hc. now vm_compute in Hc.
    + repeat split; try (intros; vm_compute; congruence).
      * intros H. apply (Hscale' 0) in H. simpl in H.
        pose proof (Qle_trans _ _ _ E2 H) as Hc. now vm_compute in Hc.
      * intros H. apply (Hscale' (-1)) in H. simpl in H.
        pose proof (Qle_trans _ _ _ E2 H) as Hc. now vm_compute in Hc.
    + assert (N1 : ~ (x * 32768 <= -32768)%Q).
      { intros H. apply Qle_bool_iff in H. congruence. }
      assert (N2 : ~ (32767 <= x * 32768)%Q).
      { intros H. apply Qle_bool_iff in H. congruence. }
      repeat split.
      * intros H. apply (Hscale 0) in H. simpl in H.
        apply (int_bounds 0 32767); [lia | exact H |].
        apply Qlt_le_weak. now apply Qnot_le_lt.
      * intros H. apply (Hscale' 0) in H. simpl in H.
        apply (int_bounds (-32768) 0); [lia | | exact H].
        apply Qlt_le_weak. now apply Qnot_le_lt.
      * intros H. apply (Hscale 1) in H. simpl in H. exfalso. apply N2.
        eapply Qle_trans; [|exact H]. discriminate.
      * intros H. apply (Hscale' (-1)) in H. simpl in H. exfalso. apply N1.
        exact H.
Qed.

(** X2: a buffer of even length written to a speaker stream is queued as
    one block of half as many samples, each in [-1, 1), and the stream
    changes in nothing else; encoding that block the way the TTS stream
    encodes its chunks gives the buffer back, byte for byte. *)
Theorem pcm_bytes_round_trip (s : speaker_id.SpeakerStream) (b : list byte) :
  Z.odd (py.len b) = false ->
  speaker_id.write s b = (queued (decoded b) s, Ok tt) /\
  2 * py.len (decoded b) = py.len b /\
  Forall (fun x => (-1 <= x)%Q /\ (x < 1)%Q) (decoded b) /\
  tts.to_pcm16 (decoded b) = b.
Proof.
  intros Heven. destruct (even_length b Heven) as [n Hn].
  split; [|split; [|split]].
  - apply write_even. exact Heven.
  - apply len_decoded. exact Heven.
  - unfold decoded. apply Forall_map.
    eapply Forall_impl; [apply int16_pairs_range|].
    intros z Hz. cbn beta in Hz |- *. split.
    + apply Qle_shift_div_l; [reflexivity|].
      change (-1 * 32768)%Q with (inject_Z (-32768)).
      rewrite <- Zle_Qle. lia.
    + apply Qlt_shift_div_r; [reflexivity|].
      change (1 * 32768)%Q with (inject_Z 32768).
      rewrite <- Zlt_Qlt. lia.
  - unfold decoded. rewrite to_pcm16_tobytes, map_map.
    rewrite (map_ext_in _ (fun z => z)).
    + rewrite map_id. apply (tobytes_int16_pairs n b Hn).
    + intros z Hin. apply pcm16_sample_decoded.
      pose proof (int16_pairs_range b) as Hall.
      rewrite List.Forall_forall in Hall. now apply Hall.
Qed.

Lemma pcm_bytes_round_trip_witness :
  speaker_id.write stub.speaker_stream [x00; x40]
    = (queued (decoded [x00; x40]) stub.speaker_stream, Ok tt) /\
  2 * py.len (decoded [x00; x40]) = py.len [x00; x40] /\
  Forall (fun x => (-1 <= x)%Q /\ (x < 1)%Q) (decoded [x00; x40]) /\
  tts.to_pcm16 (decoded [x00; x40]) = [x00; x40].
Proof.
  apply (pcm_bytes_round_trip stub.speaker_stream [x00; x40]). reflexivity.
Defined.

(** ** Segmentation and the edge cases of [TTSStream.write] *)

Lemma re_split_nonempty (text : py.str) : tts.re_split text <> [].
Proof.
  destruct text as [|c rest]; cbn [tts.re_split]; [discriminate|].
  destruct (tts.splitter c); [discriminate|].
  destruct (tts.re_split rest); discriminate.
Qed.

Lemma re_split_cut (a b : py.str) (c : N) :
  Forall (fun x => tts.splitter x = false) a -> tts.splitter c = true ->
  tts.re_split (a ++ c :: b) = a :: tts.re_split b.
Proof.
  intros Ha Hc. induction Ha as [|x a Hx _ IH]; cbn [app tts.re_split].
  - now rewrite Hc.
  - now rewrite Hx, IH.
Qed.

Lemma re_split_trailing (front : py.str) (c : N) :
  tts.splitter c = true ->
  tts.re_split (front ++ [c]) = tts.re_split front ++ [[]].
Proof.
  intros Hc. induction front as [|x front IH]; cbn [app tts.re_split].
  - now rewrite Hc.
  - rewrite IH. destruct (tts.splitter x); [reflexivity|].
    pose proof (re_split_nonempty front) as Hne.
    destruct (tts.re_split front) as [|piece more]; [congruence | reflexivity].
Qed.

Lemma splitter_code_points (c : N) :
  tts.splitter c = true <->
  In c [44; 65292; 12290; 46; 33; 63; 65281; 65311; 59; 65307; 12289; 10]%N.
Proof.
  unfold tts.splitter. rewrite existsb_exists. split.
  - intros (x & Hx & E). apply N.eqb_eq in E. now subst x.
  - intros H. exists c. split; [exact H | apply N.eqb_refl].
Qed.

(** X3: [re.split(splitter, text)].  The delimiters are the twelve code
    points of the character class (, ， 。 . ! ? ！ ？ ; ； 、 and the line
    feed).  The text is cut at every delimiter: the piece before the first
    delimiter is the text up to it, and the rest is split in the same way;
    a text without delimiter is its own single piece.  So there is one
    piece more than the text has delimiters, a text that ends with a
    delimiter ends with an empty piece, the pieces put end to end are the
    text without its delimiters, and no piece holds a delimiter. *)
Theorem re_split_pieces (text : py.str) :
  (forall c : N,
     tts.splitter c = true <->
     In c [44; 65292; 12290; 46; 33; 63; 65281; 65311; 59; 65307; 12289;
           10]%N) /\
  (Forall (fun c => tts.splitter c = false) text ->
   tts.re_split text = [text]) /\
  (forall (a b : py.str) (c : N),
     text = a ++ c :: b ->
     Forall (fun x => tts.splitter x = false) a -> tts.splitter c = true ->
     tts.re_split text = a :: tts.re_split b) /\
  (forall (front : py.str) (c : N),
     text = front ++ [c] -> tts.splitter c = true ->
     tts.re_split text = tts.re_split front ++ [[]]) /\
  length (tts.re_split text)
    = S (length (List.filter tts.splitter text)) /\
  concat (tts.re_split text)
    = List.filter (fun c => negb (tts.splitter c)) text /\
  Forall (Forall (fun c => tts.splitter c = false)) (tts.re_split text).
Proof.
  split; [exact splitter_code_points|].
  assert (Hgeneral :
    length (tts.re_split text)
      = S (length (List.filter tts.splitter text)) /\
    concat (tts.re_split text)
      = List.filter (fun c => negb (tts.splitter c)) text /\
    Forall (Forall (fun c => tts.splitter c = false)) (tts.re_split text) /\
    (Forall (fun c => tts.splitter c = false) text ->
     tts.re_split text = [text])).
  { induction text as [|c rest (IHlen & IHcat & IHall & IHone)];
      cbn [tts.re_split List.filter].
    - repeat split; repeat constructor.
    - destruct (tts.splitter c) eqn:Ec; cbn [negb length concat app].
      + repeat split.
        * now rewrite IHlen.
        * exact IHcat.
        * constructor; [constructor | exact IHall].
        * intros H. inversion H; congruence.
      + pose proof (re_split_nonempty rest) as Hne.
        destruct (tts.re_split rest) as [|piece more]; [congruence|].
        cbn [length concat app] in *. repeat split.
        * exact IHlen.
        * now rewrite <- IHcat.
        * inversion IHall; subst. constructor; [|assumption].
          constructor; assumption.
        * intros H. inversion H; subst. specialize (IHone ltac:(assumption)).
          now injection IHone as -> ->. }
  destruct Hgeneral as (Hlen & Hcat & Hall & Hone).
  split; [exact Hone|]. split; [|split].
  - intros a b c -> Ha Hc. now apply re_split_cut.
  - intros front c -> Hc. now apply re_split_trailing.
  - repeat split; assumption.
Qed.

(** On "Hello. World.": the text ends with a delimiter, so the last of its
    three pieces is empty. *)
Lemma re_split_pieces_witness :
  tts.re_split stub.hello_world
  = tts.re_split (py.of_string "Hello. World") ++ [[]] /\
  tts.re_split (py.of_string "Hello. World")
  = py.of_string "Hello" :: tts.re_split (py.of_string " World") /\
  tts.re_split (py.of_string " World") = [py.of_string " World"].
Proof.
  split; [|split].
  - destruct (re_split_pieces stub.hello_world) as (_ & _ & _ & Hlast & _).
    apply (Hlast (py.of_string "Hello. World") 46%N); reflexivity.
  - destruct (re_split_pieces (py.of_string "Hello. World"))
      as (_ & _ & Hcut & _).
    apply (Hcut (py.of_string "Hello") (py.of_string " World") 46%N);
      [reflexivity | repeat constructor | reflexivity].
  - destruct (re_split_pieces (py.of_string " World")) as (_ & Hone & _).
    apply Hone. repeat constructor.
Defined.

Section tts_edges.

Variable resample : list Q -> Z -> res (list Q).

Lemma write_loop_blank (ev : nat -> nat -> bool) (split : bool) (pause : Q)
    (ntexts : Z) (its : list (nat * py.str)) (st : tts.TTSStream * tts.Locals) :
  Forall (fun it => py.strip (snd it) = []) its ->
  tts.write_loop resample ev split pause ntexts its st = Ok st.
Proof.
  induction 1 as [|[idx text0] its Hblank _ IH]; cbn [tts.write_loop];
    [reflexivity|].
  destruct st as [s acc]. cbn [snd] in Hblank.
  rewrite (write_segment_blank resample ev split pause ntexts s acc idx text0
             Hblank).
  exact IH.
Qed.

Lemma enumerate_snd {A : Type} (l : list A) :
  map snd (tts.enumerate l) = l.
Proof.
  unfold tts.enumerate. generalize 0%nat.
  induction l as [|a l IH]; intros n; cbn; [reflexivity|].
  now rewrite IH.
Qed.

(** X4: a text whose pieces are all empty or blank (the empty text, blanks,
    delimiters only) makes [write] skip every piece: the engine is not
    called and nothing is queued but the terminal result, which is final,
    has no payload, reports an audio duration of 0 and the elapsed time. *)
Theorem write_without_text (ev : nat -> nat -> bool) (t_start t_end : Q)
    (s : tts.TTSStream) (text : py.str) (split : bool) (pause : Q) :
  Forall (fun piece => py.strip piece = []) (tts.split_text text split) ->
  exists r,
    tts.write resample ev t_start t_end s text split pause
      = Ok (tts.put_nowait (Some r) s) /\
    tts.finished r = true /\ tts.pcm_bytes r = None /\
    tts.audio_duration r = 0%Q /\ tts.elapsed r = (t_end - t_start)%Q.
Proof.
  intros Hblank. eexists. unfold tts.write, tts.write_segments.
  rewrite write_loop_blank.
  - res_simpl. repeat split.
  - rewrite <- (enumerate_snd (tts.split_text text split)) in Hblank.
    now apply Forall_map in Hblank.
Qed.

Lemma write_segment_no_split (ev : nat -> nat -> bool) (pause pause' : Q)
    (ntexts : Z) (st : tts.TTSStream * tts.Locals) (it : nat * py.str) :
  tts.write_segment resample ev false pause ntexts st it
  = tts.write_segment resample ev false pause' ntexts st it.
Proof. reflexivity. Qed.

Lemma write_loop_no_split (ev : nat -> nat -> bool) (pause pause' : Q)
    (ntexts : Z) (its : list (nat * py.str)) (st : tts.TTSStream * tts.Locals) :
  tts.write_loop resample ev false pause ntexts its st
  = tts.write_loop resample ev false pause' ntexts its st.
Proof.
  revert st. induction its as [|it rest IH]; intros st; cbn [tts.write_loop];
    [reflexivity|].
  rewrite (write_segment_no_split ev pause pause').
  destruct (tts.write_segment resample ev false pause' ntexts st it);
    res_simpl; [apply IH | reflexivity].
Qed.

(** X5: with [split=False] the [pause] argument has no effect on [write],
    and its loop sees the whole text as one piece: at most one segment is
    synthesized, no silence is appended to it, and the sample count equals
    the samples the engine returned. *)
Theorem write_unsplit_ignores_pause (ev : nat -> nat -> bool)
    (t_start t_end : Q) (s s' : tts.TTSStream) (text : py.str)
    (pause pause' : Q) (acc : tts.Locals) :
  tts.write resample ev t_start t_end s text false pause
    = tts.write resample ev t_start t_end s text false pause' /\
  (tts.write_segments resample ev s text false pause = Ok (s', acc) ->
   (length (tts.history acc) <= 1)%nat /\
   Forall (fun h => tts.seg_gap h = None) (tts.history acc) /\
   tts.l_audio_size acc = total_size tts.seg_speech (tts.history acc)).
Proof.
  split.
  - unfold tts.write, tts.write_segments.
    now rewrite (write_loop_no_split ev pause pause').
  - intros Hseg.
    destruct (write_segments_totals resample ev s s' text false pause acc Hseg)
      as (Hsize & _ & Hall).
    assert (Hnone : Forall (fun h => tts.seg_gap h = None) (tts.history acc)).
    { eapply Forall_impl; [exact Hall|]. intros h (_ & _ & Hgap).
      destruct (tts.seg_gap h) as [g|]; [|reflexivity].
      now destruct (Hgap g eq_refl). }
    split; [|split; [exact Hnone|]].
    + unfold tts.write_segments in Hseg. cbn [tts.split_text] in Hseg.
      change (tts.enumerate [text]) with [(0%nat, text)] in Hseg.
      cbn [tts.write_loop] in Hseg.
      apply bind_ok in Hseg as ([s1 acc1] & Hone & Hret).
      injection Hret as _ <-.
      unfold tts.write_segment in Hone.
      destruct (py.strip text); [injection Hone as _ <-; cbn; lia|].
      apply bind_ok in Hone as ([s2 audio] & _ & Hone).
      destruct audio as [audio|]; [|injection Hone as _ <-; cbn; lia].
      destruct (_ || _); [injection Hone as _ <-; cbn; lia|].
      apply bind_ok in Hone as ([[s3 samples'] gap] & _ & Hone).
      apply bind_ok in Hone as (d & _ & Hone).
      injection Hone as _ <-. cbn. lia.
    + rewrite Hsize.
      assert (E : total_size seg_gap_len (tts.history acc) = 0).
      { clear -Hnone. induction Hnone as [|h hs Hh _ IH]; cbn [total_size];
          [reflexivity|].
        unfold seg_gap_len at 1. rewrite Hh. lia. }
      lia.
Qed.

(** X6: two [write] calls on one stream, one after the other, leave the
    queue in call order: what was queued before, the items of the first
    utterance and its terminal result, then the items of the second one
    and its terminal result; each terminal result reports the elapsed time
    of its own call, and the engine and the two sample rates of the stream
    are those it started with. *)
Theorem successive_writes_in_order (ev1 ev2 : nat -> nat -> bool)
    (a1 b1 a2 b2 : Q) (s s1 s2 : tts.TTSStream) (text1 text2 : py.str)
    (split : bool) (pause : Q) :
  tts.write resample ev1 a1 b1 s text1 split pause = Ok s1 ->
  tts.write resample ev2 a2 b2 s1 text2 split pause = Ok s2 ->
  exists new1 r1 new2 r2,
    tts.outbuf s2
      = tts.outbuf s ++ new1 ++ [Some r1] ++ new2 ++ [Some r2] /\
    Forall chunk_or_sentinel new1 /\ Forall chunk_or_sentinel new2 /\
    tts.finished r1 = true /\ tts.finished r2 = true /\
    tts.elapsed r1 = (b1 - a1)%Q /\ tts.elapsed r2 = (b2 - a2)%Q /\
    tts.engine s2 = tts.engine s /\
    tts.target_sample_rate s2 = tts.target_sample_rate s /\
    tts.original_sample_rate s2 = tts.original_sample_rate s.
Proof.
  intros H1 H2.
  destruct (write_unfold resample ev1 a1 b1 s s1 text1 split pause H1)
    as (m1 & acc1 & _ & -> & Hev1).
  destruct (write_unfold resample ev2 a2 b2 _ s2 text2 split pause H2)
    as (m2 & acc2 & _ & -> & Hev2).
  destruct Hev1 as (He1 & _ & _ & Ht1 & Ho1 & new1 & Hout1 & Hall1 & _).
  destruct Hev2 as (He2 & _ & _ & Ht2 & Ho2 & new2 & Hout2 & Hall2 & _).
  cbn [tts.put_nowait tts.outbuf tts.engine tts.target_sample_rate
       tts.original_sample_rate] in *.
  exists new1, (tts.final_result (b1 - a1) acc1), new2,
         (tts.final_result (b2 - a2) acc2).
  repeat split; try assumption; try congruence.
  rewrite Hout2, Hout1. now rewrite <- !app_assoc.
Qed.

(** X7: [generate] fails with [AttributeError] when the engine returns no
    audio ([len(audio.samples)] on [None]) and with [ZeroDivisionError]
    when the returned audio has sample rate 0; whenever it returns, the
    engine returned audio with a non-zero rate and the audio handed to the
    WAV writer is at the client's sample rate. *)
Theorem generate_outcome (s : tts.TTSStream) (text : py.str) :
  let returned :=
    sherpa_onnx.result (tts.engine s) text (tts.sid s) (tts.speed s)
      (length (sherpa_onnx.chunks (tts.engine s) text (tts.sid s) (tts.speed s))) in
  (returned = None -> tts.generate resample s text = Raise AttributeError) /\
  (forall a, returned = Some a -> sherpa_onnx.sample_rate a = 0 ->
             tts.generate resample s text = Raise ZeroDivisionError) /\
  (forall a', tts.generate resample s text = Ok a' ->
              sherpa_onnx.sample_rate a' = tts.target_sample_rate s /\
              exists a, returned = Some a /\ sherpa_onnx.sample_rate a <> 0).
Proof.
  intros returned. unfold tts.generate. fold returned. repeat split.
  - now intros ->.
  - intros a -> Hrate. rewrite Hrate. reflexivity.
  - destruct returned as [a|]; [|discriminate].
    apply bind_ok in H as (d & Hd & H). apply truediv_inv in Hd as [Hrate _].
    destruct (tts.target_sample_rate s =? sherpa_onnx.sample_rate a) eqn:E;
      cbn [negb] in H.
    + injection H as <-. apply Z.eqb_eq in E. congruence.
    + apply bind_ok in H as (q & _ & H). apply bind_ok in H as (y & _ & H).
      now injection H as <-.
  - destruct returned as [a|]; [|discriminate].
    apply bind_ok in H as (d & Hd & H). apply truediv_inv in Hd as [Hrate _].
    now exists a.
Qed.

End tts_edges.

Lemma write_without_text_witness :
  exists r,
    tts.write stub.nearest tts.quiet 0 1 stub.native_stream fixture.blank true
      tts.default_pause
      = Ok (tts.put_nowait (Some r) stub.native_stream) /\
    tts.finished r = true /\ tts.pcm_bytes r = None /\
    tts.audio_duration r = 0%Q /\ tts.elapsed r = (1 - 0)%Q.
Proof.
  apply (write_without_text stub.nearest tts.quiet 0 1 stub.native_stream
           fixture.blank true tts.default_pause).
  vm_compute. repeat constructor.
Defined.

Lemma successive_writes_in_order_witness :
  let s1 := fixture.spoken stub.native_stream stub.hello in
  let s2 := fixture.spoken s1 stub.hello in
  exists new1 r1 new2 r2,
    tts.outbuf s2
      = tts.outbuf stub.native_stream
        ++ new1 ++ [Some r1] ++ new2 ++ [Some r2] /\
    Forall chunk_or_sentinel new1 /\ Forall chunk_or_sentinel new2 /\
    tts.finished r1 = true /\ tts.finished r2 = true /\
    tts.elapsed r1 = (1 - 0)%Q /\ tts.elapsed r2 = (1 - 0)%Q /\
    tts.engine s2 = tts.engine stub.native_stream /\
    tts.target_sample_rate s2 = tts.target_sample_rate stub.native_stream /\
    tts.original_sample_rate s2
      = tts.original_sample_rate stub.native_stream.
Proof.
  intros s1 s2.
  apply (successive_writes_in_order stub.nearest tts.quiet tts.quiet 0 1 0 1
           stub.native_stream s1 s2 stub.hello stub.hello false
           tts.default_pause); vm_compute; reflexivity.
Defined.

(** ** The send pump of [websocket_tts] *)

Lemma firstn_add {A : Type} (a b : nat) (l : list A) :
  firstn (a + b) l = firstn a l ++ firstn b (skipn a l).
Proof.
  revert l. induction a as [|a IH]; intros l; [reflexivity|].
  destruct l as [|x l]; cbn [Nat.add firstn skipn app].
  - now rewrite firstn_nil.
  - now rewrite IH.
Qed.

Lemma slice_window {A : Type} (b : list A) (i k : nat) :
  (i <= length b)%nat ->
  app.slice b (Z.of_nat i) (Z.of_nat i + Z.of_nat k) = firstn k (skipn i b).
Proof.
  intros Hi. unfold app.slice, py.len.
  destruct (Z.of_nat i <? 0) eqn:E1; [apply Z.ltb_lt in E1; lia|].
  destruct (Z.of_nat i + Z.of_nat k <? 0) eqn:E2; [apply Z.ltb_lt in E2; lia|].
  rewrite (Z.min_l (Z.of_nat i)) by lia. rewrite Nat2Z.id.
  destruct (Z.le_gt_cases (Z.of_nat i + Z.of_nat k) (Z.of_nat (length b))) as [H|H].
  - rewrite Z.min_l by lia. f_equal. lia.
  - rewrite Z.min_r by lia.
    rewrite (firstn_all2 (n := k)); [|rewrite length_skipn; lia].
    apply firstn_all2. rewrite length_skipn. lia.
Qed.

Lemma windows_concat {A : Type} (b : list A) (k c : nat) :
  concat (map (fun i => firstn k (skipn (i * k) b)) (seq 0 c))
  = firstn (c * k) b.
Proof.
  induction c as [|c IH]; [reflexivity|].
  rewrite seq_S, map_app, concat_app, IH. cbn [map concat Nat.add].
  rewrite app_nil_r. replace (S c * k)%nat with (c * k + k)%nat by lia.
  now rewrite firstn_add.
Qed.

Lemma range_positive (n k : nat) :
  (0 < k)%nat ->
  app.range (Z.of_nat n) (Z.of_nat k)
  = Ok (map (fun i => Z.of_nat (i * k)) (seq 0 ((n + k - 1) / k))).
Proof.
  intros Hk. unfold app.range.
  destruct (Z.of_nat k =? 0) eqn:E0; [apply Z.eqb_eq in E0; lia|].
  destruct (0 <? Z.of_nat k) eqn:E1; [|apply Z.ltb_ge in E1; lia].
  assert (Hcount : Z.to_nat (if 0 <? Z.of_nat n
                             then (Z.of_nat n - 1) / Z.of_nat k + 1 else 0)
                   = ((n + k - 1) / k)%nat).
  { destruct n as [|n].
    - cbn [Z.of_nat Z.ltb Z.compare]. cbn [Nat.add]. 
      rewrite Nat.div_small by lia. reflexivity.
    - destruct (0 <? Z.of_nat (S n)) eqn:E; [|apply Z.ltb_ge in E; lia].
      replace (Z.of_nat (S n) - 1) with (Z.of_nat n) by lia.
      rewrite <- Nat2Z.inj_div.
      replace (S n + k - 1)%nat with (n + 1 * k)%nat by lia.
      rewrite Nat.div_add by lia. lia. }
  rewrite Hcount. f_equal. apply map_ext. intros i. lia.
Qed.

Lemma send_pcm_positive (pcm_bytes : list byte) (chunk_size : Z) :
  0 < chunk_size ->
  exists frames,
    app.send_pcm pcm_bytes chunk_size = Ok frames /\
    concat frames = pcm_bytes /\
    Forall (fun f => 0 < py.len f <= chunk_size) frames /\
    py.len frames = (py.len pcm_bytes + chunk_size - 1) / chunk_size.
Proof.
  intros Hpos.
  set (k := Z.to_nat chunk_size). set (n := length pcm_bytes).
  assert (Hk : chunk_size = Z.of_nat k) by (subst k; lia).
  assert (Hk0 : (0 < k)%nat) by (subst k; lia).
  set (c := ((n + k - 1) / k)%nat).
  assert (Hc : (n <= c * k)%nat).
  { subst c. pose proof (Nat.div_mod (n + k - 1) k ltac:(lia)) as Hd.
    pose proof (Nat.mod_upper_bound (n + k - 1) k ltac:(lia)). nia. }
  assert (Hc' : forall i, (i < c)%nat -> (i * k < n)%nat).
  { intros i Hi. subst c.
    assert (i <= (n + k - 1) / k - 1)%nat by lia.
    pose proof (Nat.div_mod (n + k - 1) k ltac:(lia)) as Hd.
    pose proof (Nat.mod_upper_bound (n + k - 1) k ltac:(lia)). nia. }
  exists (map (fun i => firstn k (skipn (i * k) pcm_bytes)) (seq 0 c)).
  split; [|split; [|split]].
  - unfold app.send_pcm, py.len. rewrite Hk. fold n.
    rewrite range_positive by exact Hk0. res_simpl. rewrite map_map.
    f_equal. apply map_ext_in. intros i Hi. apply in_seq in Hi.
    apply slice_window. fold n. specialize (Hc' i ltac:(lia)). lia.
  - rewrite windows_concat. apply firstn_all2. fold n. exact Hc.
  - apply Forall_map. apply List.Forall_forall. intros i Hi.
    apply in_seq in Hi. specialize (Hc' i ltac:(lia)).
    unfold py.len. rewrite length_firstn, length_skipn. fold n. lia.
  - unfold py.len. rewrite length_map, length_seq. fold n. subst c.
    rewrite Hk. rewrite Nat2Z.inj_div. f_equal. lia.
Qed.

(** X8: the frames [task_send_pcm] cuts a payload into.  A positive
    [chunk_size] gives ceil(len / chunk_size) frames which, put end to end,
    are the payload; none is empty and none is longer than [chunk_size]
    (an empty payload gives no frame).  [chunk_size = 0] makes [range]
    raise [ValueError], and a negative [chunk_size] sends nothing at all:
    the payload is dropped without an error. *)
Theorem send_pcm_frames (pcm_bytes : list byte) (chunk_size : Z) :
  (chunk_size = 0 -> app.send_pcm pcm_bytes chunk_size = Raise ValueError) /\
  (chunk_size < 0 -> app.send_pcm pcm_bytes chunk_size = Ok []) /\
  (0 < chunk_size ->
   exists frames,
     app.send_pcm pcm_bytes chunk_size = Ok frames /\
     concat frames = pcm_bytes /\
     Forall (fun f => 0 < py.len f <= chunk_size) frames /\
     py.len frames = (py.len pcm_bytes + chunk_size - 1) / chunk_size).
Proof.
  split; [|split].
  - intros ->. reflexivity.
  - intros Hneg. unfold app.send_pcm, app.range.
    destruct (chunk_size =? 0) eqn:E0; [apply Z.eqb_eq in E0; lia|].
    destruct (0 <? chunk_size) eqn:E1; [apply Z.ltb_lt in E1; lia|].
    destruct (py.len pcm_bytes <? 0) eqn:E2;
      [apply Z.ltb_lt in E2; unfold py.len in E2; lia|].
    reflexivity.
  - apply send_pcm_positive.
Qed.

Lemma read_head (s : tts.TTSStream) (x : option tts.TTSResult)
    (rest : list (option tts.TTSResult)) :
  tts.outbuf s = x :: rest ->
  exists s1, tts.read s = Some (x, s1) /\ tts.outbuf s1 = rest.
Proof. intros E. unfold tts.read. rewrite E. eexists. split; reflexivity. Qed.

Lemma send_turns_to_sentinel (chunk_size : Z)
    (before : list tts.TTSResult) (after : list (option tts.TTSResult))
    (n : nat) (s : tts.TTSStream) :
  0 < chunk_size ->
  tts.outbuf s = map Some before ++ None :: after ->
  Forall (fun r => tts.finished r = true \/ tts.pcm_bytes r <> None) before ->
  (length before < n)%nat ->
  exists groups s',
    app.send_turns n chunk_size s = (concat groups, s', app.Returned) /\
    tts.outbuf s' = after /\
    Forall2 (sent_for chunk_size) before groups.
Proof.
  intros Hk. revert n s.
  induction before as [|r before IH]; intros n s Hout Hall Hn;
    (destruct n as [|n]; [simpl in Hn; lia|]); cbn [app.send_turns].
  - destruct (read_head s None after Hout) as (s1 & -> & Hs1).
    exists [], s1. repeat split; [exact Hs1 | constructor].
  - destruct (read_head s (Some r) _ Hout) as (s1 & -> & Hs1).
    apply Forall_cons in Hall as [Hr Hall].
    destruct (IH n s1 Hs1 Hall ltac:(simpl in Hn; lia))
      as (groups & s' & Hrun & Hafter & Hgroups).
    destruct (tts.finished r) eqn:Hfin.
    + rewrite Hrun. exists ([app.send_json r] :: groups), s'.
      repeat split; [exact Hafter|]. constructor; [|exact Hgroups].
      unfold sent_for. now rewrite Hfin.
    + destruct Hr as [Hr|Hr]; [discriminate|].
      destruct (tts.pcm_bytes r) as [pcm|] eqn:Hpcm; [|congruence].
      destruct (send_pcm_positive pcm chunk_size Hk)
        as (frames & -> & Hcat & Hsize & _).
      rewrite Hrun. exists (map app.send_bytes frames :: groups), s'.
      repeat split; [exact Hafter|]. constructor; [|exact Hgroups].
      unfold sent_for. rewrite Hfin. now exists pcm, frames.
Qed.

(** X9: with a positive [chunk_size], a send pump that reads a queue
    holding a sentinel sends, in queue order, what stands before the
    sentinel (the JSON summary of each final result, the frames of each
    payload), takes the sentinel and returns: what is queued behind the
    first sentinel stays on the queue and is never sent. *)
Theorem send_pump_stops_at_sentinel (chunk_size : Z) (s : tts.TTSStream)
    (before : list tts.TTSResult) (after : list (option tts.TTSResult)) :
  0 < chunk_size ->
  tts.outbuf s = map Some before ++ None :: after ->
  Forall (fun r => tts.finished r = true \/ tts.pcm_bytes r <> None) before ->
  exists groups s',
    app.task_send_pcm chunk_size s = (concat groups, s', app.Returned) /\
    tts.outbuf s' = after /\
    Forall2 (sent_for chunk_size) before groups.
Proof.
  intros Hk Hout Hall. unfold app.task_send_pcm.
  apply (send_turns_to_sentinel chunk_size before after); try assumption.
  rewrite Hout, length_app, length_map. simpl. lia.
Qed.

Lemma send_pump_stops_at_sentinel_witness :
  exists groups s',
    app.task_send_pcm 2 fixture.closed_stream
      = (concat groups, s', app.Returned) /\
    tts.outbuf s' = [] /\
    Forall2 (sent_for 2) [fixture.three_bytes] groups.
Proof.
  apply (send_pump_stops_at_sentinel 2 fixture.closed_stream
           [fixture.three_bytes] []).
  - lia.
  - reflexivity.
  - constructor; [right; discriminate | constructor].
Defined.

(** ** The engine caches under arbitrary requests *)

Section tts_cache_more.

Variable construct : string -> nat -> res unit.

Lemma get_tts_engine_sound (g : tts.Globals) (r : string) :
  tts_cache_sound construct g ->
  tts_cache_sound construct (fst (tts.get_tts_engine construct g r)) /\
  (length (tts.constructions (fst (tts.get_tts_engine construct g r)))
   <= S (length (tts.constructions g)))%nat.
Proof.
  intros [Hc Hl]. unfold tts.get_tts_engine.
  destruct (tts.tts_configs !! r) as [sr|] eqn:Hcfg; [|split; [now split | cbn; lia]].
  destruct (tts._tts_engines g !! r) as [h|] eqn:Hhit; [split; [now split | cbn; lia]|].
  assert (Hlog : Forall (fun m => is_Some (tts.tts_configs !! m))
                   (tts.constructions g ++ [r])).
  { apply Forall_app. split; [exact Hl|]. constructor; [|constructor].
    rewrite Hcfg. now eexists. }
  destruct (construct r (length (tts.constructions g))) as [[]|e] eqn:Hb;
    cbn [fst tts._tts_engines tts.constructions].
  - split; [split; [|exact Hlog] | rewrite length_app; simpl; lia].
    intros m h; cbn [tts._tts_engines tts.constructions
                     speaker_id._speaker_engines speaker_id.creations].
    destruct (decide (r = m)) as [->|Hne].
    + rewrite lookup_insert_eq. intros [= <-]. split; [|exact Hb].
      rewrite lookup_app_r by lia. now rewrite Nat.sub_diag.
    + rewrite lookup_insert_ne by exact Hne. intros Hm.
      destruct (Hc m h Hm) as [Hat Hok]. split; [|exact Hok].
      rewrite lookup_app_l; [exact Hat|]. now apply lookup_lt_Some in Hat.
  - split; [split; [|exact Hlog] | rewrite length_app; simpl; lia].
    intros m h; cbn [tts._tts_engines tts.constructions
                     speaker_id._speaker_engines speaker_id.creations].
    intros Hm. destruct (Hc m h Hm) as [Hat Hok]. split; [|exact Hok].
    rewrite lookup_app_l; [exact Hat|]. now apply lookup_lt_Some in Hat.
Qed.

Lemma get_tts_engine_answer (g : tts.Globals) (m : string) :
  match snd (tts.get_tts_engine construct g m) with
  | Ok (h, sr) => tts.tts_configs !! m = Some sr
  | Raise e => tts.tts_configs !! m = None -> e = KeyError
  end /\
  (tts.tts_configs !! m = None ->
   tts.get_tts_engine construct g m = (g, Raise KeyError)).
Proof.
  unfold tts.get_tts_engine.
  destruct (tts.tts_configs !! m) as [sr|]; [|split; [cbn; auto | auto]].
  split; [|discriminate].
  destruct (tts._tts_engines g !! m); [reflexivity|].
  destruct (construct m _) as [[]|e]; [reflexivity | discriminate].
Qed.

Lemma tts_serve_at (requests : list string) (g : tts.Globals) (i : nat)
    (m : string) :
  requests !! i = Some m ->
  exists gi, snd (tts.serve construct g requests) !! i
             = Some (snd (tts.get_tts_engine construct gi m)).
Proof.
  revert g i. induction requests as [|r rest IH]; intros g i Hi; [discriminate|].
  cbn [tts.serve].
  destruct (tts.get_tts_engine construct g r) as [g1 out] eqn:E1.
  specialize (IH g1).
  destruct (tts.serve construct g1 rest) as [g2 outs].
  destruct i as [|i]; cbn in Hi |- *.
  - injection Hi as ->. exists g. now rewrite E1.
  - now apply IH.
Qed.

Lemma tts_serve_sound (requests : list string) (g : tts.Globals) :
  tts_cache_sound construct g ->
  tts_cache_sound construct (fst (tts.serve construct g requests)) /\
  (length (tts.constructions (fst (tts.serve construct g requests)))
   <= length (tts.constructions g) + length requests)%nat.
Proof.
  revert g. induction requests as [|r rest IH]; intros g Hg.
  - cbn. split; [exact Hg | lia].
  - cbn [tts.serve].
    destruct (get_tts_engine_sound g r Hg) as [H1 Hlen1].
    destruct (tts.get_tts_engine construct g r) as [g1 out].
    cbn [fst] in H1, Hlen1.
    destruct (IH g1 H1) as [H2 Hlen2].
    destruct (tts.serve construct g1 rest) as [g2 outs].
    cbn [fst length] in *. split; [exact H2 | lia].
Qed.

(** X10: whatever sequence of models is requested from an empty cache,
    [get_tts_engine] only ever caches engines of models that have an entry
    in [tts_configs], each one built by a construction that succeeded for
    that very model; it constructs at most once per request; a request for
    a model without an entry raises [KeyError] (the lookup of the sample
    rate comes first) and a request that is answered comes with the sample
    rate configured for the model, one of 22050, 44100 and 24000. *)
Theorem tts_cache_only_configured_models (requests : list string) :
  let g := fst (tts.serve construct tts.no_engines requests) in
  let outs := snd (tts.serve construct tts.no_engines requests) in
  (forall (m : string) (h : nat),
     tts._tts_engines g !! m = Some h ->
     is_Some (tts.tts_configs !! m) /\
     tts.constructions g !! h = Some m /\ construct m h = Ok tt) /\
  (length (tts.constructions g) <= length requests)%nat /\
  (forall (i : nat) (m : string),
     requests !! i = Some m -> tts.tts_configs !! m = None ->
     outs !! i = Some (Raise KeyError)) /\
  (forall (i : nat) (m : string) (h : nat) (sr : Z),
     requests !! i = Some m -> outs !! i = Some (Ok (h, sr)) ->
     tts.tts_configs !! m = Some sr /\
     (sr = 22050 \/ sr = 44100 \/ sr = 24000)).
Proof.
  intros g outs.
  assert (Hinit : tts_cache_sound construct tts.no_engines).
  { split; [|constructor]. intros m h. cbn. now rewrite lookup_empty. }
  destruct (tts_serve_sound requests tts.no_engines Hinit) as [[Hc Hl] Hlen].
  fold g in Hc, Hl, Hlen. split; [|split; [|split]].
  - intros m h Hm. destruct (Hc m h Hm) as [Hat Hok].
    split; [|now split].
    rewrite List.Forall_forall in Hl. apply Hl.
    apply list_elem_of_In. eapply list_elem_of_lookup_2. exact Hat.
  - cbn in Hlen. exact Hlen.
  - intros i m Hi Hcfg.
    destruct (tts_serve_at requests tts.no_engines i m Hi) as [gi Hout].
    subst outs. rewrite Hout.
    destruct (get_tts_engine_answer gi m) as [_ Hmiss].
    now rewrite (Hmiss Hcfg).
  - intros i m h sr Hi Hout.
    destruct (tts_serve_at requests tts.no_engines i m Hi) as [gi Hat].
    subst outs. rewrite Hat in Hout. injection Hout as Hout.
    destruct (get_tts_engine_answer gi m) as [Hans _].
    rewrite Hout in Hans. split; [exact Hans|].
    clear -Hans. unfold tts.tts_configs in Hans.
    destruct (decide (m = "vits-zh-hf-theresa")) as [->|N1].
    { rewrite lookup_insert_eq in Hans. injection Hans as <-. now left. }
    rewrite lookup_insert_ne in Hans by congruence.
    destruct (decide (m = "vits-melo-tts-zh_en")) as [->|N2].
    { rewrite lookup_insert_eq in Hans. injection Hans as <-. right. now left. }
    rewrite lookup_insert_ne in Hans by congruence.
    destruct (decide (m = "kokoro-multi-lang-v1_0")) as [->|N3].
    { rewrite lookup_insert_eq in Hans. injection Hans as <-. right. now right. }
    rewrite lookup_insert_ne in Hans by congruence.
    now rewrite lookup_empty in Hans.
Qed.

End tts_cache_more.

Section speaker_cache_more.

Variable create : string -> nat -> res unit.

Lemma known_speaker_model_test (m : string) :
  String.eqb m "wespeaker-voxceleb" || String.eqb m "3dspeaker"
    || String.eqb m "nemo-speakernet" = true <-> known_speaker_model m.
Proof.
  unfold known_speaker_model. rewrite !orb_true_iff, !String.eqb_eq. tauto.
Qed.

Lemma load_speaker_engine_sound (g : speaker_id.Globals) (r : string) :
  speaker_cache_sound create g ->
  speaker_cache_sound create (fst (speaker_id.load_speaker_engine create g r)) /\
  (length (speaker_id.creations
             (fst (speaker_id.load_speaker_engine create g r)))
   <= S (length (speaker_id.creations g)))%nat.
Proof.
  intros [Hc Hl]. unfold speaker_id.load_speaker_engine.
  destruct (speaker_id._speaker_engines g !! r) as [h|] eqn:Hhit;
    [split; [now split | cbn; lia]|].
  destruct (_ || _) eqn:Hknown; [|split; [now split | cbn; lia]].
  apply known_speaker_model_test in Hknown.
  assert (Hlog : Forall known_speaker_model (speaker_id.creations g ++ [r])).
  { apply Forall_app. split; [exact Hl|]. constructor; [exact Hknown | constructor]. }
  destruct (create r (length (speaker_id.creations g))) as [[]|e] eqn:Hb;
    cbn [fst speaker_id._speaker_engines speaker_id.creations].
  - split; [split; [|exact Hlog] | rewrite length_app; simpl; lia].
    intros m h; cbn [tts._tts_engines tts.constructions
                     speaker_id._speaker_engines speaker_id.creations].
    destruct (decide (r = m)) as [->|Hne].
    + rewrite lookup_insert_eq. intros [= <-]. split; [|exact Hb].
      rewrite lookup_app_r by lia. now rewrite Nat.sub_diag.
    + rewrite lookup_insert_ne by exact Hne. intros Hm.
      destruct (Hc m h Hm) as [Hat Hok]. split; [|exact Hok].
      rewrite lookup_app_l; [exact Hat|]. now apply lookup_lt_Some in Hat.
  - split; [split; [|exact Hlog] | rewrite length_app; simpl; lia].
    intros m h; cbn [tts._tts_engines tts.constructions
                     speaker_id._speaker_engines speaker_id.creations].
    intros Hm. destruct (Hc m h Hm) as [Hat Hok]. split; [|exact Hok].
    rewrite lookup_app_l; [exact Hat|]. now apply lookup_lt_Some in Hat.
Qed.

Lemma speaker_serve_sound (requests : list string) (g : speaker_id.Globals) :
  speaker_cache_sound create g ->
  speaker_cache_sound create (fst (speaker_id.serve create g requests)) /\
  (length (speaker_id.creations (fst (speaker_id.serve create g requests)))
   <= length (speaker_id.creations g) + length requests)%nat.
Proof.
  revert g. induction requests as [|r rest IH]; intros g Hg.
  - cbn. split; [exact Hg | lia].
  - cbn [speaker_id.serve].
    destruct (load_speaker_engine_sound g r Hg) as [H1 Hlen1].
    destruct (speaker_id.load_speaker_engine create g r) as [g1 out].
    cbn [fst] in H1, Hlen1.
    destruct (IH g1 H1) as [H2 Hlen2].
    destruct (speaker_id.serve create g1 rest) as [g2 outs].
    cbn [fst length] in *. split; [exact H2 | lia].
Qed.

Lemma speaker_serve_at (requests : list string) (g : speaker_id.Globals)
    (i : nat) (m : string) :
  speaker_cache_sound create g ->
  requests !! i = Some m ->
  exists gi, speaker_cache_sound create gi /\
             snd (speaker_id.serve create g requests) !! i
             = Some (snd (speaker_id.load_speaker_engine create gi m)).
Proof.
  revert g i. induction requests as [|r rest IH]; intros g i Hg Hi;
    [discriminate|].
  cbn [speaker_id.serve].
  destruct (load_speaker_engine_sound g r Hg) as [H1 _].
  destruct (speaker_id.load_speaker_engine create g r) as [g1 out] eqn:E1.
  specialize (IH g1).
  destruct (speaker_id.serve create g1 rest) as [g2 outs].
  destruct i as [|i]; cbn in Hi |- *.
  - injection Hi as ->. exists g. split; [exact Hg|]. now rewrite E1.
  - now apply IH.
Qed.

(** X11: whatever sequence of models is requested from an empty cache,
    [load_speaker_engine] only ever caches engines of the three models it
    has a branch for, each one built by a creation that succeeded for that
    very model; it creates at most once per request, and a request for any
    other model raises [ValueError]. *)
Theorem speaker_cache_only_known_models (requests : list string) :
  let g := fst (speaker_id.serve create speaker_id.no_engines requests) in
  let outs := snd (speaker_id.serve create speaker_id.no_engines requests) in
  (forall (m : string) (h : nat),
     speaker_id._speaker_engines g !! m = Some h ->
     known_speaker_model m /\
     speaker_id.creations g !! h = Some m /\ create m h = Ok tt) /\
  (length (speaker_id.creations g) <= length requests)%nat /\
  (forall (i : nat) (m : string),
     requests !! i = Some m -> ~ known_speaker_model m ->
     outs !! i = Some (Raise ValueError)).
Proof.
  intros g outs.
  assert (Hinit : speaker_cache_sound create speaker_id.no_engines).
  { split; [|constructor]. intros m h. cbn. now rewrite lookup_empty. }
  destruct (speaker_serve_sound requests speaker_id.no_engines Hinit)
    as [[Hc Hl] Hlen].
  fold g in Hc, Hl, Hlen. split; [|split].
  - intros m h Hm. destruct (Hc m h Hm) as [Hat Hok].
    split; [|now split].
    rewrite List.Forall_forall in Hl. apply Hl.
    apply list_elem_of_In. eapply list_elem_of_lookup_2. exact Hat.
  - cbn in Hlen. exact Hlen.
  - intros i m Hi Hunknown.
    destruct (speaker_serve_at requests speaker_id.no_engines i m Hinit Hi)
      as (gi & [Hci Hli] & Hout).
    subst outs. rewrite Hout. f_equal.
    unfold speaker_id.load_speaker_engine.
    destruct (speaker_id._speaker_engines gi !! m) as [h|] eqn:Hhit.
    + exfalso. apply Hunknown. destruct (Hci m h Hhit) as [Hat _].
      rewrite List.Forall_forall in Hli. apply Hli.
      apply list_elem_of_In. eapply list_elem_of_lookup_2. exact Hat.
    + destruct (_ || _) eqn:Hk; [|reflexivity].
      apply known_speaker_model_test in Hk. contradiction.
Qed.

End speaker_cache_more.

(** ** Starting a stream *)

Section stream_starts.

Variable create : string -> nat -> res unit.
Variable speaker_engine_at :
  nat -> sherpa_onnx.SpeakerEmbeddingExtractor * sherpa_onnx.SpeakerEmbeddingManager.

(** X12: a speaker stream that [start_speaker_stream] returns uses the
    engine pair the cache answered with and the client's sample rate; it is
    open, its queues and its audio buffer are empty, its [run] task waits
    for input and its window is 3 seconds.  For the model nemo-speakernet
    the threshold is never 0.7: a configured 0.7 becomes 0.6; in every
    other case the configured threshold is used as it is. *)
Theorem start_speaker_stream_threshold (g : speaker_id.Globals)
    (samplerate : Z) (model : string) (threshold : Q)
    (g1 : speaker_id.Globals) (s : speaker_id.SpeakerStream) :
  speaker_id.start_speaker_stream create speaker_engine_at g samplerate model
    threshold = (g1, Ok s) ->
  (exists h, speaker_id.load_speaker_engine create g model = (g1, Ok h) /\
             speaker_id.extractor s = fst (speaker_engine_at h) /\
             speaker_id.manager s = snd (speaker_engine_at h)) /\
  speaker_id.sample_rate s = samplerate /\
  speaker_id.is_closed s = false /\
  speaker_id.run_task s = speaker_id.Waiting /\
  speaker_id.inbuf s = [] /\ speaker_id.outbuf s = [] /\
  speaker_id.audio_buffer s = [] /\
  speaker_id.min_duration s = 3%Q /\
  (model = "nemo-speakernet" ->
   ~ (speaker_id.identification_threshold s == 7 # 10)%Q /\
   ((threshold == 7 # 10)%Q ->
    speaker_id.identification_threshold s = (6 # 10)%Q)) /\
  ((model <> "nemo-speakernet" \/ ~ (threshold == 7 # 10)%Q) ->
   speaker_id.identification_threshold s = threshold).
Proof.
  unfold speaker_id.start_speaker_stream.
  destruct (speaker_id.load_speaker_engine create g model) as [g' [h|e]];
    [|discriminate].
  destruct (speaker_engine_at h) as [ex mg] eqn:Eh.
  intros [= <- <-].
  cbn [speaker_id.start speaker_id.loop_test speaker_id.set_run_task
       speaker_id.SpeakerStream_init speaker_id.extractor speaker_id.manager
       speaker_id.sample_rate speaker_id.is_closed speaker_id.run_task
       speaker_id.inbuf speaker_id.outbuf speaker_id.audio_buffer
       speaker_id.min_duration speaker_id.identification_threshold].
  split; [exists h; rewrite Eh; repeat split|].
  do 7 (split; [reflexivity|]). split; [|].
  - intros ->. rewrite String.eqb_refl. cbn [andb]. split.
    + destruct (Qeq_bool threshold (7 # 10)) eqn:E.
      * discriminate.
      * intros H. apply Qeq_bool_iff in H. congruence.
    + intros H. apply Qeq_bool_iff in H. now rewrite H.
  - intros [Hm|Ht].
    + apply String.eqb_neq in Hm. now rewrite Hm.
    + destruct (Qeq_bool threshold (7 # 10)) eqn:E.
      * apply Qeq_bool_iff in E. contradiction.
      * now rewrite andb_false_r.
Qed.

Variable construct : string -> nat -> res unit.
Variable tts_engine_at : nat -> sherpa_onnx.OfflineTts.
Variable int_of_str : py.str -> option Z.

Lemma start_tts_stream_ok (g g1 : tts.Globals) (sid0 : Z + py.str)
    (rate : Z) (speed0 : Q) (model : string) (s : tts.TTSStream) :
  tts.start_tts_stream construct tts_engine_at int_of_str g sid0 rate speed0
    model = (g1, Ok s) ->
  exists h sr,
    tts.get_tts_engine construct g model = (g1, Ok (h, sr)) /\
    s = tts.TTSStream_new int_of_str (tts_engine_at h) sid0 speed0 rate sr.
Proof.
  unfold tts.start_tts_stream.
  destruct (tts.get_tts_engine construct g model) as [g' [[h sr]|e]];
    [|discriminate].
  intros [= <- <-]. now exists h, sr.
Qed.

(** X13: two streams started for the same model share one engine: the
    second start leaves the globals as the first one left them (nothing is
    constructed again), both streams hold the same engine and the native
    sample rate configured for the model, each has the sample rate its own
    client asked for, and both start open with an empty queue. *)
Theorem start_tts_stream_shares_engine (g g1 g2 : tts.Globals)
    (sid1 sid2 : Z + py.str) (rate1 rate2 : Z) (speed1 speed2 : Q)
    (model : string) (s1 s2 : tts.TTSStream) :
  tts.start_tts_stream construct tts_engine_at int_of_str g sid1 rate1 speed1
    model = (g1, Ok s1) ->
  tts.start_tts_stream construct tts_engine_at int_of_str g1 sid2 rate2 speed2
    model = (g2, Ok s2) ->
  g2 = g1 /\
  tts.engine s2 = tts.engine s1 /\
  tts.original_sample_rate s2 = tts.original_sample_rate s1 /\
  tts.tts_configs !! model = Some (tts.original_sample_rate s1) /\
  tts.target_sample_rate s1 = rate1 /\ tts.target_sample_rate s2 = rate2 /\
  tts.is_closed s1 = false /\ tts.outbuf s1 = [] /\
  tts.is_closed s2 = false /\ tts.outbuf s2 = [].
Proof.
  intros H1 H2.
  apply start_tts_stream_ok in H1 as (h1 & sr1 & E1 & ->).
  apply start_tts_stream_ok in H2 as (h2 & sr2 & E2 & ->).
  pose proof (get_tts_engine_returns_cached construct g model h1 sr1) as Hc.
  rewrite E1 in Hc. specialize (Hc eq_refl). cbn [fst] in Hc.
  assert (Hcfg : tts.tts_configs !! model = Some sr1).
  { unfold tts.get_tts_engine in E1.
    destruct (tts.tts_configs !! model) as [sr|]; [|discriminate].
    destruct (tts._tts_engines g !! model).
    - now injection E1 as _ _ <-.
    - destruct (construct model _) as [[]|]; [|discriminate].
      now injection E1 as _ _ <-. }
  unfold tts.get_tts_engine in E2. rewrite Hcfg, Hc in E2.
  injection E2 as <- <- <-.
  repeat split; try reflexivity. exact Hcfg.
Qed.

(** X14: [start_tts_stream] for a model without an entry in [tts_configs]
    raises [KeyError] and leaves the globals untouched; a stream it returns
    has the requested speed and, as speaker id, the integer given, or the
    integer a string parses to, or 0 when the string is not an integer. *)
Theorem start_tts_stream_sid (g : tts.Globals) (sid0 : Z + py.str)
    (rate : Z) (speed0 : Q) (model : string) :
  (tts.tts_configs !! model = None ->
   tts.start_tts_stream construct tts_engine_at int_of_str g sid0 rate speed0
     model = (g, Raise KeyError)) /\
  (forall g1 s,
     tts.start_tts_stream construct tts_engine_at int_of_str g sid0 rate
       speed0 model = (g1, Ok s) ->
     tts.speed s = speed0 /\
     match sid0 with
     | inl z => tts.sid s = z
     | inr t => tts.sid s = default 0 (int_of_str t)
     end).
Proof.
  split.
  - intros Hcfg. unfold tts.start_tts_stream, tts.get_tts_engine.
    now rewrite Hcfg.
  - intros g1 s H. apply start_tts_stream_ok in H as (h & sr & _ & ->).
    split; [reflexivity|].
    destruct sid0 as [z|t]; cbn; [reflexivity|].
    now destruct (int_of_str t).
Qed.

End stream_starts.

Lemma start_speaker_stream_threshold_witness :
  exists g1 s,
    speaker_id.start_speaker_stream stub.always_builds
      fixture.speaker_engine_at speaker_id.no_engines 16000 stub.nemo (7 # 10)
      = (g1, Ok s) /\
    speaker_id.identification_threshold s = (6 # 10)%Q /\
    speaker_id.min_duration s = 3%Q.
Proof.
  destruct (speaker_id.start_speaker_stream stub.always_builds
              fixture.speaker_engine_at speaker_id.no_engines 16000 stub.nemo
              (7 # 10)) as [g1 [s|e]] eqn:E; [|vm_compute in E; discriminate E].
  exists g1, s. split; [reflexivity|].
  destruct (start_speaker_stream_threshold stub.always_builds
              fixture.speaker_engine_at speaker_id.no_engines 16000 stub.nemo
              (7 # 10) g1 s E)
    as (_ & _ & _ & _ & _ & _ & _ & Hmin & Hnemo & _).
  split; [|exact Hmin].
  destruct (Hnemo eq_refl) as [_ Hadjust]. apply Hadjust. reflexivity.
Defined.

Lemma start_tts_stream_shares_engine_witness :
  exists g1 s1 s2,
    tts.start_tts_stream stub.always_builds fixture.tts_engine_at
      fixture.no_int tts.no_engines (inl 0) 16000 1 stub.kokoro = (g1, Ok s1) /\
    tts.start_tts_stream stub.always_builds fixture.tts_engine_at
      fixture.no_int g1 (inl 1) 24000 1 stub.kokoro = (g1, Ok s2) /\
    tts.engine s2 = tts.engine s1 /\
    tts.original_sample_rate s1 = 24000 /\
    tts.constructions g1 = [stub.kokoro].
Proof.
  destruct (tts.start_tts_stream stub.always_builds fixture.tts_engine_at
              fixture.no_int tts.no_engines (inl 0) 16000 1 stub.kokoro)
    as [g1 [s1|e]] eqn:E1; [|vm_compute in E1; discriminate E1].
  assert (Hg1 : tts.constructions g1 = [stub.kokoro] /\
                tts._tts_engines g1 !! stub.kokoro = Some 0%nat /\
                tts.original_sample_rate s1 = 24000).
  { pose proof E1 as E. vm_compute in E. injection E as <- <-.
    repeat split; vm_compute; reflexivity. }
  destruct Hg1 as (Hlog & Hhit & Hrate).
  destruct (tts.start_tts_stream stub.always_builds fixture.tts_engine_at
              fixture.no_int g1 (inl 1) 24000 1 stub.kokoro)
    as [g2 [s2|e]] eqn:E2.
  - destruct (start_tts_stream_shares_engine stub.always_builds
                fixture.tts_engine_at fixture.no_int tts.no_engines g1 g2
                (inl 0) (inl 1) 16000 24000 1 1 stub.kokoro s1 s2 E1 E2)
      as (-> & Hengine & _).
    exists g1, s1, s2. repeat split; assumption.
  - exfalso. unfold tts.start_tts_stream, tts.get_tts_engine in E2.
    change (tts.tts_configs !! stub.kokoro) with (Some 24000) in E2.
    rewrite Hhit in E2. discriminate E2.
Defined.

(** ** The identification loop under the receive pump *)

Lemma task_recv_pcm_step (s : speaker_id.SpeakerStream) (b : list byte)
    (rest : list (list byte)) :
  b <> [] -> Z.odd (py.len b) = false ->
  app.task_recv_pcm s (b :: rest)
  = app.task_recv_pcm (speaker_id.run (queued (decoded b) s)) rest.
Proof.
  intros Hne Heven. cbn [app.task_recv_pcm].
  rewrite (write_even s b Heven). destruct b; [congruence | reflexivity].
Qed.

(** X15: the receive pump of [websocket_speaker_id] on a stream that waits
    for input, with a positive sample rate: as long as the audio buffered
    before plus the frames received (non-empty, of even length) stay below
    three seconds of 16-bit samples, the pump consumes every frame and
    stays suspended for the next one, no verdict is queued, the input
    queue is empty again and the buffer holds all the samples received, in
    order. *)
Theorem no_verdict_below_three_seconds (frames : list (list byte))
    (s : speaker_id.SpeakerStream) :
  speaker_id.run_task s = speaker_id.Waiting ->
  speaker_id.is_closed s = false ->
  speaker_id.inbuf s = [] ->
  0 < speaker_id.sample_rate s ->
  speaker_id.min_duration s = 3%Q ->
  Forall (fun b => b <> [] /\ Z.odd (py.len b) = false) frames ->
  2 * py.len (speaker_id.audio_buffer s) + py.len (concat frames)
    < 6 * speaker_id.sample_rate s ->
  exists s',
    app.task_recv_pcm s frames = (s', app.Suspended) /\
    speaker_id.outbuf s' = speaker_id.outbuf s /\
    speaker_id.audio_buffer s'
      = speaker_id.audio_buffer s ++ concat (map decoded frames) /\
    speaker_id.inbuf s' = [] /\
    speaker_id.run_task s' = speaker_id.Waiting.
Proof.
  revert s. induction frames as [|b rest IH];
    intros s Htask Hopen Hin Hrate Hmin Hall Hlen.
  - exists s. cbn. rewrite app_nil_r. repeat split; assumption.
  - apply Forall_cons in Hall as [[Hne Heven] Hall].
    rewrite (task_recv_pcm_step s b rest Hne Heven).
    set (s0 := queued (decoded b) s).
    assert (Hin0 : speaker_id.inbuf s0 = [decoded b]).
    { subst s0. cbn. now rewrite Hin. }
    unfold speaker_id.run. rewrite Hin0. cbn [length speaker_id.run_turns].
    pose proof (run_iteration_waiting s0 (decoded b) [] Htask Hin0 Hrate Hmin)
      as E.
    cbn zeta in E. rewrite E. clear E.
    change (speaker_id.sample_rate s0) with (speaker_id.sample_rate s).
    change (speaker_id.audio_buffer s0) with (speaker_id.audio_buffer s).
    pose proof (len_decoded b Heven) as Hb.
    cbn [concat] in Hlen. rewrite len_app in Hlen.
    pose proof (len_nonneg (concat rest)) as Hrest.
    destruct (3 * speaker_id.sample_rate s
                <=? py.len (speaker_id.audio_buffer s ++ decoded b)) eqn:E.
    { apply Z.leb_le in E. rewrite len_app in E. lia. }
    set (s1 := speaker_id.loop_test _).
    destruct (IH s1) as (s' & Hrun & Hout & Hbuf & Hin' & Htask');
      try assumption; try reflexivity.
    + subst s1. unfold speaker_id.loop_test. cbn. now rewrite Hopen.
    + subst s1. cbn. rewrite len_app. lia.
    + exists s'. split; [exact Hrun|]. split; [exact Hout|].
      split; [|split; assumption].
      rewrite Hbuf. subst s1. cbn. now rewrite <- app_assoc.
Qed.

Lemma duration_never_reached (n r : Z) :
  0 <= n -> r < 0 -> Qle_bool 3 (inject_Z n / inject_Z r) = false.
Proof.
  intros Hn Hr. destruct r as [|p|p]; try lia.
  unfold Qle_bool, Qdiv, Qmult, Qinv, inject_Z. simpl.
  apply Z.leb_gt. lia.
Qed.

Lemma run_iteration_bad_rate (s : speaker_id.SpeakerStream) :
  speaker_id.sample_rate s <= 0 ->
  speaker_id.min_duration s = 3%Q ->
  speaker_id.outbuf (speaker_id.run_iteration s) = speaker_id.outbuf s /\
  speaker_id.sample_rate (speaker_id.run_iteration s) = speaker_id.sample_rate s /\
  speaker_id.min_duration (speaker_id.run_iteration s) = speaker_id.min_duration s.
Proof.
  intros Hrate Hmin. unfold speaker_id.run_iteration.
  destruct (speaker_id.run_task s); try (repeat split; reflexivity).
  destruct (speaker_id.inbuf s) as [|samples0 rest]; [repeat split|].
  set (s1 := speaker_id.set_audio_buffer _ _).
  change (speaker_id.sample_rate s1) with (speaker_id.sample_rate s).
  change (speaker_id.min_duration s1) with (speaker_id.min_duration s).
  destruct (py.truediv _ _) as [duration|e] eqn:Hd; [|repeat split].
  apply truediv_inv in Hd as [N0 ->]. rewrite Hmin.
  rewrite duration_never_reached;
    [repeat split; exact Hmin | apply len_nonneg | lia].
Qed.

(** X16: a speaker stream whose sample rate is zero or negative never
    queues a verdict, however much audio it is given: with a negative rate
    the duration is never positive, and with the rate 0 the first block
    ends the [run] task with [ZeroDivisionError]. *)
Theorem no_verdict_at_non_positive_rate (n : nat)
    (s : speaker_id.SpeakerStream) :
  speaker_id.sample_rate s <= 0 ->
  speaker_id.min_duration s = 3%Q ->
  speaker_id.outbuf (speaker_id.run_turns n s) = speaker_id.outbuf s /\
  (speaker_id.sample_rate s = 0 ->
   speaker_id.run_task s = speaker_id.Waiting ->
   speaker_id.inbuf s <> [] ->
   speaker_id.run_task (speaker_id.run_iteration s)
     = speaker_id.Failed ZeroDivisionError).
Proof.
  intros Hrate Hmin. split.
  - revert s Hrate Hmin. induction n as [|n IH]; intros s Hrate Hmin;
      cbn [speaker_id.run_turns]; [reflexivity|].
    destruct (run_iteration_bad_rate s Hrate Hmin) as (Hout & Hr & Hm).
    rewrite IH; [exact Hout | lia | congruence].
  - intros E0 Htask Hin. unfold speaker_id.run_iteration. rewrite Htask.
    destruct (speaker_id.inbuf s) as [|samples0 rest]; [congruence|].
    cbn [speaker_id.set_audio_buffer speaker_id.set_inbuf
         speaker_id.sample_rate]. rewrite E0. reflexivity.
Qed.

Lemma run_iteration_idle (s : speaker_id.SpeakerStream) :
  speaker_id.run_task s <> speaker_id.Waiting ->
  speaker_id.run_iteration s = s.
Proof.
  intros H. unfold speaker_id.run_iteration.
  destruct (speaker_id.run_task s); congruence.
Qed.

Lemma run_turns_idle (n : nat) (s : speaker_id.SpeakerStream) :
  speaker_id.run_iteration s = s -> speaker_id.run_turns n s = s.
Proof.
  intros H. induction n as [|n IH]; cbn [speaker_id.run_turns]; [reflexivity|].
  now rewrite H.
Qed.

Lemma run_iteration_takes (s : speaker_id.SpeakerStream) (samples0 : list Q)
    (rest : list (list Q)) :
  speaker_id.run_task s = speaker_id.Waiting ->
  speaker_id.inbuf s = samples0 :: rest ->
  speaker_id.inbuf (speaker_id.run_iteration s) = rest /\
  speaker_id.is_closed (speaker_id.run_iteration s) = speaker_id.is_closed s /\
  (speaker_id.is_closed s = true ->
   speaker_id.run_task (speaker_id.run_iteration s) <> speaker_id.Waiting).
Proof.
  intros Htask Hin. unfold speaker_id.run_iteration. rewrite Htask, Hin.
  set (s1 := speaker_id.set_audio_buffer _ _).
  destruct (py.truediv _ _) as [duration|e].
  - assert (Hkeep : let s2 := if Qle_bool (speaker_id.min_duration s1) duration
                              then speaker_id.identify s1 else s1 in
                    speaker_id.inbuf s2 = rest /\
                    speaker_id.is_closed s2 = speaker_id.is_closed s).
    { destruct (Qle_bool _ _); [|split; reflexivity].
      destruct (identify_keeps s1) as (Hi & _ & _ & Hc). split; assumption. }
    cbn zeta in Hkeep. destruct Hkeep as [Hi Hc].
    unfold speaker_id.loop_test.
    cbn [speaker_id.set_run_task speaker_id.inbuf speaker_id.is_closed
         speaker_id.run_task].
    rewrite Hi, Hc. repeat split. intros ->. discriminate.
  - repeat split. discriminate.
Qed.

(** X17: [close()] does not wake the [run] task of a speaker stream: with
    an empty input queue the task stays as it was (suspended for input if
    it was) and [run] does nothing more.  On a closed stream the task
    makes at most one more turn: a block that is already queued is still
    taken and processed, and then the loop is left. *)
Theorem run_after_close (s : speaker_id.SpeakerStream) :
  (speaker_id.inbuf s = [] ->
   speaker_id.run (speaker_id.close s) = speaker_id.close s /\
   speaker_id.run_task (speaker_id.close s) = speaker_id.run_task s) /\
  (speaker_id.is_closed s = true ->
   forall n, speaker_id.run_turns (S n) s = speaker_id.run_iteration s) /\
  (speaker_id.is_closed s = true ->
   speaker_id.run_task s = speaker_id.Waiting ->
   forall samples0 rest,
     speaker_id.inbuf s = samples0 :: rest ->
     speaker_id.inbuf (speaker_id.run_iteration s) = rest /\
     speaker_id.run_task (speaker_id.run_iteration s) <> speaker_id.Waiting).
Proof.
  split; [|split].
  - intros Hin. unfold speaker_id.run. cbn. rewrite Hin. cbn. split; reflexivity.
  - intros Hclosed n. cbn [speaker_id.run_turns]. apply run_turns_idle.
    destruct (speaker_id.run_task s) eqn:Htask;
      try (rewrite (run_iteration_idle s) by congruence;
           apply run_iteration_idle; congruence).
    destruct (speaker_id.inbuf s) as [|samples0 rest] eqn:Hin.
    + assert (E : speaker_id.run_iteration s = s).
      { unfold speaker_id.run_iteration. now rewrite Htask, Hin. }
      now rewrite !E.
    + apply run_iteration_idle.
      destruct (run_iteration_takes s samples0 rest Htask Hin) as (_ & _ & H).
      now apply H.
  - intros Hclosed Htask samples0 rest Hin.
    destruct (run_iteration_takes s samples0 rest Htask Hin) as (Hi & _ & H).
    split; [exact Hi | now apply H].
Qed.

Lemma identify_queued (c : list Q) (s : speaker_id.SpeakerStream) :
  speaker_id.identify (queued c s) = queued c (speaker_id.identify s).
Proof.
  unfold speaker_id.identify, queued.
  cbn [speaker_id.set_inbuf speaker_id.extractor speaker_id.sample_rate
       speaker_id.audio_buffer speaker_id.manager
       speaker_id.identification_threshold].
  destruct (sherpa_onnx.is_ready _ _ _); [|reflexivity].
  destruct (negb _); reflexivity.
Qed.

Lemma run_iteration_queued (c : list Q) (s : speaker_id.SpeakerStream) :
  speaker_id.inbuf s <> [] \/ speaker_id.run_task s <> speaker_id.Waiting ->
  speaker_id.run_iteration (queued c s) = queued c (speaker_id.run_iteration s).
Proof.
  intros H. unfold speaker_id.run_iteration.
  change (speaker_id.run_task (queued c s)) with (speaker_id.run_task s).
  destruct (speaker_id.run_task s) eqn:Htask; try reflexivity.
  destruct H as [H|H]; [|congruence].
  change (speaker_id.inbuf (queued c s)) with (speaker_id.inbuf s ++ [c]).
  destruct (speaker_id.inbuf s) as [|x xs] eqn:Hin; [congruence|].
  cbn [app].
  set (s1 := speaker_id.set_audio_buffer (speaker_id.audio_buffer s ++ x)
               (speaker_id.set_inbuf xs s)).
  change (speaker_id.set_audio_buffer
            (speaker_id.audio_buffer (queued c s) ++ x)
            (speaker_id.set_inbuf (xs ++ [c]) (queued c s)))
    with (queued c s1) at 1 2 3.
  change (speaker_id.set_audio_buffer
            (speaker_id.audio_buffer (queued c s) ++ x)
            (speaker_id.set_inbuf (xs ++ [c]) (queued c s)))
    with (queued c s1).
  change (speaker_id.audio_buffer (queued c s1)) with (speaker_id.audio_buffer s1).
  change (speaker_id.sample_rate (queued c s1)) with (speaker_id.sample_rate s1).
  change (speaker_id.min_duration (queued c s1)) with (speaker_id.min_duration s1).
  destruct (py.truediv _ _) as [duration|e]; [|reflexivity].
  destruct (Qle_bool _ _); [|reflexivity].
  rewrite identify_queued. reflexivity.
Qed.

Lemma run_queued (n : nat) (c : list Q) (s : speaker_id.SpeakerStream) :
  length (speaker_id.inbuf s) = n ->
  speaker_id.run (queued c (speaker_id.run s)) = speaker_id.run (queued c s).
Proof.
  revert s. induction n as [|n IH]; intros s Hn.
  - unfold speaker_id.run at 2. rewrite Hn. reflexivity.
  - destruct (speaker_id.inbuf s) as [|x xs] eqn:Hin; [discriminate|].
    assert (Hcase : speaker_id.run_task s = speaker_id.Waiting \/
                    speaker_id.run_task s <> speaker_id.Waiting).
    { destruct (speaker_id.run_task s); [right|left|right|right]; congruence. }
    destruct Hcase as [Htask|Htask].
    + destruct (run_iteration_takes s x xs Htask Hin) as (Hi & _ & _).
      assert (E1 : speaker_id.run s
                   = speaker_id.run (speaker_id.run_iteration s)).
      { unfold speaker_id.run. rewrite Hin, Hi. simpl in Hn.
        injection Hn as Hn. reflexivity. }
      assert (E2 : speaker_id.run (queued c s)
                   = speaker_id.run (queued c (speaker_id.run_iteration s))).
      { unfold speaker_id.run.
        change (speaker_id.inbuf (queued c ?t)) with (speaker_id.inbuf t ++ [c]).
        rewrite Hin, Hi. cbn [app length speaker_id.run_turns].
        rewrite run_iteration_queued by (left; congruence).
        rewrite !length_app. cbn [length].
        replace (length xs + 1)%nat with (S (length xs)) by lia.
        reflexivity. }
      rewrite E1, E2. apply IH. rewrite Hi. simpl in Hn. lia.
    + assert (Eid : forall t, speaker_id.run_task t = speaker_id.run_task s ->
                              forall k, speaker_id.run_turns k t = t).
      { intros t Ht k. apply run_turns_idle, run_iteration_idle. congruence. }
      unfold speaker_id.run. rewrite (Eid s eq_refl).
      rewrite !(Eid (queued c s) eq_refl). reflexivity.
Qed.

(** X18: the verdicts of a speaker stream do not depend on when the [run]
    task gets its turn: whether it processes the queued blocks before a
    (well-formed) buffer is written or only afterwards, the stream ends in
    the same state, with the same verdicts in the same order. *)
Theorem verdicts_independent_of_schedule (s : speaker_id.SpeakerStream)
    (b : list byte) :
  Z.odd (py.len b) = false ->
  speaker_id.run (fst (speaker_id.write (speaker_id.run s) b))
  = speaker_id.run (fst (speaker_id.write s b)).
Proof.
  intros Heven. rewrite !(write_even _ b Heven). cbn [fst].
  apply (run_queued (length (speaker_id.inbuf s)) (decoded b) s). reflexivity.
Qed.

Lemma task_recv_pcm_app (good : list (list byte)) (tail : list (list byte))
    (s : speaker_id.SpeakerStream) :
  Forall (fun b => b <> [] /\ Z.odd (py.len b) = false) good ->
  snd (app.task_recv_pcm s good) = app.Suspended /\
  app.task_recv_pcm s (good ++ tail)
  = app.task_recv_pcm (fst (app.task_recv_pcm s good)) tail.
Proof.
  intros Hall. revert s. induction Hall as [|b good [Hne Heven] _ IH]; intros s.
  - split; reflexivity.
  - cbn [app]. rewrite !(task_recv_pcm_step s b _ Hne Heven). apply IH.
Qed.

(** X19: how the receive pump of [websocket_speaker_id] ends.  After any
    number of well-formed frames it is still suspended; an empty frame
    makes it return; a frame of odd length ends it with the [ValueError] of
    [np.frombuffer].  In both cases the frames that follow are not read,
    and the stream is as the well-formed frames before left it. *)
Theorem recv_pump_stops (s : speaker_id.SpeakerStream)
    (good : list (list byte)) (stop : list byte) (rest : list (list byte)) :
  Forall (fun b => b <> [] /\ Z.odd (py.len b) = false) good ->
  let s' := fst (app.task_recv_pcm s good) in
  app.task_recv_pcm s good = (s', app.Suspended) /\
  (stop = [] ->
   app.task_recv_pcm s (good ++ stop :: rest) = (s', app.Returned)) /\
  (Z.odd (py.len stop) = true ->
   app.task_recv_pcm s (good ++ stop :: rest) = (s', app.Raised ValueError)).
Proof.
  intros Hall s'. destruct (task_recv_pcm_app good (stop :: rest) s Hall)
    as [Hs E]. rewrite E. fold s'. split; [|split].
  - subst s'. destruct (app.task_recv_pcm s good) as [s1 e].
    cbn [fst snd] in *. now subst e.
  - intros ->. reflexivity.
  - intros Hodd. cbn [app.task_recv_pcm].
    destruct stop as [|x stop']; [discriminate|].
    unfold speaker_id.write. now rewrite frombuffer_odd.
Qed.

Lemma no_verdict_below_three_seconds_witness :
  exists s',
    app.task_recv_pcm stub.speaker_stream_4hz [[x00; x40]; [x00; x40]]
      = (s', app.Suspended) /\
    speaker_id.outbuf s' = [] /\
    speaker_id.audio_buffer s'
      = concat (map decoded [[x00; x40]; [x00; x40]]).
Proof.
  destruct (no_verdict_below_three_seconds [[x00; x40]; [x00; x40]]
              stub.speaker_stream_4hz)
    as (s' & Hrun & Hout & Hbuf & _);
    [reflexivity | reflexivity | reflexivity | reflexivity | reflexivity
    | repeat constructor; discriminate | reflexivity |].
  exists s'. repeat split; assumption.
Defined.

Lemma no_verdict_at_non_positive_rate_witness :
  speaker_id.outbuf
    (speaker_id.run_turns 1
       (queued (decoded (stub.silence 24)) fixture.speaker_stream_0hz)) = [] /\
  speaker_id.run_task
    (speaker_id.run_iteration
       (queued (decoded (stub.silence 24)) fixture.speaker_stream_0hz))
    = speaker_id.Failed ZeroDivisionError.
Proof.
  destruct (no_verdict_at_non_positive_rate 1
              (queued (decoded (stub.silence 24)) fixture.speaker_stream_0hz))
    as [Hout Hfail]; [vm_compute; discriminate | reflexivity |].
  split; [exact Hout|].
  apply Hfail; [reflexivity | reflexivity | discriminate].
Defined.

Lemma verdicts_independent_of_schedule_witness :
  let s := queued (decoded (fixture.loud 12)) stub.speaker_stream_4hz in
  speaker_id.run (fst (speaker_id.write (speaker_id.run s) (stub.silence 24)))
  = speaker_id.run (fst (speaker_id.write s (stub.silence 24))).
Proof.
  intros s. apply (verdicts_independent_of_schedule s (stub.silence 24)).
  reflexivity.
Defined.

Lemma recv_pump_stops_witness :
  let s' := fst (app.task_recv_pcm stub.speaker_stream_4hz [[x00; x40]]) in
  app.task_recv_pcm stub.speaker_stream_4hz ([[x00; x40]] ++ [] :: [[x01; x02]])
    = (s', app.Returned) /\
  app.task_recv_pcm stub.speaker_stream_4hz
    ([[x00; x40]] ++ [x01; x02; x03] :: [[x01; x02]])
    = (s', app.Raised ValueError).
Proof.
  intros s'. split.
  - destruct (recv_pump_stops stub.speaker_stream_4hz [[x00; x40]] []
                [[x01; x02]]) as (_ & Hreturn & _);
      [repeat constructor; discriminate|].
    apply Hreturn. reflexivity.
  - destruct (recv_pump_stops stub.speaker_stream_4hz [[x00; x40]]
                [x01; x02; x03] [[x01; x02]]) as (_ & _ & Hraise);
      [repeat constructor; discriminate|].
    apply Hraise. reflexivity.
Defined.

(** ** Enrolling a speaker *)

(** X20: [register_speaker] when the extractor is not ready returns [False]
    and changes nothing.  When it is ready it returns [True], hands the
    name and the embedding to the manager, stores the embedding under the
    name in [registered_speakers], and touches one file only, chosen by the
    dimension of the embedding (256: the nemo file): a readable file gets
    the name set to the new embedding and keeps every other name, a missing
    file is created with that single entry, and a file that cannot be
    loaded is left as it is while the call still returns [True]. *)
Theorem register_speaker_persists (s : speaker_id.SpeakerStream)
    (models_root name : string) (en : speaker_id.Enrollment)
    (audio_samples : list Q) :
  let e := sherpa_onnx.compute (speaker_id.extractor s)
             (speaker_id.sample_rate s) audio_samples in
  let path := speaker_id.path_join models_root
                (if py.len e =? 256 then "registered_speakers_nemo.json"
                 else "registered_speakers.json") in
  let en' := fst (speaker_id.register_speaker s models_root en name
                    audio_samples) in
  (sherpa_onnx.is_ready (speaker_id.extractor s) (speaker_id.sample_rate s)
     audio_samples = false ->
   speaker_id.register_speaker s models_root en name audio_samples
     = (en, false)) /\
  (sherpa_onnx.is_ready (speaker_id.extractor s) (speaker_id.sample_rate s)
     audio_samples = true ->
   snd (speaker_id.register_speaker s models_root en name audio_samples)
     = true /\
   speaker_id.registered_speakers en' !! name = Some e /\
   speaker_id.added en' = speaker_id.added en ++ [(name, e)] /\
   (forall other, other <> path ->
      speaker_id.files en' !! other = speaker_id.files en !! other) /\
   match speaker_id.files en !! path with
   | Some speaker_id.Unreadable =>
       speaker_id.files en' !! path = Some speaker_id.Unreadable
   | Some (speaker_id.Json d) =>
       exists d', speaker_id.files en' !! path = Some (speaker_id.Json d') /\
                  d' !! name = Some e /\
                  forall k, k <> name -> d' !! k = d !! k
   | None =>
       exists d', speaker_id.files en' !! path = Some (speaker_id.Json d') /\
                  d' !! name = Some e /\
                  forall k, k <> name -> d' !! k = None
   end).
Proof.
  intros e path en'. subst en'. unfold speaker_id.register_speaker. split.
  - now intros ->.
  - intros ->. fold e.
    assert (Hpath : (if py.len e =? 256
            then speaker_id.path_join models_root "registered_speakers_nemo.json"
            else speaker_id.path_join models_root "registered_speakers.json")
            = path).
    { subst path. now destruct (py.len e =? 256). }
    rewrite Hpath. cbn [fst snd speaker_id.registered_speakers
                        speaker_id.added speaker_id.files].
    split; [reflexivity|]. split; [apply lookup_insert_eq|].
    split; [reflexivity|]. split.
    + intros other Hne.
      destruct (speaker_id.files en !! path) as [[d|]|];
        try reflexivity; now rewrite lookup_insert_ne by congruence.
    + destruct (speaker_id.files en !! path) as [[d|]|] eqn:Hf.
      * eexists. split; [apply lookup_insert_eq|].
        split; [apply lookup_insert_eq|].
        intros k Hk. now rewrite lookup_insert_ne by congruence.
      * exact Hf.
      * eexists. split; [apply lookup_insert_eq|].
        split; [apply lookup_insert_eq|].
        intros k Hk. rewrite lookup_insert_ne by congruence.
        apply lookup_empty.
Qed.

(** ** The text pump of [websocket_tts] *)

Section undisturbed_write.

Variable resample : list Q -> Z -> res (list Q).

Lemma grows_quietly_refl (s : tts.TTSStream) : grows_quietly s s.
Proof. split; [reflexivity|]. exists []. now rewrite app_nil_r. Qed.

Lemma grows_quietly_trans (s1 s2 s3 : tts.TTSStream) :
  grows_quietly s1 s2 -> grows_quietly s2 s3 -> grows_quietly s1 s3.
Proof.
  intros (Hc1 & new1 & Ho1 & Ha1) (Hc2 & new2 & Ho2 & Ha2).
  split; [congruence|]. exists (new1 ++ new2). split.
  - rewrite Ho2, Ho1, map_app. now rewrite <- app_assoc.
  - apply Forall_app. now split.
Qed.

Lemma on_process_quiet (s s' : tts.TTSStream) (chunk : list Q) (p : Q) (r : Z) :
  tts.on_process resample s chunk p = Ok (s', r) -> grows_quietly s s'.
Proof.
  unfold tts.on_process. destruct (tts.is_closed s) eqn:Hc.
  - intros [= <- _]. apply grows_quietly_refl.
  - intros H. apply bind_ok in H as (chunk' & _ & H). injection H as <- _.
    split; [reflexivity|]. eexists [_]. split; [reflexivity|].
    constructor; [|constructor]. now eexists.
Qed.

Lemma callbacks_grow_quietly (todo : list (list Q * Q)) (s s' : tts.TTSStream)
    (k k' : nat) :
  tts.callbacks resample (fun _ => false) s todo k = Ok (s', k') ->
  grows_quietly s s'.
Proof.
  revert s k. induction todo as [|[chunk p] rest IH]; intros s k;
    cbn [tts.callbacks].
  - intros [= <- _]. apply grows_quietly_refl.
  - intros H. apply bind_ok in H as ([s1 r] & Hcb & H).
    apply on_process_quiet in Hcb.
    eapply grows_quietly_trans; [exact Hcb|].
    destruct (r =? 0).
    + injection H as <- _. apply grows_quietly_refl.
    + eapply IH. exact H.
Qed.

Lemma write_segment_grows_quietly (split : bool) (pause : Q) (ntexts : Z)
    (s s' : tts.TTSStream) (acc acc' : tts.Locals) (it : nat * py.str) :
  tts.write_segment resample tts.quiet split pause ntexts (s, acc) it
    = Ok (s', acc') ->
  grows_quietly s s'.
Proof.
  destruct it as [idx text0]. unfold tts.write_segment.
  destruct (py.strip text0) as [|c text];
    [intros [= <- _]; apply grows_quietly_refl|].
  intros H. apply bind_ok in H as ([s1 audio] & Hgen & H).
  unfold tts.to_thread_generate in Hgen.
  apply bind_ok in Hgen as ([s0 k] & Hcb & Hgen). injection Hgen as <- _.
  apply callbacks_grow_quietly in Hcb.
  destruct audio as [audio|]; [|now injection H as <- _].
  destruct (_ || _); [now injection H as <- _|].
  apply bind_ok in H as ([[s2 samples'] gap] & Hgap & H).
  apply bind_ok in H as (d & _ & H). injection H as <- _.
  eapply grows_quietly_trans; [exact Hcb|].
  destruct (split && _).
  - apply bind_ok in Hgap as (noise & _ & Hgap).
    apply bind_ok in Hgap as ([s3 r] & Hnoise & Hgap).
    injection Hgap as <- _ _. eapply on_process_quiet. exact Hnoise.
  - injection Hgap as <- _ _. apply grows_quietly_refl.
Qed.

Lemma write_loop_grows_quietly (split : bool) (pause : Q) (ntexts : Z)
    (its : list (nat * py.str)) (s s' : tts.TTSStream)
    (acc acc' : tts.Locals) :
  tts.write_loop resample tts.quiet split pause ntexts its (s, acc)
    = Ok (s', acc') ->
  grows_quietly s s'.
Proof.
  revert s acc. induction its as [|it rest IH]; intros s acc;
    cbn [tts.write_loop].
  - intros [= <- _]. apply grows_quietly_refl.
  - intros H. apply bind_ok in H as ([s1 acc1] & Hseg & Hrest).
    eapply grows_quietly_trans;
      [eapply write_segment_grows_quietly; exact Hseg|].
    eapply IH. exact Hrest.
Qed.

Lemma write_quiet (t_start t_end : Q) (s s' : tts.TTSStream) (text : py.str)
    (split : bool) (pause : Q) :
  tts.write resample tts.quiet t_start t_end s text split pause = Ok s' ->
  tts.is_closed s' = tts.is_closed s /\
  exists chunks r,
    tts.outbuf s' = tts.outbuf s ++ map Some (chunks ++ [r]) /\
    Forall is_chunk chunks /\ tts.finished r = true.
Proof.
  unfold tts.write. intros H. apply bind_ok in H as ([s1 acc] & Hseg & H).
  injection H as <-. unfold tts.write_segments in Hseg.
  apply write_loop_grows_quietly in Hseg as (Hc & new & Hout & Hall).
  cbn [tts.put_nowait tts.is_closed tts.outbuf]. split; [exact Hc|].
  exists new, (tts.final_result (t_end - t_start) acc).
  rewrite Hout, map_app, <- app_assoc. repeat split. exact Hall.
Qed.

End undisturbed_write.

Lemma finals_app (q1 q2 : list (option tts.TTSResult)) :
  finals (q1 ++ q2) = (finals q1 + finals q2)%nat.
Proof. unfold finals. now rewrite List.filter_app, length_app. Qed.

Lemma finals_chunks (chunks : list tts.TTSResult) :
  Forall is_chunk chunks -> finals (map Some chunks) = 0%nat.
Proof.
  induction 1 as [|c chunks [b ->] _ IH]; [reflexivity|]. exact IH.
Qed.

Lemma chunks_sendable (chunks : list tts.TTSResult) :
  Forall is_chunk chunks ->
  Forall (fun r => tts.finished r = true \/ tts.pcm_bytes r <> None) chunks.
Proof.
  intros H. eapply Forall_impl; [exact H|]. intros r [b ->]. now right.
Qed.

Lemma pump_after_interrupt (chunk_size : Z) (t : tts.TTSStream) :
  0 < chunk_size -> closed_after_write t ->
  exists sent r t',
    app.task_send_pcm chunk_size t = (sent ++ [app.send_json r], t', app.Returned)
    /\ tts.finished r = true /\ tts.outbuf t' = [].
Proof.
  intros Hk (_ & q & Hout & chunks & r & -> & Hchunks & Hfin).
  assert (Hall : Forall (fun r => tts.finished r = true \/ tts.pcm_bytes r <> None)
                   (chunks ++ [r])).
  { apply Forall_app. split; [now apply chunks_sendable|].
    constructor; [now left | constructor]. }
  unfold app.task_send_pcm.
  assert (Hlen : (length (chunks ++ [r]) < length (tts.outbuf t))%nat).
  { rewrite Hout, !length_app, length_map, length_app. simpl. lia. }
  destruct (send_turns_to_sentinel chunk_size (chunks ++ [r]) []
              (length (tts.outbuf t)) t Hk Hout Hall Hlen)
    as (groups & t' & Hrun & Hafter & Hgroups).
  apply Forall2_app_inv_l in Hgroups
    as (groups1 & groups2 & _ & Hlast & ->).
  inversion Hlast as [|? g ? ? Hg Hnil]; subst. inversion Hnil; subst.
  unfold sent_for in Hg. rewrite Hfin in Hg. subst g.
  exists (concat groups1), r, t'. rewrite Hrun, concat_app. cbn [concat].
  rewrite app_nil_r. repeat split; assumption.
Qed.

Section text_pump.

Variable resample : list Q -> Z -> res (list Q).
Variable construct : string -> nat -> res unit.
Variable engine_at : nat -> sherpa_onnx.OfflineTts.
Variable int_of_str : py.str -> option Z.
Variable sid : Z + py.str.
Variable samplerate : Z.
Variable speed : Q.
Variable split : bool.
Variable tts_model : string.
Variable times : nat -> Q * Q.

Lemma fresh_stream (g g1 : tts.Globals) (s : tts.TTSStream) :
  tts.start_tts_stream construct engine_at int_of_str g sid samplerate speed
    tts_model = (g1, Ok s) ->
  tts.is_closed s = false /\ tts.outbuf s = [].
Proof.
  unfold tts.start_tts_stream.
  destruct (tts.get_tts_engine construct g tts_model) as [g' [[h sr]|e]];
    [|discriminate].
  intros [= <- <-]. split; reflexivity.
Qed.

Lemma close_after_write (t : tts.TTSStream) :
  open_after_write t -> closed_after_write (tts.close t).
Proof.
  intros [_ Hq]. split; [reflexivity|]. exists (tts.outbuf t). now split.
Qed.

Lemma next_stream_interrupting (st st1 : app.Session) (stream : tts.TTSStream) :
  app.next_stream construct engine_at int_of_str true sid samplerate speed
    tts_model st = (st1, Ok stream) ->
  session_ok st ->
  Forall closed_after_write (app.replaced st1) /\
  tts.is_closed stream = false /\ tts.outbuf stream = [] /\
  length (app.replaced st1)
  = (length (app.replaced st)
     + match app.tts_stream st with Some _ => 1 | None => 0 end)%nat.
Proof.
  unfold app.next_stream. intros H [Hold Hcur].
  destruct (app.tts_stream st) as [current|].
  - destruct (tts.start_tts_stream _ _ _ _ _ _ _ _) as [g1 [fresh|e]] eqn:E;
      [|discriminate].
    injection H as <- <-. destruct (fresh_stream _ _ _ E) as [Ho He].
    cbn [app.replaced app.tts_stream]. repeat split; try assumption.
    + apply Forall_app. split; [exact Hold|].
      constructor; [now apply close_after_write | constructor].
    + rewrite length_app. reflexivity.
  - destruct (tts.start_tts_stream _ _ _ _ _ _ _ _) as [g1 [fresh|e]] eqn:E;
      [|discriminate].
    injection H as <- <-. destruct (fresh_stream _ _ _ E) as [Ho He].
    cbn [app.replaced app.tts_stream]. repeat split; try assumption. lia.
Qed.

Lemma task_recv_text_interrupting (texts : list py.str) (k : nat)
    (st st' : app.Session) :
  app.task_recv_text resample construct engine_at int_of_str true sid
    samplerate speed split tts_model times k st texts = (st', app.Suspended) ->
  session_ok st ->
  session_ok st' /\
  (texts <> [] ->
   (length (app.replaced st') + 1
    = length (app.replaced st) + length texts
      + match app.tts_stream st with Some _ => 1 | None => 0 end)%nat).
Proof.
  revert k st. induction texts as [|text rest IH]; intros k st Hrun Hok.
  - cbn in Hrun. injection Hrun as <-. split; [exact Hok | congruence].
  - cbn [app.task_recv_text] in Hrun.
    destruct text as [|c text']; [discriminate|].
    destruct (app.next_stream _ _ _ _ _ _ _ _ _) as [st1 [stream|e]] eqn:En;
      [|discriminate].
    destruct (next_stream_interrupting st st1 stream En Hok)
      as (Hold & Hopen & Hempty & Hlen).
    destruct (times k) as [t_start t_end].
    destruct (tts.write _ _ _ _ _ _ _ _) as [stream'|e] eqn:Ew; [|discriminate].
    destruct (write_quiet resample _ _ _ _ _ _ _ Ew)
      as (Hc & chunks & r & Hout & Hchunks & Hfin).
    rewrite Hempty in Hout. cbn [app] in Hout.
    set (st2 := app.mkSession (app.globals st1) (Some stream')
                  (app.replaced st1)) in *.
    assert (Hok2 : session_ok st2).
    { split; [exact Hold|]. cbn [st2 app.tts_stream].
      split; [congruence|]. now exists chunks, r. }
    destruct (IH (S k) st2 Hrun Hok2) as [Hok' Hcount].
    split; [exact Hok'|]. intros _.
    destruct rest as [|text2 rest'].
    + cbn in Hrun. injection Hrun as <-.
      cbn [app.replaced st2 length]. lia.
    + specialize (Hcount ltac:(discriminate)).
      cbn [app.replaced app.tts_stream st2 length] in Hcount |- *. lia.
Qed.

(** X21: the text pump of [websocket_tts] with [interrupt] set, on a new
    connection, after it has processed a non-empty sequence of texts (no
    other coroutine closing a stream meanwhile).  Every text got a stream
    of its own, so all but the last stream were replaced.  A replaced
    stream is never closed in the middle of its utterance: its queue holds
    the chunks of the utterance, the terminal result and then the sentinel,
    so a send pump reading that stream (positive [chunk_size]) sends the
    whole utterance, the JSON summary last, and then returns.  The current
    stream is open and holds the complete last utterance. *)
Theorem interrupt_closes_finished_streams (texts : list py.str)
    (st' : app.Session) (g : tts.Globals) (chunk_size : Z) :
  app.task_recv_text resample construct engine_at int_of_str true sid
    samplerate speed split tts_model times 0
    (app.mkSession g None []) texts = (st', app.Suspended) ->
  texts <> [] -> 0 < chunk_size ->
  (exists current, app.tts_stream st' = Some current /\
                   tts.is_closed current = false /\
                   utterance (tts.outbuf current)) /\
  (length (app.replaced st') + 1 = length texts)%nat /\
  Forall (fun t =>
            tts.is_closed t = true /\
            (exists q, tts.outbuf t = q ++ [None] /\ utterance q) /\
            exists sent r t',
              app.task_send_pcm chunk_size t
              = (sent ++ [app.send_json r], t', app.Returned) /\
              tts.finished r = true /\ tts.outbuf t' = [])
         (app.replaced st').
Proof.
  intros Hrun Htexts Hk.
  destruct (task_recv_text_interrupting texts 0 (app.mkSession g None []) st'
              Hrun) as [[Hold Hcur] Hcount].
  { split; [constructor | exact I]. }
  specialize (Hcount Htexts). cbn [app.replaced app.tts_stream length] in Hcount.
  split; [|split].
  - destruct (app.tts_stream st') as [current|] eqn:E.
    + exists current. destruct Hcur as [Ho Hu]. now repeat split.
    + exfalso. clear Hold Hcur Hcount.
      revert Hrun E Htexts. generalize (app.mkSession g None []) 0%nat.
      induction texts as [|text rest IH]; intros st k Hrun E Htexts;
        [congruence|].
      cbn [app.task_recv_text] in Hrun.
      destruct text as [|c text']; [discriminate|].
      destruct (app.next_stream _ _ _ _ _ _ _ _ _) as [st1 [stream|e]];
        [|discriminate].
      destruct (times k) as [t_start t_end].
      destruct (tts.write _ _ _ _ _ _ _ _) as [stream'|e]; [|discriminate].
      destruct rest as [|text2 rest'].
      * cbn in Hrun. injection Hrun as <-. discriminate.
      * eapply IH; [exact Hrun | exact E | discriminate].
  - lia.
  - eapply Forall_impl; [exact Hold|]. intros t Ht.
    split; [apply Ht|]. split; [apply Ht|].
    now apply pump_after_interrupt.
Qed.

(** Without [interrupt] the stream started for the first text is kept. *)
Lemma task_recv_text_keeping (texts : list py.str) (k : nat)
    (st st' : app.Session) (current : tts.TTSStream) :
  app.task_recv_text resample construct engine_at int_of_str false sid
    samplerate speed split tts_model times k st texts = (st', app.Suspended) ->
  app.tts_stream st = Some current ->
  app.globals st' = app.globals st /\
  app.replaced st' = app.replaced st /\
  exists current' new,
    app.tts_stream st' = Some current' /\
    tts.is_closed current' = tts.is_closed current /\
    tts.outbuf current' = tts.outbuf current ++ map Some new /\
    finals (map Some new) = length texts /\
    (forall r, In r new -> tts.finished r = false -> is_chunk r).
Proof.
  revert k st current. induction texts as [|text rest IH];
    intros k st current Hrun Hcur.
  - cbn in Hrun. injection Hrun as <-. repeat split.
    exists current, []. rewrite app_nil_r. repeat split; try assumption.
    intros r [].
  - cbn [app.task_recv_text] in Hrun.
    destruct text as [|c text']; [discriminate|].
    unfold app.next_stream in Hrun. rewrite Hcur in Hrun.
    destruct (times k) as [t_start t_end].
    destruct (tts.write _ _ _ _ _ _ _ _) as [stream'|e] eqn:Ew; [|discriminate].
    destruct (write_quiet resample _ _ _ _ _ _ _ Ew)
      as (Hc & chunks & r & Hout & Hchunks & Hfin).
    destruct (IH (S k) _ stream' Hrun eq_refl)
      as (Hg & Hrep & current' & new & Hcur' & Hc' & Hout' & Hn & Hnew).
    cbn [app.globals app.replaced] in Hg, Hrep.
    repeat split; try assumption.
    exists current', ((chunks ++ [r]) ++ new).
    split; [exact Hcur'|]. split; [congruence|].
    split; [rewrite Hout', Hout, (List.map_app Some (chunks ++ [r]) new);
            now rewrite <- app_assoc|].
    split.
    + rewrite !map_app, !finals_app, finals_chunks by exact Hchunks.
      rewrite Hn. cbn [map length]. unfold finals. cbn [List.filter].
      rewrite Hfin. reflexivity.
    + intros x Hx Hxf. apply in_app_or in Hx as [Hx|Hx]; [|now apply Hnew].
      apply in_app_or in Hx as [Hx|[<-|[]]]; [|congruence].
      rewrite List.Forall_forall in Hchunks. now apply Hchunks.
Qed.

(** X22: the text pump of [websocket_tts] without [interrupt], on a new
    connection, after it has processed a non-empty sequence of texts: one
    stream was started, for the first text, and no other (the globals are
    those left by that one start, nothing was replaced); the stream is
    still open, no sentinel is on its queue, and the queue holds the
    utterances in order, with exactly one terminal result per text and
    otherwise chunks of audio. *)
Theorem no_interrupt_one_stream (texts : list py.str)
    (st' : app.Session) (g : tts.Globals) :
  app.task_recv_text resample construct engine_at int_of_str false sid
    samplerate speed split tts_model times 0
    (app.mkSession g None []) texts = (st', app.Suspended) ->
  texts <> [] ->
  app.replaced st' = [] /\
  exists g1 fresh current results,
    tts.start_tts_stream construct engine_at int_of_str g sid samplerate
      speed tts_model = (g1, Ok fresh) /\
    app.globals st' = g1 /\
    app.tts_stream st' = Some current /\
    tts.is_closed current = false /\
    tts.outbuf current = map Some results /\
    finals (tts.outbuf current) = length texts /\
    (forall r, In r results -> tts.finished r = false -> is_chunk r).
Proof.
  intros Hrun Htexts. destruct texts as [|text rest]; [congruence|].
  cbn [app.task_recv_text] in Hrun.
  destruct text as [|c text']; [discriminate|].
  unfold app.next_stream in Hrun. cbn [app.tts_stream app.globals] in Hrun.
  destruct (tts.start_tts_stream _ _ _ _ _ _ _ _) as [g1 [fresh|e]] eqn:E;
    [|discriminate].
  destruct (fresh_stream _ _ _ E) as [Ho He].
  destruct (times 0%nat) as [t_start t_end].
  destruct (tts.write _ _ _ _ _ _ _ _) as [stream'|e] eqn:Ew; [|discriminate].
  destruct (write_quiet resample _ _ _ _ _ _ _ Ew)
    as (Hc & chunks & r & Hout & Hchunks & Hfin).
  rewrite He in Hout. cbn [app] in Hout.
  destruct (task_recv_text_keeping rest 1 _ st' stream' Hrun eq_refl)
    as (Hg & Hrep & current' & new & Hcur' & Hc' & Hout' & Hn & Hnew).
  cbn [app.globals app.replaced] in Hg, Hrep.
  split; [exact Hrep|].
  exists g1, fresh, current', ((chunks ++ [r]) ++ new).
  split; [reflexivity|]. split; [exact Hg|]. split; [exact Hcur'|].
  split; [congruence|].
  split; [rewrite Hout', Hout, (List.map_app Some (chunks ++ [r]) new);
          reflexivity|].
  split.
  - rewrite Hout', Hout, finals_app, map_app, finals_app,
      finals_chunks by exact Hchunks.
    rewrite Hn. cbn [map length]. unfold finals. cbn [List.filter].
    rewrite Hfin. reflexivity.
  - intros x Hx Hxf. apply in_app_or in Hx as [Hx|Hx]; [|now apply Hnew].
    apply in_app_or in Hx as [Hx|[<-|[]]]; [|congruence].
    rewrite List.Forall_forall in Hchunks. now apply Hchunks.
Qed.

End text_pump.

Lemma interrupt_closes_finished_streams_witness :
  exists st',
    app.task_recv_text stub.nearest stub.always_builds fixture.tts_engine_at
      fixture.no_int true (inl 0) 24000 1 false stub.kokoro fixture.one_second
      0 fixture.new_session [stub.hello; stub.hello] = (st', app.Suspended) /\
    length (app.replaced st') = 1%nat /\
    Forall (fun t =>
              tts.is_closed t = true /\
              exists sent r t',
                app.task_send_pcm 1024 t
                = (sent ++ [app.send_json r], t', app.Returned) /\
                tts.finished r = true /\ tts.outbuf t' = [])
           (app.replaced st').
Proof.
  destruct (app.task_recv_text stub.nearest stub.always_builds
              fixture.tts_engine_at fixture.no_int true (inl 0) 24000 1 false
              stub.kokoro fixture.one_second 0 fixture.new_session
              [stub.hello; stub.hello]) as [st' e] eqn:E.
  assert (He : e = app.Suspended).
  { pose proof E as E'. vm_compute in E'. now injection E' as _ <-. }
  subst e. exists st'. split; [reflexivity|].
  destruct (interrupt_closes_finished_streams stub.nearest stub.always_builds
              fixture.tts_engine_at fixture.no_int (inl 0) 24000 1 false
              stub.kokoro fixture.one_second [stub.hello; stub.hello] st'
              tts.no_engines 1024 E)
    as (_ & Hcount & Hreplaced); [discriminate | lia |].
  split; [simpl in Hcount; lia|].
  eapply Forall_impl; [exact Hreplaced|].
  intros t (Hclosed & _ & Hpump). now split.
Defined.

Lemma no_interrupt_one_stream_witness :
  exists st' current,
    app.task_recv_text stub.nearest stub.always_builds fixture.tts_engine_at
      fixture.no_int false (inl 0) 24000 1 false stub.kokoro fixture.one_second
      0 fixture.new_session [stub.hello; stub.hello] = (st', app.Suspended) /\
    app.replaced st' = [] /\
    app.tts_stream st' = Some current /\
    tts.is_closed current = false /\
    finals (tts.outbuf current) = 2%nat.
Proof.
  destruct (app.task_recv_text stub.nearest stub.always_builds
              fixture.tts_engine_at fixture.no_int false (inl 0) 24000 1 false
              stub.kokoro fixture.one_second 0 fixture.new_session
              [stub.hello; stub.hello]) as [st' e] eqn:E.
  assert (He : e = app.Suspended).
  { pose proof E as E'. vm_compute in E'. now injection E' as _ <-. }
  subst e.
  destruct (no_interrupt_one_stream stub.nearest stub.always_builds
              fixture.tts_engine_at fixture.no_int (inl 0) 24000 1 false
              stub.kokoro fixture.one_second [stub.hello; stub.hello] st'
              tts.no_engines E)
    as (Hrep & g1 & fresh & current & results & _ & _ & Hcur & Hopen & _
        & Hfinals & _); [discriminate|].
  exists st', current. repeat split; assumption.
Defined.

(** ** Registration of a speaker over the WebSocket *)

Lemma update_existing_found (name0 : string) (entry : app.KnownSpeaker)
    (speakers : list app.KnownSpeaker) :
  app.named name0 entry = true ->
  match find_speaker name0 speakers with
  | Some _ =>
      exists speakers',
        app.update_existing name0 entry speakers = Some speakers' /\
        find_speaker name0 speakers' = Some entry /\
        (forall other, other <> name0 ->
           find_speaker other speakers' = find_speaker other speakers) /\
        length speakers' = length speakers /\
        map app.name speakers' = map app.name speakers
  | None => app.update_existing name0 entry speakers = None
  end.
Proof.
  intros Hentry. unfold find_speaker.
  induction speakers as [|speaker rest IH]; cbn [find app.update_existing];
    [reflexivity|].
  destruct (app.named name0 speaker) eqn:Hn.
  - exists (entry :: rest). split; [reflexivity|]. split; [|split; [|split]].
    + cbn [find]. now rewrite Hentry.
    + intros other Hne. cbn [find].
      assert (E : forall x, app.named name0 x = true ->
                            app.named other x = false).
      { intros x Hx. unfold app.named in *.
        destruct (app.name x) as [n|]; [|reflexivity].
        apply String.eqb_eq in Hx. subst n. now apply String.eqb_neq. }
      now rewrite (E entry Hentry), (E speaker Hn).
    + reflexivity.
    + cbn [map]. f_equal. unfold app.named in Hn, Hentry.
      destruct (app.name speaker) as [n|]; [|discriminate].
      destruct (app.name entry) as [n'|]; [|discriminate].
      apply String.eqb_eq in Hn, Hentry. congruence.
  - destruct (find (app.named name0) rest) as [found|].
    + destruct IH as (rest' & -> & Hfind & Hother & Hlen & Hnames).
      exists (speaker :: rest'). split; [reflexivity|].
      split; [|split; [|split]].
      * cbn [find]. now rewrite Hn.
      * intros other Hne. cbn [find]. now rewrite (Hother other Hne).
      * cbn [length]. now rewrite Hlen.
      * cbn [map]. now rewrite Hnames.
    + now rewrite IH.
Qed.

Lemma find_speaker_snoc (other : string) (speakers : list app.KnownSpeaker)
    (entry : app.KnownSpeaker) :
  find_speaker other (speakers ++ [entry])
  = match find_speaker other speakers with
    | Some e => Some e
    | None => if app.named other entry then Some entry else None
    end.
Proof.
  unfold find_speaker. induction speakers as [|speaker rest IH];
    cbn [app find]; [reflexivity|].
  destruct (app.named other speaker); [reflexivity | exact IH].
Qed.

Lemma find_speaker_none (name0 : string) (speakers : list app.KnownSpeaker) :
  find_speaker name0 speakers = None ->
  ~ In (Some name0) (map app.name speakers).
Proof.
  unfold find_speaker. induction speakers as [|speaker rest IH];
    cbn [find map In]; [tauto|].
  destruct (app.named name0 speaker) eqn:Hn; [discriminate|].
  intros Hrest [Hhead|Htail]; [|now apply IH].
  unfold app.named in Hn. rewrite Hhead, String.eqb_refl in Hn. discriminate.
Qed.

(** X23: [update_known_speakers_json] on a file with a list of speakers.
    Afterwards the first entry with the name holds the new embedding and
    its dimension, stamped [updated_at] if the name was listed and
    [created_at] if it was not; the lookup of every other name gives what
    it gave before; the names are the same in the same order, with the new
    name added at the end if it was not listed, so names that were unique
    stay unique.  A missing file is created with that single entry.  A
    file whose object has no key "speakers" is left as it is (the append
    raises [KeyError], which is caught), and so is unusable content. *)
Theorem known_speakers_upsert (now name0 : string) (embeddings0 : list Q)
    (speakers : list app.KnownSpeaker) :
  let created :=
    app.mkKnownSpeaker (Some name0) embeddings0 (py.len embeddings0)
      (Some (app.created_at now)) in
  let updated :=
    app.mkKnownSpeaker (Some name0) embeddings0 (py.len embeddings0)
      (Some (app.updated_at now)) in
  (exists speakers',
     app.update_known_speakers_json now (app.Object (Some speakers)) name0
       embeddings0 = app.Object (Some speakers') /\
     find_speaker name0 speakers'
       = Some (match find_speaker name0 speakers with
               | Some _ => updated
               | None => created
               end) /\
     (forall other, other <> name0 ->
        find_speaker other speakers' = find_speaker other speakers) /\
     map app.name speakers'
       = map app.name speakers
         ++ match find_speaker name0 speakers with
            | Some _ => []
            | None => [Some name0]
            end /\
     (List.NoDup (map app.name speakers) ->
      List.NoDup (map app.name speakers'))) /\
  app.update_known_speakers_json now app.Missing name0 embeddings0
    = app.Object (Some [created]) /\
  app.update_known_speakers_json now (app.Object None) name0 embeddings0
    = app.Object None /\
  app.update_known_speakers_json now app.Unusable name0 embeddings0
    = app.Unusable.
Proof.
  intros created updated. split; [|repeat split].
  assert (Hupdated : app.named name0 updated = true).
  { unfold app.named. cbn. apply String.eqb_refl. }
  assert (Hcreated : app.named name0 created = true).
  { unfold app.named. cbn. apply String.eqb_refl. }
  pose proof (update_existing_found name0 updated speakers Hupdated) as Hfound.
  cbn [app.update_known_speakers_json]. fold updated created.
  destruct (find_speaker name0 speakers) as [old|] eqn:Hold.
  - destruct Hfound as (speakers' & -> & Hfind & Hother & _ & Hnames).
    exists speakers'. split; [reflexivity|]. split; [exact Hfind|].
    split; [exact Hother|]. rewrite app_nil_r. split; [exact Hnames|].
    now rewrite Hnames.
  - rewrite Hfound. exists (speakers ++ [created]).
    split; [reflexivity|]. split; [|split; [|split]].
    + now rewrite find_speaker_snoc, Hold, Hcreated.
    + intros other Hne. rewrite find_speaker_snoc.
      destruct (find_speaker other speakers); [reflexivity|].
      assert (E : app.named other created = false).
      { unfold app.named. cbn. now apply String.eqb_neq. }
      now rewrite E.
    + now rewrite List.map_app.
    + intros Hnodup. rewrite List.map_app. cbn [map].
      apply List.NoDup_app; [exact Hnodup | |].
      * constructor; [intros [] | constructor].
      * intros x Hx [<-|[]]. now apply (find_speaker_none name0 speakers).
Qed.


(** The percentage is the truncated double: 0.35 seconds of audio give
    [int(0.06999999999999999 * 100)], which is 6, where the exact quotient
    is 7. *)
Example percent_truncates_the_double :
  app.percent 5600 16000 = 6 /\
  py.int (inject_Z 5600 / inject_Z 16000 / 5 * 100)%Q = 7.
Proof. split; vm_compute; reflexivity. Qed.

Section registration_loop.

Variable models_root : string.
Variable name0 : string.
Variable samplerate : Z.
Variable now : string.



End registration_loop.

